(** * waypp: a Wayland / EGL window wrapper

    Shallow embedding of the event handlers and lifecycle operations of
    the waypp library (Seat, Egl, XdgWm, Window, WindowManager, Cursor)
    together with the properties stated about them.

    Conventions used throughout:
    - a C++ [uint32_t] / [int32_t] / [int] value is a [Z]; where the code
      adds, negates or converts such values the two's-complement
      wrap-around is written out;
    - a native handle (pointer to a protocol object) is a [Z], the null
      pointer being [0];
    - a [std::unique_ptr<T>] field is an [option] of the identity of the
      object it owns;
    - requests sent to the compositor or to EGL are appended to a log, so
      that "what the code asked the outside world to do" is observable;
    - results of calls into libwayland / EGL / libc are supplied by an
      environment record, because their code is not part of the library. *)

From Stdlib Require Import ZArith List Bool Ascii String Lia.
Import ListNotations.

Local Open Scope Z_scope.

(* ================================================================== *)
(** * Seat  (src/seat/seat.cc, seat.h)                                 *)
(* ================================================================== *)

Module Seat.

(** [enum wl_seat_capability] of the Wayland core protocol. *)
Definition WL_SEAT_CAPABILITY_POINTER : Z := 1.
Definition WL_SEAT_CAPABILITY_KEYBOARD : Z := 2.
Definition WL_SEAT_CAPABILITY_TOUCH : Z := 4.

(** The three handler classes a Seat can own. *)
Inductive device := Pointer | Keyboard | Touch.

Definition device_eqb (a b : device) : bool :=
  match a, b with
  | Pointer, Pointer | Keyboard, Keyboard | Touch, Touch => true
  | _, _ => false
  end.

Definition capability (d : device) : Z :=
  match d with
  | Pointer => WL_SEAT_CAPABILITY_POINTER
  | Keyboard => WL_SEAT_CAPABILITY_KEYBOARD
  | Touch => WL_SEAT_CAPABILITY_TOUCH
  end.

(** C truthiness of [caps & bit]. *)
Definition has_cap (caps : Z) (d : device) : bool :=
  negb (Z.land caps (capability d) =? 0).

(** A handler object on the C++ heap: its class and allocation number. *)
Definition object : Type := device * nat.

(** What happens to handler objects while a notification is processed. *)
Inductive action :=
| Construct (o : object)
| Destroy (o : object).

(** The Seat object together with the heap of handler objects.
    [live] lists the handler objects that have been constructed and not
    yet destroyed, whoever owns them. *)
Record t := mk {
  capabilities_ : Z;
  pointer_ : option nat;
  keyboard_ : option nat;
  touch_ : option nat;
  live : list object;
  next_alloc : nat
}.

(** [Seat::Seat]: [capabilities_()] and three empty [unique_ptr]s. *)
Definition init : t := mk 0 None None None [] 0%nat.

Definition slot (d : device) (s : t) : option nat :=
  match d with
  | Pointer => pointer_ s
  | Keyboard => keyboard_ s
  | Touch => touch_ s
  end.

Definition set_slot (d : device) (v : option nat) (s : t) : t :=
  match d with
  | Pointer => mk (capabilities_ s) v (keyboard_ s) (touch_ s) (live s) (next_alloc s)
  | Keyboard => mk (capabilities_ s) (pointer_ s) v (touch_ s) (live s) (next_alloc s)
  | Touch => mk (capabilities_ s) (pointer_ s) (keyboard_ s) v (live s) (next_alloc s)
  end.

Definition set_heap (l : list object) (n : nat) (s : t) : t :=
  mk (capabilities_ s) (pointer_ s) (keyboard_ s) (touch_ s) l n.

Definition object_eqb (a b : object) : bool :=
  device_eqb (fst a) (fst b) && Nat.eqb (snd a) (snd b).

Definition remove_object (o : object) (l : list object) : list object :=
  filter (fun x => negb (object_eqb o x)) l.

(** [slot = std::make_unique<T>(...)]: the new object is constructed,
    then move-assigned into the [unique_ptr], which deletes whatever the
    pointer owned before. *)
Definition assign_new (d : device) (s : t) : t * list action :=
  let id := next_alloc s in
  let s1 := set_heap ((d, id) :: live s) (S id) s in
  match slot d s with
  | None => (set_slot d (Some id) s1, [Construct (d, id)])
  | Some old =>
      (set_slot d (Some id)
         (set_heap (remove_object (d, old) (live s1)) (next_alloc s1) s1),
       [Construct (d, id); Destroy (d, old)])
  end.

(** [slot.reset()]: deletes the owned object, if any, and nulls the pointer. *)
Definition reset (d : device) (s : t) : t * list action :=
  match slot d s with
  | None => (s, [])
  | Some old =>
      (set_slot d None (set_heap (remove_object (d, old) (live s)) (next_alloc s) s),
       [Destroy (d, old)])
  end.

Definition is_set (o : option nat) : bool :=
  match o with Some _ => true | None => false end.

(** One of the three [if / else if] blocks of [handle_capabilities]. *)
Definition update_device (caps : Z) (d : device) (s : t) : t * list action :=
  if has_cap caps d && negb (is_set (slot d s)) then assign_new d s
  else if negb (has_cap caps d) && is_set (slot d s) then reset d s
  else (s, []).

Definition set_capabilities (caps : Z) (s : t) : t :=
  mk caps (pointer_ s) (keyboard_ s) (touch_ s) (live s) (next_alloc s).

(** [Seat::handle_capabilities]: store the mask, then pointer, keyboard,
    touch in that order. *)
Definition handle_capabilities (caps : Z) (s : t) : t * list action :=
  let s0 := set_capabilities caps s in
  let '(s1, a1) := update_device caps Pointer s0 in
  let '(s2, a2) := update_device caps Keyboard s1 in
  let '(s3, a3) := update_device caps Touch s2 in
  (s3, a1 ++ a2 ++ a3).

(** Delivery of a sequence of capability notifications. *)
Definition run (masks : list Z) (s : t) : t :=
  fold_left (fun st caps => fst (handle_capabilities caps st)) masks s.

(** Number of live handler objects of a class. *)
Definition live_count (d : device) (s : t) : nat :=
  List.length (filter (fun o => device_eqb d (fst o)) (live s)).

Definition constructs (d : device) (a : action) : bool :=
  match a with
  | Construct o => device_eqb d (fst o)
  | Destroy _ => false
  end.

Definition of_kind (d : device) (l : list object) : list object :=
  filter (fun o => device_eqb d (fst o)) l.

(** Ownership invariant: the heap holds exactly the objects the three
    [unique_ptr]s own. *)
Definition seat_wf (s : t) : Prop :=
  forall d, of_kind d (live s) =
            match slot d s with Some id => [(d, id)] | None => [] end.

End Seat.

(* ================================================================== *)
(** * Egl  (egl.cc, egl.h)                                             *)
(* ================================================================== *)

Module Egl.

Definition EGL_NO_CONTEXT : Z := 0.
Definition EGL_NO_SURFACE : Z := 0.

(** Calls into the EGL implementation that change or present state,
    each with the [EGLBoolean] it returned. *)
Inductive call :=
| eglMakeCurrent (dpy draw read ctx : Z) (ret : bool)
| eglSwapBuffers (dpy surface : Z) (ret : bool).

(** The EGL implementation as seen by the calling thread: the context
    that is current, and the calls received so far (oldest first). *)
Record driver := mk_driver {
  current_context : Z;
  calls : list call
}.

(** Answers of the EGL implementation. *)
Record env := mk_env {
  eglGetDisplay : Z -> Z;
  (** [None] is [EGL_FALSE]; otherwise the major and minor version. *)
  eglInitialize : Z -> option (Z * Z);
  eglBindAPI : bool;
  (** [None] is [EGL_FALSE]; otherwise the number of configs. *)
  eglGetConfigs : Z -> option Z;
  (** [None] is [EGL_FALSE]; otherwise the [n] configs written to the
      array, in the order the implementation returned them. *)
  eglChooseConfig : Z -> Z -> option (list Z);
  (** [EGL_BUFFER_SIZE] of a config; [None] is [EGL_FALSE]. *)
  eglGetConfigAttrib : Z -> Z -> option Z;
  (** Result of the [k]-th [eglCreateContext dpy config share]; context
      creation failure is the result [EGL_NO_CONTEXT]. *)
  eglCreateContext : nat -> Z -> Z -> Z -> Z;
  (** Whether [eglMakeCurrent dpy draw read ctx] succeeds. *)
  eglMakeCurrent_ok : Z -> Z -> Z -> Z -> bool;
  eglSwapBuffers_ok : Z -> Z -> bool;
  eglQueryString_EXTENSIONS : Z -> string;
  eglGetProcAddress : string -> Z
}.

(** The fields of [class Egl]. *)
Record t := mk {
  egl_surface_ : Z;
  config_ : Z;
  texture_context_ : Z;
  buffer_size_ : Z;
  dpy_ : Z;
  context_ : Z;
  resource_context_ : Z;
  major_ : Z;
  minor_ : Z;
  pfSwapBufferWithDamage_ : Z;
  pfSetDamageRegion_ : Z;
  has_egl_ext_buffer_age_ : bool
}.

(** The library call [eglMakeCurrent]: on success the given context
    becomes current, on failure the current context is unchanged. *)
Definition do_eglMakeCurrent (E : env) (dpy draw read ctx : Z) (d : driver)
  : bool * driver :=
  let ok := eglMakeCurrent_ok E dpy draw read ctx in
  (ok, mk_driver (if ok then ctx else current_context d)
                 (calls d ++ [eglMakeCurrent dpy draw read ctx ok])).

Definition do_eglSwapBuffers (E : env) (dpy surface : Z) (d : driver)
  : bool * driver :=
  let ok := eglSwapBuffers_ok E dpy surface in
  (ok, mk_driver (current_context d) (calls d ++ [eglSwapBuffers dpy surface ok])).

Definition eglGetCurrentContext (d : driver) : Z := current_context d.

(** [Egl::make_current] *)
Definition make_current (E : env) (e : t) (d : driver) : bool * driver :=
  let d1 :=
    if negb (eglGetCurrentContext d =? context_ e)
    then snd (do_eglMakeCurrent E (dpy_ e) (egl_surface_ e) (egl_surface_ e) (context_ e) d)
    else d in
  (true, d1).

(** [Egl::clear_current] *)
Definition clear_current (E : env) (e : t) (d : driver) : bool * driver :=
  let d1 :=
    if negb (eglGetCurrentContext d =? EGL_NO_CONTEXT)
    then snd (do_eglMakeCurrent E (dpy_ e) EGL_NO_SURFACE EGL_NO_SURFACE EGL_NO_CONTEXT d)
    else d in
  (true, d1).

(** [Egl::swap_buffers] *)
Definition swap_buffers (E : env) (e : t) (d : driver) : bool * driver :=
  (true, snd (do_eglSwapBuffers E (dpy_ e) (egl_surface_ e) d)).

(** [Egl::make_resource_current]: the test reads [context_], the call
    installs [resource_context_]. *)
Definition make_resource_current (E : env) (e : t) (d : driver) : bool * driver :=
  let d1 :=
    if negb (eglGetCurrentContext d =? context_ e)
    then snd (do_eglMakeCurrent E (dpy_ e) EGL_NO_SURFACE EGL_NO_SURFACE
                (resource_context_ e) d)
    else d in
  (true, d1).

(** [Egl::make_texture_current] *)
Definition make_texture_current (E : env) (e : t) (d : driver) : bool * driver :=
  let d1 :=
    if negb (eglGetCurrentContext d =? texture_context_ e)
    then snd (do_eglMakeCurrent E (dpy_ e) EGL_NO_SURFACE EGL_NO_SURFACE
                (texture_context_ e) d)
    else d in
  (true, d1).

(** The four make-current operations and the context each one installs. *)
Inductive make_op := Default | Clear | Resource | Texture.

Definition run_op (o : make_op) : env -> t -> driver -> bool * driver :=
  match o with
  | Default => make_current
  | Clear => clear_current
  | Resource => make_resource_current
  | Texture => make_texture_current
  end.

Definition installs (o : make_op) (e : t) : Z :=
  match o with
  | Default => context_ e
  | Clear => EGL_NO_CONTEXT
  | Resource => resource_context_ e
  | Texture => texture_context_ e
  end.

Definition is_switch (c : call) : bool :=
  match c with
  | eglMakeCurrent _ _ _ _ _ => true
  | eglSwapBuffers _ _ _ => false
  end.

(** Number of [eglMakeCurrent] invocations received by the driver. *)
Definition switches (d : driver) : nat :=
  List.length (filter is_switch (calls d)).

(** [Egl::has_egl_extension]: [strstr], then the character after the
    match must be a space or the terminating NUL. *)
Definition has_egl_extension (extensions name : string) : bool :=
  match String.index 0 name extensions with
  | None => false
  | Some r =>
      match String.get (r + String.length name) extensions with
      | Some c => Ascii.eqb c " "%char
      | None => true
      end
  end.

(** The config loop of the constructor.  [attrib c] is
    [eglGetConfigAttrib(dpy_, c, EGL_BUFFER_SIZE, &size)]; the result is
    [None] when the loop throws, otherwise the final [config_]. *)
Fixpoint select_config (attrib : Z -> option Z) (buffer_size : Z)
         (configs : list Z) (config : Z) : option Z :=
  match configs with
  | [] => Some config
  | c :: rest =>
      match attrib c with
      | None => None
      | Some size =>
          if buffer_size <=? size then Some c
          else select_config attrib buffer_size rest config
      end
  end.

(** Outcome of running the constructor. *)
Inductive outcome :=
| Threw (what : string)
| Constructed (e : t) (d : driver).

(** [int buffer_size_ = 24;] in the class definition. *)
Definition default_buffer_size : Z := 24.

(** [Egl::Egl(struct wl_display *display)].  All fields start
    zero-initialised except [buffer_size_].  ([egl_khr_debug_init], which
    only registers a logging callback, is left out.) *)
Definition construct (E : env) (display : Z) (d0 : driver) : outcome :=
  let dpy := eglGetDisplay E display in
  match eglInitialize E dpy with
  | None => Threw "eglInitialize failed."
  | Some (major, minor) =>
  if negb (eglBindAPI E) then Threw "eglBindAPI failed." else
  match eglGetConfigs E dpy with
  | None => Threw "eglGetConfigs failed."
  | Some count =>
  match eglChooseConfig E dpy count with
  | None => Threw "eglChooseConfig failed"
  | Some configs =>
  match select_config (eglGetConfigAttrib E dpy) default_buffer_size configs 0 with
  | None => Threw "eglGetConfigAttrib failed"
  | Some config =>
    let context := eglCreateContext E 0%nat dpy config EGL_NO_CONTEXT in
    let resource_context := eglCreateContext E 1%nat dpy config context in
    let texture_context := eglCreateContext E 2%nat dpy config context in
    let e1 := mk 0 config texture_context default_buffer_size dpy context
                 resource_context major minor 0 0 false in
    let d1 := snd (make_current E e1 d0) in
    let extensions := eglQueryString_EXTENSIONS E dpy in
    let pfSwap :=
      if has_egl_extension extensions "EGL_EXT_swap_buffers_with_damage"
      then eglGetProcAddress E "eglSwapBuffersWithDamageEXT"
      else if has_egl_extension extensions "EGL_KHR_swap_buffers_with_damage"
      then eglGetProcAddress E "eglSwapBuffersWithDamageKHR"
      else 0 in
    let pfDamage :=
      if has_egl_extension extensions "EGL_KHR_partial_update"
      then eglGetProcAddress E "eglSetDamageRegionKHR"
      else 0 in
    let e2 := mk 0 config texture_context default_buffer_size dpy context
                 resource_context major minor pfSwap pfDamage
                 (has_egl_extension extensions "EGL_EXT_buffer_age") in
    Constructed e2 (snd (clear_current E e2 d1))
  end end end end.

Definition threw (o : outcome) : bool :=
  match o with Threw _ => true | Constructed _ _ => false end.

(** One of the results the constructor tests came back as a failure:
    [eglInitialize], [eglBindAPI], [eglGetConfigs], [eglChooseConfig], or
    the [eglGetConfigAttrib] query of a config that [eglChooseConfig]
    returned after configs whose buffer sizes were all obtained and all
    below 24. *)
Definition checked_step_fails (E : env) (display : Z) : Prop :=
  let dpy := eglGetDisplay E display in
  eglInitialize E dpy = None
  \/ eglBindAPI E = false
  \/ eglGetConfigs E dpy = None
  \/ (exists count,
        eglGetConfigs E dpy = Some count /\ eglChooseConfig E dpy count = None)
  \/ (exists count before c after,
        eglGetConfigs E dpy = Some count
        /\ eglChooseConfig E dpy count = Some (before ++ c :: after)
        /\ (forall x, In x before ->
              exists size, eglGetConfigAttrib E dpy x = Some size /\ size < 24)
        /\ eglGetConfigAttrib E dpy c = None).

(** One of the three [eglCreateContext] calls of a completed
    construction returned [EGL_NO_CONTEXT]. *)
Definition context_creation_fails (e : t) : Prop :=
  context_ e = EGL_NO_CONTEXT
  \/ resource_context_ e = EGL_NO_CONTEXT
  \/ texture_context_ e = EGL_NO_CONTEXT.

End Egl.

(* ================================================================== *)
(** * XdgWm  (src/window_manager/xdg_wm.cc, xdg_wm.h)                  *)
(* ================================================================== *)

Module XdgWm.

(** [enum xdg_toplevel_state] of the xdg-shell protocol. *)
Definition XDG_TOPLEVEL_STATE_MAXIMIZED : Z := 1.
Definition XDG_TOPLEVEL_STATE_FULLSCREEN : Z := 2.
Definition XDG_TOPLEVEL_STATE_RESIZING : Z := 3.
Definition XDG_TOPLEVEL_STATE_ACTIVATED : Z := 4.

(** [struct { int32_t width; int32_t height; }] *)
Record size := mk_size { width : Z; height : Z }.

(** The fields of [class XdgWm] ([app_id_] and [activation_area_], which
    no code reads or writes, are left out). *)
Record t := mk {
  wl_surface_ : Z;
  wl_registry_ : Z;
  xdg_wm_base_ : Z;
  xdg_surface_ : Z;
  xdg_toplevel_ : Z;
  wait_for_configure_ : bool;
  fullscreen_ : bool;
  maximized_ : bool;
  resize_ : bool;
  activated_ : bool;
  running_ : bool;
  geometry_ : size;
  window_size_ : size
}.

(** Requests the object sends to the compositor. *)
Inductive request :=
| wl_display_get_registry (display : Z)
| wl_registry_bind (registry name version : Z)
| xdg_wm_base_get_xdg_surface (base surface : Z)
| xdg_surface_get_toplevel (surface : Z)
| xdg_toplevel_set_title (toplevel : Z) (title : string)
| xdg_toplevel_set_app_id (toplevel : Z) (app_id : string)
| wl_surface_commit (surface : Z)
| xdg_wm_base_pong (base serial : Z)
| xdg_surface_ack_configure (surface serial : Z).

(** The object, the requests it has sent so far (oldest first), and the
    assignments made to [wait_for_configure_] in program order: each with
    the value stored and the number of requests that had been sent when it
    was made. *)
Record world := mk_world {
  obj : t;
  sent : list request;
  wait_stores : list (bool * nat)
}.

(** Handles of the proxies created by the constructor requests. *)
Record env := mk_env {
  new_registry : Z -> Z;
  new_wm_base : Z -> Z -> Z -> Z;
  new_xdg_surface : Z -> Z -> Z;
  new_toplevel : Z -> Z
}.

Definition send (r : request) (w : world) : world :=
  mk_world (obj w) (sent w ++ [r]) (wait_stores w).

Definition update (f : t -> t) (w : world) : world :=
  mk_world (f (obj w)) (sent w) (wait_stores w).

Definition set_wait_for_configure (b : bool) (x : t) : t :=
  mk (wl_surface_ x) (wl_registry_ x) (xdg_wm_base_ x) (xdg_surface_ x)
     (xdg_toplevel_ x) b (fullscreen_ x) (maximized_ x) (resize_ x)
     (activated_ x) (running_ x) (geometry_ x) (window_size_ x).

Definition set_registry (registry : Z) (x : t) : t :=
  mk (wl_surface_ x) registry (xdg_wm_base_ x) (xdg_surface_ x)
     (xdg_toplevel_ x) (wait_for_configure_ x) (fullscreen_ x) (maximized_ x)
     (resize_ x) (activated_ x) (running_ x) (geometry_ x) (window_size_ x).

Definition set_handles (base surface toplevel : Z) (x : t) : t :=
  mk (wl_surface_ x) (wl_registry_ x) base surface toplevel
     (wait_for_configure_ x) (fullscreen_ x) (maximized_ x) (resize_ x)
     (activated_ x) (running_ x) (geometry_ x) (window_size_ x).

Definition set_flags (fs mx rs ac : bool) (x : t) : t :=
  mk (wl_surface_ x) (wl_registry_ x) (xdg_wm_base_ x) (xdg_surface_ x)
     (xdg_toplevel_ x) (wait_for_configure_ x) fs mx rs ac
     (running_ x) (geometry_ x) (window_size_ x).

Definition set_running (b : bool) (x : t) : t :=
  mk (wl_surface_ x) (wl_registry_ x) (xdg_wm_base_ x) (xdg_surface_ x)
     (xdg_toplevel_ x) (wait_for_configure_ x) (fullscreen_ x) (maximized_ x)
     (resize_ x) (activated_ x) b (geometry_ x) (window_size_ x).

Definition set_geometry (g : size) (x : t) : t :=
  mk (wl_surface_ x) (wl_registry_ x) (xdg_wm_base_ x) (xdg_surface_ x)
     (xdg_toplevel_ x) (wait_for_configure_ x) (fullscreen_ x) (maximized_ x)
     (resize_ x) (activated_ x) (running_ x) g (window_size_ x).

Definition set_window_size (g : size) (x : t) : t :=
  mk (wl_surface_ x) (wl_registry_ x) (xdg_wm_base_ x) (xdg_surface_ x)
     (xdg_toplevel_ x) (wait_for_configure_ x) (fullscreen_ x) (maximized_ x)
     (resize_ x) (activated_ x) (running_ x) (geometry_ x) g.

(** The assignment [wait_for_configure_ = b;]. *)
Definition store_wait_for_configure (b : bool) (w : world) : world :=
  mk_world (set_wait_for_configure b (obj w)) (sent w)
           (wait_stores w ++ [(b, List.length (sent w))]).

(** [XdgWm::XdgWm]: every field with a [{}] initialiser is zero; the
    body fetches the registry and sets [wait_for_configure_]. *)
Definition construct (E : env) (display base_surface : Z) : world :=
  let zero := mk base_surface 0 0 0 0 false false false false false false
                 (mk_size 0 0) (mk_size 0 0) in
  let w := mk_world zero [] [] in
  let w := send (wl_display_get_registry display) w in
  let w := update (set_registry (new_registry E display)) w in
  store_wait_for_configure true w.

(** [XdgWm::registry_handle_global] *)
Definition registry_handle_global (E : env) (registry name : Z)
           (interface : string) (version : Z) (w : world) : world :=
  if String.eqb interface "xdg_wm_base" then
    let v := Z.min 3 version in
    let base := new_wm_base E registry name v in
    let w := send (wl_registry_bind registry name v) w in
    let surface := new_xdg_surface E base (wl_surface_ (obj w)) in
    let w := send (xdg_wm_base_get_xdg_surface base (wl_surface_ (obj w))) w in
    let toplevel := new_toplevel E surface in
    let w := send (xdg_surface_get_toplevel surface) w in
    let w := update (set_handles base surface toplevel) w in
    let w := send (xdg_toplevel_set_title toplevel "waypp") w in
    let w := send (xdg_toplevel_set_app_id toplevel "waypp") w in
    send (wl_surface_commit (wl_surface_ (obj w))) w
  else w.

(** [XdgWm::registry_handle_global_remove]: empty body. *)
Definition registry_handle_global_remove (id : Z) (w : world) : world := w.

(** [XdgWm::xdg_wm_base_ping] *)
Definition xdg_wm_base_ping (xdg_wm_base serial : Z) (w : world) : world :=
  send (xdg_wm_base_pong xdg_wm_base serial) w.

(** [XdgWm::handle_xdg_surface_configure]: acknowledge, then clear. *)
Definition handle_xdg_surface_configure (xdg_surface serial : Z) (w : world)
  : world :=
  let w := send (xdg_surface_ack_configure xdg_surface serial) w in
  store_wait_for_configure false w.

(** The [switch] in the body of [WL_ARRAY_FOR_EACH]. *)
Definition apply_state (x : t) (state : Z) : t :=
  if state =? XDG_TOPLEVEL_STATE_FULLSCREEN then
    set_flags true (maximized_ x) (resize_ x) (activated_ x) x
  else if state =? XDG_TOPLEVEL_STATE_MAXIMIZED then
    set_flags (fullscreen_ x) true (resize_ x) (activated_ x) x
  else if state =? XDG_TOPLEVEL_STATE_RESIZING then
    set_flags (fullscreen_ x) (maximized_ x) true (activated_ x) x
  else if state =? XDG_TOPLEVEL_STATE_ACTIVATED then
    set_flags (fullscreen_ x) (maximized_ x) (resize_ x) true x
  else x.

(** [XdgWm::handle_toplevel_configure]; [states] is the [wl_array] read
    as [uint32_t] elements.  (The lines written to [std::cout] are left
    out.) *)
Definition handle_toplevel_configure (width height : Z) (states : list Z)
           (x : t) : t :=
  if (width =? 0) || (height =? 0) then x else
  let x := set_flags false false false false x in
  let x := fold_left apply_state states x in
  if (0 <? width) && (0 <? height) then
    let x :=
      if negb (fullscreen_ x) && negb (maximized_ x)
      then set_window_size (mk_size width height) x
      else x in
    set_geometry (mk_size width height) x
  else if negb (fullscreen_ x) && negb (maximized_ x) then
    set_geometry (window_size_ x) x
  else x.

(** [XdgWm::handle_toplevel_close] *)
Definition handle_toplevel_close (w : world) : world :=
  update (set_running false) w.

(** [enum xdg_toplevel_resize_edge] *)
Definition XDG_TOPLEVEL_RESIZE_EDGE_NONE : Z := 0.
Definition XDG_TOPLEVEL_RESIZE_EDGE_TOP : Z := 1.
Definition XDG_TOPLEVEL_RESIZE_EDGE_BOTTOM : Z := 2.
Definition XDG_TOPLEVEL_RESIZE_EDGE_LEFT : Z := 4.
Definition XDG_TOPLEVEL_RESIZE_EDGE_TOP_LEFT : Z := 5.
Definition XDG_TOPLEVEL_RESIZE_EDGE_BOTTOM_LEFT : Z := 6.
Definition XDG_TOPLEVEL_RESIZE_EDGE_RIGHT : Z := 8.
Definition XDG_TOPLEVEL_RESIZE_EDGE_TOP_RIGHT : Z := 9.
Definition XDG_TOPLEVEL_RESIZE_EDGE_BOTTOM_RIGHT : Z := 10.

(** Two's-complement [int]. *)
Definition int (x : Z) : Z := (x + 2 ^ 31) mod 2 ^ 32 - 2 ^ 31.

(** The edge computed by [XdgWm::toplevel_resize]. *)
Definition resize_edge (x y width height padding : Z) : Z :=
  let top := y <? padding in
  let bottom := int (height - padding) <? y in
  let left := x <? padding in
  let right := int (width - padding) <? x in
  if top then
    if right then XDG_TOPLEVEL_RESIZE_EDGE_TOP_RIGHT
    else if left then XDG_TOPLEVEL_RESIZE_EDGE_TOP_LEFT
    else XDG_TOPLEVEL_RESIZE_EDGE_TOP
  else if bottom then
    if right then XDG_TOPLEVEL_RESIZE_EDGE_BOTTOM_RIGHT
    else if left then XDG_TOPLEVEL_RESIZE_EDGE_BOTTOM_LEFT
    else XDG_TOPLEVEL_RESIZE_EDGE_BOTTOM
  else if right then XDG_TOPLEVEL_RESIZE_EDGE_RIGHT
  else if left then XDG_TOPLEVEL_RESIZE_EDGE_LEFT
  else XDG_TOPLEVEL_RESIZE_EDGE_NONE.

(** [XdgWm::toplevel_resize]: the request is compiled out ([#if 0]). *)
Definition toplevel_resize (x y width height padding : Z) (w : world) : world :=
  let edge := resize_edge x y width height padding in
  if negb (edge =? 0) then w else w.

(** [set_app_id] and [set_title] of the header. *)
Definition set_app_id (app_id : string) (w : world) : world :=
  send (xdg_toplevel_set_app_id (xdg_toplevel_ (obj w)) app_id) w.

Definition set_title (title : string) (w : world) : world :=
  send (xdg_toplevel_set_title (xdg_toplevel_ (obj w)) title) w.

(** Everything that can happen to an XdgWm after construction: the
    events of its four listeners and the calls of its public methods. *)
Inductive event :=
| ev_registry_global (registry name : Z) (interface : string) (version : Z)
| ev_registry_global_remove (id : Z)
| ev_ping (xdg_wm_base serial : Z)
| ev_surface_configure (xdg_surface serial : Z)
| ev_toplevel_configure (width height : Z) (states : list Z)
| ev_toplevel_close
| call_set_app_id (app_id : string)
| call_set_title (title : string)
| call_toplevel_resize (x y width height padding : Z).

Definition step (E : env) (w : world) (e : event) : world :=
  match e with
  | ev_registry_global r n i v => registry_handle_global E r n i v w
  | ev_registry_global_remove id => registry_handle_global_remove id w
  | ev_ping b s => xdg_wm_base_ping b s w
  | ev_surface_configure x s => handle_xdg_surface_configure x s w
  | ev_toplevel_configure wd ht st =>
      update (handle_toplevel_configure wd ht st) w
  | ev_toplevel_close => handle_toplevel_close w
  | call_set_app_id a => set_app_id a w
  | call_set_title t => set_title t w
  | call_toplevel_resize x y wd ht p => toplevel_resize x y wd ht p w
  end.

Definition run (E : env) (events : list event) (w : world) : world :=
  fold_left (step E) events w.

Definition is_surface_configure (e : event) : bool :=
  match e with ev_surface_configure _ _ => true | _ => false end.

Definition mem (state : Z) (states : list Z) : bool :=
  existsb (Z.eqb state) states.

(** Fields the state loop cannot change. *)
Definition same_outside_flags (x y : t) : Prop :=
  wl_surface_ y = wl_surface_ x /\ wl_registry_ y = wl_registry_ x
  /\ xdg_wm_base_ y = xdg_wm_base_ x /\ xdg_surface_ y = xdg_surface_ x
  /\ xdg_toplevel_ y = xdg_toplevel_ x
  /\ wait_for_configure_ y = wait_for_configure_ x
  /\ running_ y = running_ x
  /\ geometry_ y = geometry_ x /\ window_size_ y = window_size_ x.

(** Every recorded assignment of [false] to [wait_for_configure_] was
    made right after an [xdg_surface_ack_configure]: at least one request
    had been sent, and the last one sent was an acknowledgement. *)
Definition cleared_after_ack (w : world) : Prop :=
  forall b n, In (b, n) (wait_stores w) -> b = false ->
    exists surface serial,
      nth_error (sent w) (Nat.pred n)
      = Some (xdg_surface_ack_configure surface serial)
      /\ (0 < n <= List.length (sent w))%nat.

End XdgWm.

(* ================================================================== *)
(** * Window  (src/window/window.cc, window.h)                         *)
(* ================================================================== *)

Module Window.

(** What a Window does to the outside world, in program order. *)
Inductive effect :=
| wl_callback_destroy (callback : Z)
| draw_callback (time : Z)
| wl_surface_frame (surface callback : Z)
| wl_callback_add_listener (callback : Z)
| wl_surface_commit (surface : Z).

(** The fields of [class Window] the frame loop uses; [has_draw_callback]
    tells whether the [std::function] [draw_callback_] is non-empty. *)
Record t := mk {
  wl_surface_ : Z;
  wl_callback_ : Z;
  has_draw_callback : bool
}.

(** The Window together with the connection state it acts on:
    [live] holds the [wl_callback] proxies that exist (created and not
    yet destroyed), [next_callback] is the handle the next
    [wl_surface_frame] returns, [stale_destroys] counts the
    [wl_callback_destroy] calls made on a proxy that no longer exists. *)
Record world := mk_world {
  win : t;
  live : list Z;
  next_callback : Z;
  stale_destroys : nat;
  trace : list effect
}.

Definition set_callback (c : Z) (w : world) : world :=
  mk_world (mk (wl_surface_ (win w)) c (has_draw_callback (win w)))
           (live w) (next_callback w) (stale_destroys w) (trace w).

Definition emit (e : effect) (w : world) : world :=
  mk_world (win w) (live w) (next_callback w) (stale_destroys w) (trace w ++ [e]).

Definition is_live (c : Z) (w : world) : bool := existsb (Z.eqb c) (live w).

(** The library call [wl_callback_destroy]. *)
Definition do_wl_callback_destroy (c : Z) (w : world) : world :=
  let w := emit (wl_callback_destroy c) w in
  if is_live c w
  then mk_world (win w) (filter (fun x => negb (c =? x)) (live w))
                (next_callback w) (stale_destroys w) (trace w)
  else mk_world (win w) (live w) (next_callback w) (S (stale_destroys w)) (trace w).

(** The library call [wl_surface_frame]: a new proxy comes to exist. *)
Definition do_wl_surface_frame (surface : Z) (w : world) : Z * world :=
  let c := next_callback w in
  (c, emit (wl_surface_frame surface c)
        (mk_world (win w) (c :: live w) (c + 1) (stale_destroys w) (trace w))).

(** [Window::stop_frames] (a [const] method: no field is written). *)
Definition stop_frames (w : world) : world :=
  if negb (wl_callback_ (win w) =? 0)
  then do_wl_callback_destroy (wl_callback_ (win w)) w
  else w.

(** [Window::on_frame] *)
Definition on_frame (callback time : Z) (w : world) : world :=
  let w := set_callback 0 w in
  let w := if negb (callback =? 0) then do_wl_callback_destroy callback w else w in
  let w := if has_draw_callback (win w) then emit (draw_callback time) w else w in
  let '(c, w) := do_wl_surface_frame (wl_surface_ (win w)) w in
  let w := set_callback c w in
  let w := emit (wl_callback_add_listener c) w in
  emit (wl_surface_commit (wl_surface_ (win w))) w.

(** [Window::start_frames] *)
Definition start_frames (w : world) : world :=
  on_frame 0 0 (stop_frames w).

(** A Window object before the body of its constructor has called
    [start_frames]: surface created, [wl_callback_{}] null, nothing live.
    Proxy handles are non-null, so numbering starts at [first]. *)
Definition created (surface first : Z) (draw : bool) : world :=
  mk_world (mk surface 0 draw) [] first 0%nat [].

(** [Window::Window] *)
Definition construct (surface first : Z) (draw : bool) : world :=
  start_frames (created surface first draw).

Definition is_draw (e : effect) : bool :=
  match e with draw_callback _ => true | _ => false end.

(** Number of draw-callback invocations recorded in a trace. *)
Definition draws (l : list effect) : nat := List.length (filter is_draw l).

(** A frame-callback subscription is outstanding when a [wl_callback]
    proxy of the Window exists. *)
Definition subscription_outstanding (w : world) : bool :=
  match live w with [] => false | _ :: _ => true end.

End Window.

(* ================================================================== *)
(** * WindowManager::dispatch  (window_manager.cc)                     *)
(* ================================================================== *)

Module WindowManager.

Definition EAGAIN : Z := 11.
Definition POLLIN : Z := 1.

(** Two's-complement [int]. *)
Definition INT_MAX : Z := 2147483647.
Definition int (x : Z) : Z := (x + 2 ^ 31) mod 2 ^ 32 - 2 ^ 31.

(** What libwayland and libc answer during one call of [dispatch]
    (the leading loop over [g_main_context_iteration], which touches none
    of the values involved, is left out).  [drained] holds, for each time
    [wl_display_prepare_read] returned non-zero, the result of the
    [wl_display_dispatch_pending] that followed; after the last of them
    [wl_display_prepare_read] returns 0.
    Each [errno] field is the value of [errno] when the code reads it,
    i.e. as the failing call left it ([wl_display_cancel_read] does not
    set [errno]). *)
Record env := mk_env {
  drained : list Z;
  flush_result : Z;
  flush_errno : Z;
  poll_result : Z -> Z;
  poll_revents : Z;
  poll_errno : Z;
  dispatch_pending_after_read : Z
}.

(** Which [return] statement was reached. *)
Inductive outcome :=
| Dispatched (dispatch_count : Z)
| Failed (errno : Z).

Definition return_value (o : outcome) : Z :=
  match o with
  | Dispatched n => n
  | Failed e => int (- e)
  end.

(** [wl_display_flush(...) < 0 && errno != EAGAIN] *)
Definition flush_failed (E : env) : bool :=
  (flush_result E <? 0) && negb (flush_errno E =? EAGAIN).

(** The drain loop: [dispatch_count += wl_display_dispatch_pending(...)]. *)
Definition drain (E : env) : Z :=
  fold_left (fun count n => int (count + n)) (drained E) 0.

(** [WindowManager::dispatch] *)
Definition dispatch_outcome (E : env) (timeout : Z) : outcome :=
  let dispatch_count := drain E in
  if flush_failed E then Failed (flush_errno E)
  else
    let ret := poll_result E timeout in
    if 0 <? ret then
      if negb (Z.land (poll_revents E) POLLIN =? 0)
      then Dispatched (int (dispatch_count + dispatch_pending_after_read E))
      else Dispatched dispatch_count
    else if ret =? 0 then Dispatched dispatch_count
    else Failed (poll_errno E).

Definition dispatch (E : env) (timeout : Z) : Z :=
  return_value (dispatch_outcome E timeout).

(** The sum of the counts in a list. *)
Definition total (counts : list Z) : Z := fold_left Z.add counts 0.

(** Every [wl_display_dispatch_pending] call of the drain loop returned a
    count (not -1), and the counts add up within an [int]. *)
Definition drained_counts (E : env) : Prop :=
  Forall (fun n => 0 <= n) (drained E) /\ total (drained E) <= INT_MAX.

(** [errno] is a positive [int] after a call that failed. *)
Definition errno_set (result errno : Z) : Prop :=
  result < 0 -> 0 < errno <= INT_MAX.

End WindowManager.

(* ================================================================== *)
(** * Cursor  (cursor.cc, cursor.h)                                    *)
(* ================================================================== *)

Module Cursor.

Definition kCursorKindBasic : string := "left_ptr".
Definition kCursorKindClick : string := "hand".
Definition kCursorKindText : string := "left_ptr".
Definition kCursorKindForbidden : string := "pirate".

(** [static_cast<int32_t>] of a [uint32_t]. *)
Definition to_int32 (x : Z) : Z := (x + 2 ^ 31) mod 2 ^ 32 - 2 ^ 31.

(** [cursor->images[0]] of a [struct wl_cursor], with the [wl_buffer]
    that [wl_cursor_image_get_buffer] returns for it (0 when it fails). *)
Record image := mk_image {
  hotspot_x : Z;
  hotspot_y : Z;
  width : Z;
  height : Z;
  buffer : Z
}.

(** [wl_cursor_theme_get_cursor theme name]; [None] is [nullptr]. *)
Definition theme_lookup : Type := Z -> string -> option image.

(** The fields of [class Cursor] that [enable] reads; [serial] is
    [parent_->get_serial()]. *)
Record t := mk {
  serial : Z;
  wl_pointer_ : Z;
  wl_surface_ : Z;
  theme_ : Z;
  enable_ : bool
}.

Inductive request :=
| wl_pointer_set_cursor (pointer serial surface hotspot_x hotspot_y : Z)
| wl_surface_attach (surface buffer x y : Z)
| wl_surface_damage (surface x y width height : Z)
| wl_surface_commit (surface : Z).

(** The [strcmp] chain mapping a kind to a theme image name. *)
Definition cursor_name (kind : string) : option string :=
  if String.eqb kind "basic" then Some kCursorKindBasic
  else if String.eqb kind "click" then Some kCursorKindClick
  else if String.eqb kind "text" then Some kCursorKindText
  else if String.eqb kind "forbidden" then Some kCursorKindForbidden
  else None.

(** [Cursor::enable]: the result and the requests sent. *)
Definition enable (lookup : theme_lookup) (c : t) (device : Z) (kind : string)
  : bool * list request :=
  if negb (enable_ c) then
    (true, [wl_pointer_set_cursor (wl_pointer_ c) (serial c) (wl_surface_ c) 0 0;
            wl_surface_damage (wl_surface_ c) 0 0 0 0;
            wl_surface_commit (wl_surface_ c)])
  else if negb (wl_pointer_ c =? 0) then
    match cursor_name kind with
    | None => (false, [])
    | Some name =>
        match lookup (theme_ c) name with
        | None => (false, [])
        | Some cursor =>
            let cursor_buffer := buffer cursor in
            if negb (cursor_buffer =? 0) && negb (wl_surface_ c =? 0) then
              (true,
               [wl_pointer_set_cursor (wl_pointer_ c) (serial c) (wl_surface_ c)
                  (to_int32 (hotspot_x cursor)) (to_int32 (hotspot_y cursor));
                wl_surface_attach (wl_surface_ c) cursor_buffer 0 0;
                wl_surface_damage (wl_surface_ c) 0 0
                  (to_int32 (width cursor)) (to_int32 (height cursor));
                wl_surface_commit (wl_surface_ c)])
            else (false, [])
        end
    end
  else (true, []).

(** The kinds the specification enumerates. *)
Definition known_kind (kind : string) : Prop :=
  kind = "basic"%string \/ kind = "click"%string
  \/ kind = "text"%string \/ kind = "forbidden"%string.

End Cursor.

(* ================================================================== *)
(** * Concrete inputs used in examples                                 *)
(* ================================================================== *)

Module Samples.

(** An EGL implementation in which every call succeeds: display handle 7,
    version 1.5, three configs 11, 12 and 13 of buffer size 16, 24 and
    32, and distinct context handles 1, 2, 3. *)
Definition good_egl : Egl.env :=
  Egl.mk_env
    (fun _ => 7)
    (fun _ => Some (1, 5))
    true
    (fun _ => Some 3)
    (fun _ _ => Some [11; 12; 13])
    (fun _ c => Some (if c =? 11 then 16 else if c =? 12 then 24 else 32))
    (fun k _ _ _ => Z.of_nat (S k))
    (fun _ _ _ _ => true)
    (fun _ _ => true)
    (fun _ => "EGL_EXT_buffer_age EGL_KHR_partial_update"%string)
    (fun _ => 99).

(** As [good_egl], but every [eglCreateContext] fails. *)
Definition no_context_egl : Egl.env :=
  Egl.mk_env
    (fun _ => 7)
    (fun _ => Some (1, 5))
    true
    (fun _ => Some 3)
    (fun _ _ => Some [11; 12; 13])
    (fun _ c => Some (if c =? 11 then 16 else if c =? 12 then 24 else 32))
    (fun _ _ _ _ => Egl.EGL_NO_CONTEXT)
    (fun _ _ _ _ => true)
    (fun _ _ => true)
    (fun _ => "EGL_EXT_buffer_age EGL_KHR_partial_update"%string)
    (fun _ => 99).

(** As [good_egl], but [eglMakeCurrent] and [eglSwapBuffers] return
    [EGL_FALSE]. *)
Definition failing_egl : Egl.env :=
  Egl.mk_env
    (fun _ => 7)
    (fun _ => Some (1, 5))
    true
    (fun _ => Some 3)
    (fun _ _ => Some [11; 12; 13])
    (fun _ c => Some (if c =? 11 then 16 else if c =? 12 then 24 else 32))
    (fun k _ _ _ => Z.of_nat (S k))
    (fun _ _ _ _ => false)
    (fun _ _ => false)
    (fun _ => "EGL_EXT_buffer_age EGL_KHR_partial_update"%string)
    (fun _ => 99).

(** A thread on which no context is current and no call has been made. *)
Definition fresh_driver : Egl.driver := Egl.mk_driver Egl.EGL_NO_CONTEXT [].

(** An Egl object with a window surface 5 and contexts 1, 2, 3. *)
Definition egl_object : Egl.t :=
  Egl.mk 5 12 3 24 7 1 2 1 5 0 0 false.

(** A configured XdgWm whose geometry is 800x600 and whose nominal
    window size is 640x480. *)
Definition xdg_object : XdgWm.t :=
  XdgWm.mk 21 22 23 24 25 false false false false true false
           (XdgWm.mk_size 800 600) (XdgWm.mk_size 640 480).

(** A Window with a draw callback, as its constructor leaves it: surface
    31, frame callback 100 subscribed. *)
Definition framing_window : Window.world := Window.construct 31 100 true.

(** A [dispatch] call that drains 2 and 3 queued events, flushes, and
    whose [poll] times out. *)
Definition idle_dispatch : WindowManager.env :=
  WindowManager.mk_env [2; 3] 0 0 (fun _ => 0) 0 0 0.

(** A [dispatch] call with nothing to drain, a successful flush and a
    [poll] reporting readable data, after which
    [wl_display_dispatch_pending] returns -1. *)
Definition read_failure : WindowManager.env :=
  WindowManager.mk_env [] 0 0 (fun _ => 1) WindowManager.POLLIN 0 (-1).

(** A [dispatch] call whose drain loop runs once with
    [wl_display_dispatch_pending] returning -1, followed by a successful
    flush and a [poll] that times out. *)
Definition drain_failure : WindowManager.env :=
  WindowManager.mk_env [-1] 0 0 (fun _ => 0) 0 0 0.

(** A theme holding every image, each 24x24 with hot spot (4, 4) and
    buffer 77. *)
Definition full_theme : Cursor.theme_lookup :=
  fun _ _ => Some (Cursor.mk_image 4 4 24 24 77).

(** An enabled Cursor whose [wl_pointer_] is null. *)
Definition cursor_without_pointer : Cursor.t := Cursor.mk 9 0 41 42 true.

(** An enabled Cursor with pointer 40 whose [wl_surface_] is null. *)
Definition cursor_without_surface : Cursor.t := Cursor.mk 9 40 0 42 true.

End Samples.

(* ================================================================== *)
(** * Event sequences and observations                                 *)
(* ================================================================== *)

Module SeatActions.

(** An action that constructs or destroys a handler of class [d]. *)
Definition touches (d : Seat.device) (a : Seat.action) : bool :=
  match a with
  | Seat.Construct o => Seat.device_eqb d (fst o)
  | Seat.Destroy o => Seat.device_eqb d (fst o)
  end.

End SeatActions.

Module XdgTrace.

(** The pongs among the requests sent, as (xdg_wm_base, serial). *)
Fixpoint pongs (l : list XdgWm.request) : list (Z * Z) :=
  match l with
  | [] => []
  | XdgWm.xdg_wm_base_pong b s :: l' => (b, s) :: pongs l'
  | _ :: l' => pongs l'
  end.

(** The configure acknowledgements sent, as (xdg_surface, serial). *)
Fixpoint acks (l : list XdgWm.request) : list (Z * Z) :=
  match l with
  | [] => []
  | XdgWm.xdg_surface_ack_configure x s :: l' => (x, s) :: acks l'
  | _ :: l' => acks l'
  end.

(** The pings among the events received. *)
Fixpoint pings (l : list XdgWm.event) : list (Z * Z) :=
  match l with
  | [] => []
  | XdgWm.ev_ping b s :: l' => (b, s) :: pings l'
  | _ :: l' => pings l'
  end.

(** The surface-configure events received. *)
Fixpoint configures (l : list XdgWm.event) : list (Z * Z) :=
  match l with
  | [] => []
  | XdgWm.ev_surface_configure x s :: l' => (x, s) :: configures l'
  | _ :: l' => configures l'
  end.

(** A size that is either 0x0 or has two positive dimensions. *)
Definition unset_or_positive (g : XdgWm.size) : Prop :=
  (XdgWm.width g = 0 /\ XdgWm.height g = 0)
  \/ (0 < XdgWm.width g /\ 0 < XdgWm.height g).

End XdgTrace.

Module Frames.

(** What happens to a Window once constructed: [start_frames] is called
    (by the WindowManager constructor and by [create_window]), or the
    compositor fires the frame callback the Window subscribed, which runs
    [on_frame] with that callback and a timestamp. *)
Inductive op :=
| call_start_frames
| frame_done (time : Z).

Definition step (w : Window.world) (o : op) : Window.world :=
  match o with
  | call_start_frames => Window.start_frames w
  | frame_done time => Window.on_frame (Window.wl_callback_ (Window.win w)) time w
  end.

Definition run (ops : list op) (w : Window.world) : Window.world :=
  fold_left step ops w.

(** One outstanding subscription, the one [wl_callback_] names, and no
    callback destroyed twice. *)
Definition framing (w : Window.world) : Prop :=
  Window.live w = [Window.wl_callback_ (Window.win w)]
  /\ 0 < Window.wl_callback_ (Window.win w) < Window.next_callback w
  /\ Window.stale_destroys w = 0%nat.

End Frames.


(* ================================================================== *)
(** * Output  (src/window_manager/output.cc, output.h)                 *)
(* ================================================================== *)

Module Output.

(** [struct geometry]; [make] and [model] are the [const char *] values
    the event carried (the handler stores the pointers, not the text). *)
Record geometry := mk_geometry {
  x : Z;
  y : Z;
  physical_width : Z;
  physical_height : Z;
  subpixel : Z;
  make : Z;
  model : Z;
  transform : Z
}.

(** [struct mode] *)
Record mode := mk_mode {
  flags : Z;
  width : Z;
  height : Z;
  refresh : Z
}.

(** The anonymous struct [output_]. *)
Record info := mk_info {
  geometry_of : geometry;
  mode_of : mode;
  done : bool;
  scale : option Z;
  name : string;
  description : string
}.

Record t := mk {
  output_ : info;
  version_ : Z;
  wl_output_ : Z
}.

(** [Output::Output]: [output_] has no initialiser, so its plain members
    start with whatever the storage held ([g0], [m0], [d0]); the optional
    and the two strings start empty. *)
Definition construct (output version : Z) (g0 : geometry) (m0 : mode) (d0 : bool)
  : t :=
  mk (mk_info g0 m0 d0 None "" "") version output.

Definition set_info (i : info) (o : t) : t := mk i (version_ o) (wl_output_ o).

(** [Output::handle_geometry]: the whole of [output_] is assigned; the
    members not named in the initialiser are value-initialised. *)
Definition handle_geometry (g : geometry) (o : t) : t :=
  set_info (mk_info g (mk_mode 0 0 0 0) false None "" "") o.

(** [Output::handle_mode] *)
Definition handle_mode (m : mode) (o : t) : t :=
  let i := output_ o in
  set_info (mk_info (geometry_of i) m (done i) (scale i) (name i) (description i)) o.

(** [Output::handle_done] *)
Definition handle_done (o : t) : t :=
  let i := output_ o in
  set_info (mk_info (geometry_of i) (mode_of i) true (scale i) (name i)
              (description i)) o.

(** [Output::handle_scale] *)
Definition handle_scale (factor : Z) (o : t) : t :=
  let i := output_ o in
  set_info (mk_info (geometry_of i) (mode_of i) (done i) (Some factor) (name i)
              (description i)) o.

(** [Output::handle_name] *)
Definition handle_name (n : string) (o : t) : t :=
  let i := output_ o in
  set_info (mk_info (geometry_of i) (mode_of i) (done i) (scale i) n
              (description i)) o.

(** [Output::handle_description] *)
Definition handle_description (d : string) (o : t) : t :=
  let i := output_ o in
  set_info (mk_info (geometry_of i) (mode_of i) (done i) (scale i) (name i) d) o.

(** The events of [wl_output_listener]. *)
Inductive event :=
| ev_geometry (g : geometry)
| ev_mode (m : mode)
| ev_done
| ev_scale (factor : Z)
| ev_name (n : string)
| ev_description (d : string).

Definition step (o : t) (e : event) : t :=
  match e with
  | ev_geometry g => handle_geometry g o
  | ev_mode m => handle_mode m o
  | ev_done => handle_done o
  | ev_scale f => handle_scale f o
  | ev_name n => handle_name n o
  | ev_description d => handle_description d o
  end.

Definition run (events : list event) (o : t) : t := fold_left step events o.

Definition is_geometry (e : event) : bool :=
  match e with ev_geometry _ => true | _ => false end.

Definition is_done (e : event) : bool :=
  match e with ev_done => true | _ => false end.

(** The mode, scale, name and description delivered last in a sequence. *)
Fixpoint last_mode (l : list event) (m : mode) : mode :=
  match l with
  | [] => m
  | ev_mode m' :: l' => last_mode l' m'
  | _ :: l' => last_mode l' m
  end.

Fixpoint last_scale (l : list event) (s : option Z) : option Z :=
  match l with
  | [] => s
  | ev_scale f :: l' => last_scale l' (Some f)
  | _ :: l' => last_scale l' s
  end.

Fixpoint last_name (l : list event) (n : string) : string :=
  match l with
  | [] => n
  | ev_name n' :: l' => last_name l' n'
  | _ :: l' => last_name l' n
  end.

Fixpoint last_description (l : list event) (d : string) : string :=
  match l with
  | [] => d
  | ev_description d' :: l' => last_description l' d'
  | _ :: l' => last_description l' d
  end.

End Output.

(* ================================================================== *)
(** * Keyboard  (src/seat/seat.cc, keyboard.h)                         *)
(* ================================================================== *)

Module Keyboard.

(** Calls into libc, xkbcommon and GLib, with the value returned where
    there is one. *)
Inductive effect :=
| mmap (size fd result : Z)
| xkb_keymap_unref (keymap : Z)
| xkb_keymap_new_from_string (context text result : Z)
| munmap (address size : Z)
| close (fd : Z)
| xkb_state_unref (state : Z)
| xkb_state_new (keymap result : Z)
| xkb_state_update_mask (state depressed latched locked group : Z)
| g_timeout_add (interval id : Z)
| g_source_remove (id : Z).

(** The fields of [class Keyboard]. *)
Record t := mk {
  keyboard_ : Z;
  active_surface_ : Z;
  xkb_context_ : Z;
  keymap_ : Z;
  xkb_state_ : Z;
  keysym_pressed_ : Z;
  key_timeout_id_ : Z;
  key_repeat_rate_ : Z
}.

(** The Keyboard with the GLib main context it adds timers to:
    [sources] are the ids of the timeout sources that are attached,
    [next_source] the id the next [g_timeout_add] returns. *)
Record world := mk_world {
  kbd : t;
  sources : list Z;
  next_source : Z;
  trace : list effect
}.

Definition update (f : t -> t) (w : world) : world :=
  mk_world (f (kbd w)) (sources w) (next_source w) (trace w).

Definition emit (e : effect) (w : world) : world :=
  mk_world (kbd w) (sources w) (next_source w) (trace w ++ [e]).

Definition set_active_surface (s : Z) (k : t) : t :=
  mk (keyboard_ k) s (xkb_context_ k) (keymap_ k) (xkb_state_ k)
     (keysym_pressed_ k) (key_timeout_id_ k) (key_repeat_rate_ k).

Definition set_keymap (m : Z) (k : t) : t :=
  mk (keyboard_ k) (active_surface_ k) (xkb_context_ k) m (xkb_state_ k)
     (keysym_pressed_ k) (key_timeout_id_ k) (key_repeat_rate_ k).

Definition set_xkb_state (st : Z) (k : t) : t :=
  mk (keyboard_ k) (active_surface_ k) (xkb_context_ k) (keymap_ k) st
     (keysym_pressed_ k) (key_timeout_id_ k) (key_repeat_rate_ k).

Definition set_key_timeout_id (id : Z) (k : t) : t :=
  mk (keyboard_ k) (active_surface_ k) (xkb_context_ k) (keymap_ k) (xkb_state_ k)
     (keysym_pressed_ k) id (key_repeat_rate_ k).

Definition set_key_repeat_rate (r : Z) (k : t) : t :=
  mk (keyboard_ k) (active_surface_ k) (xkb_context_ k) (keymap_ k) (xkb_state_ k)
     (keysym_pressed_ k) (key_timeout_id_ k) r.

(** [static_cast<guint>] of an [int32_t]. *)
Definition to_guint (x : Z) : Z := x mod 2 ^ 32.

(** The library call [g_timeout_add]: a new source is attached. *)
Definition do_g_timeout_add (interval : Z) (w : world) : Z * world :=
  let id := next_source w in
  (id, emit (g_timeout_add interval id)
         (mk_world (kbd w) (id :: sources w) (id + 1) (trace w))).

(** The library call [g_source_remove]. *)
Definition do_g_source_remove (id : Z) (w : world) : world :=
  emit (g_source_remove id)
    (mk_world (kbd w) (filter (fun x => negb (id =? x)) (sources w))
       (next_source w) (trace w)).

(** [Keyboard::Keyboard]; [context] is what [xkb_context_new] returned. *)
Definition construct (keyboard context first_source : Z) : world :=
  mk_world (mk keyboard 0 context 0 0 0 0 0) [] first_source [].

(** [Keyboard::handle_enter] *)
Definition handle_enter (serial surface : Z) (w : world) : world :=
  update (set_active_surface surface) w.

(** [Keyboard::handle_leave]: the surface argument is not looked at. *)
Definition handle_leave (serial surface : Z) (w : world) : world :=
  update (set_active_surface 0) w.

(** [Keyboard::handle_keymap]; [mapped], [keymap] and [state] are what
    [mmap], [xkb_keymap_new_from_string] and [xkb_state_new] returned. *)
Definition handle_keymap (format fd size mapped keymap state : Z) (w : world)
  : world :=
  let w := emit (mmap size fd mapped) w in
  let w := emit (xkb_keymap_unref (keymap_ (kbd w))) w in
  let w := emit (xkb_keymap_new_from_string (xkb_context_ (kbd w)) mapped keymap) w in
  let w := update (set_keymap keymap) w in
  let w := emit (munmap mapped size) w in
  let w := emit (close fd) w in
  let w := emit (xkb_state_unref (xkb_state_ (kbd w))) w in
  let w := emit (xkb_state_new (keymap_ (kbd w)) state) w in
  update (set_xkb_state state) w.

(** [Keyboard::handle_key]: the key symbol is looked up and written to
    [std::cerr]; no field is written and nothing is requested. *)
Definition handle_key (serial time key state : Z) (w : world) : world := w.

(** [Keyboard::handle_modifiers] *)
Definition handle_modifiers (serial depressed latched locked group : Z)
           (w : world) : world :=
  emit (xkb_state_update_mask (xkb_state_ (kbd w)) depressed latched locked group) w.

(** [Keyboard::handle_repeat_info]: two timers are added, the id of the
    second one is kept. *)
Definition handle_repeat_info (rate delay : Z) (w : world) : world :=
  let '(id1, w) := do_g_timeout_add (to_guint delay) w in
  let w := update (set_key_timeout_id id1) w in
  let w := update (set_key_repeat_rate rate) w in
  let '(id2, w) := do_g_timeout_add (to_guint delay) w in
  update (set_key_timeout_id id2) w.

(** [Keyboard::handle_repeat], the timer callback, and its [gboolean]. *)
Definition handle_repeat (w : world) : bool * world :=
  if negb (key_repeat_rate_ (kbd w) =? 0) then
    let '(id, w) := do_g_timeout_add (to_guint (key_repeat_rate_ (kbd w))) w in
    (true, update (set_key_timeout_id id) w)
  else
    (false, do_g_source_remove (key_timeout_id_ (kbd w)) w).

(** GLib dispatching one attached timeout source: the callback runs, and
    the source is destroyed when the callback returns FALSE.  A source
    that is not attached does not fire. *)
Definition timer_fires (id : Z) (w : world) : world :=
  if existsb (Z.eqb id) (sources w) then
    let '(again, w) := handle_repeat w in
    if again then w
    else mk_world (kbd w) (filter (fun x => negb (id =? x)) (sources w))
           (next_source w) (trace w)
  else w.

(** The events of [wl_keyboard_listener], each with the answers of the
    libraries it calls, and the firing of a timer. *)
Inductive event :=
| ev_keymap (format fd size mapped keymap state : Z)
| ev_enter (serial surface : Z)
| ev_leave (serial surface : Z)
| ev_key (serial time key state : Z)
| ev_modifiers (serial depressed latched locked group : Z)
| ev_repeat_info (rate delay : Z)
| ev_timer (id : Z).

Definition step (w : world) (e : event) : world :=
  match e with
  | ev_keymap f fd sz p m st => handle_keymap f fd sz p m st w
  | ev_enter s sf => handle_enter s sf w
  | ev_leave s sf => handle_leave s sf w
  | ev_key s t k st => handle_key s t k st w
  | ev_modifiers s d l lk g => handle_modifiers s d l lk g w
  | ev_repeat_info r d => handle_repeat_info r d w
  | ev_timer id => timer_fires id w
  end.

Definition run (events : list event) (w : world) : world :=
  fold_left step events w.

Definition is_focus (e : event) : bool :=
  match e with ev_enter _ _ | ev_leave _ _ => true | _ => false end.

(** Every repeat-info event of the sequence carries a non-zero rate. *)
Definition repeat_stays_on (e : event) : bool :=
  match e with ev_repeat_info rate _ => negb (rate =? 0) | _ => true end.

(** Keymaps and states released, and created, in order. *)
Fixpoint keymaps_released (l : list effect) : list Z :=
  match l with
  | [] => []
  | xkb_keymap_unref m :: l' => m :: keymaps_released l'
  | _ :: l' => keymaps_released l'
  end.

Fixpoint states_released (l : list effect) : list Z :=
  match l with
  | [] => []
  | xkb_state_unref m :: l' => m :: states_released l'
  | _ :: l' => states_released l'
  end.

Fixpoint keymaps_delivered (l : list event) : list Z :=
  match l with
  | [] => []
  | ev_keymap _ _ _ _ m _ :: l' => m :: keymaps_delivered l'
  | _ :: l' => keymaps_delivered l'
  end.

Fixpoint states_delivered (l : list event) : list Z :=
  match l with
  | [] => []
  | ev_keymap _ _ _ _ _ st :: l' => st :: states_delivered l'
  | _ :: l' => states_delivered l'
  end.

(** Timers are attached only while the repeat rate is non-zero. *)
Definition timers_need_rate (w : world) : Prop :=
  sources w <> [] -> key_repeat_rate_ (kbd w) <> 0.

End Keyboard.

(* ================================================================== *)
(** * Pointer  (src/seat/pointer.cc, pointer.h, cursor.cc)             *)
(* ================================================================== *)

Module Pointer.

Definition kCursorSize : Z := 24.

(** Answers of libwayland and of the cursor-theme loader. *)
Record env := mk_env {
  wl_compositor_create_surface : Z -> Z;
  wl_cursor_theme_load : string -> Z -> Z -> Z;
  theme : Cursor.theme_lookup
}.

(** The fields of [class Pointer].  [cursor_] holds the fields of the
    owned Cursor other than its back pointer [parent_]. *)
Record t := mk {
  pointer_ : Z;
  shm_ : Z;
  enable_cursor_ : bool;
  cursor_ : option Cursor.t;
  serial_ : Z
}.


(** [Cursor::Cursor]; [theme_] has no initialiser and is assigned only
    when [enable] is set, otherwise it keeps what the storage held. *)
Definition new_cursor (E : env) (pointer shm compositor : Z) (enable : bool)
           (theme_name : string) (garbage : Z) : Cursor.t :=
  Cursor.mk 0 pointer (wl_compositor_create_surface E compositor)
    (if enable then wl_cursor_theme_load E theme_name kCursorSize shm else garbage)
    enable.

(** [Pointer::Pointer], with the requests its [cursor_->enable(0, "basic")]
    sends; the result of that call is dropped. *)
Definition construct (E : env) (pointer shm compositor : Z) (enable_cursor : bool)
           (garbage : Z) : t * list Cursor.request :=
  if enable_cursor then
    let c := new_cursor E pointer shm compositor enable_cursor "DMZ-White" garbage in
    (mk pointer shm enable_cursor (Some c) 0,
     snd (Cursor.enable (theme E) c 0 "basic"))
  else (mk pointer shm enable_cursor None 0, []).

(** The events of [wl_pointer_listener].  Every handler only writes a
    line to [std::cerr]; [handle_button] compares its arguments and does
    nothing with the outcome. *)
Inductive event :=
| ev_enter (serial surface sx sy : Z)
| ev_leave (serial surface : Z)
| ev_motion (time sx sy : Z)
| ev_button (serial time button state : Z)
| ev_axis (time axis value : Z)
| ev_frame
| ev_axis_source (axis_source : Z)
| ev_axis_stop (time axis : Z)
| ev_axis_discrete (axis discrete : Z).

Definition handle_enter (serial surface sx sy : Z) (p : t) : t := p.
Definition handle_leave (serial surface : Z) (p : t) : t := p.
Definition handle_motion (time sx sy : Z) (p : t) : t := p.
Definition handle_button (serial time button state : Z) (p : t) : t := p.
Definition handle_axis (time axis value : Z) (p : t) : t := p.
Definition handle_frame (p : t) : t := p.
Definition handle_axis_source (axis_source : Z) (p : t) : t := p.
Definition handle_axis_stop (time axis : Z) (p : t) : t := p.
Definition handle_axis_discrete (axis discrete : Z) (p : t) : t := p.

Definition step (p : t) (e : event) : t :=
  match e with
  | ev_enter s sf x y => handle_enter s sf x y p
  | ev_leave s sf => handle_leave s sf p
  | ev_motion t x y => handle_motion t x y p
  | ev_button s t b st => handle_button s t b st p
  | ev_axis t a v => handle_axis t a v p
  | ev_frame => handle_frame p
  | ev_axis_source a => handle_axis_source a p
  | ev_axis_stop t a => handle_axis_stop t a p
  | ev_axis_discrete a d => handle_axis_discrete a d p
  end.

Definition run (events : list event) (p : t) : t := fold_left step events p.


(** Two's-complement [int]. *)
Definition int (x : Z) : Z := (x + 2 ^ 31) mod 2 ^ 32 - 2 ^ 31.

(** [component_edge] of pointer.cc. *)
Definition component_edge (width height pointer_x pointer_y margin : Z) : Z :=
  let top := pointer_y <? margin in
  let bottom := int (height - margin) <? pointer_y in
  let left := pointer_x <? margin in
  let right := int (width - margin) <? pointer_x in
  if top then
    if left then XdgWm.XDG_TOPLEVEL_RESIZE_EDGE_TOP_LEFT
    else if right then XdgWm.XDG_TOPLEVEL_RESIZE_EDGE_TOP_RIGHT
    else XdgWm.XDG_TOPLEVEL_RESIZE_EDGE_TOP
  else if bottom then
    if left then XdgWm.XDG_TOPLEVEL_RESIZE_EDGE_BOTTOM_LEFT
    else if right then XdgWm.XDG_TOPLEVEL_RESIZE_EDGE_BOTTOM_RIGHT
    else XdgWm.XDG_TOPLEVEL_RESIZE_EDGE_BOTTOM
  else if left then XdgWm.XDG_TOPLEVEL_RESIZE_EDGE_LEFT
  else if right then XdgWm.XDG_TOPLEVEL_RESIZE_EDGE_RIGHT
  else XdgWm.XDG_TOPLEVEL_RESIZE_EDGE_NONE.

(** The subtraction does not overflow an [int]. *)
Definition fits (x : Z) : Prop := - 2 ^ 31 <= x <= 2 ^ 31 - 1.

End Pointer.

(* ================================================================== *)
(** * Display  (src/window_manager/display.cc, display.h)              *)
(* ================================================================== *)

Module Display.

(** [enum wl_shm_format] *)
Definition WL_SHM_FORMAT_XRGB8888 : Z := 1.

(** Answers of libwayland, and the contents of the storage a new Output
    object is built in. *)
Record env := mk_env {
  wl_registry_bind : Z -> Z -> string -> Z -> Z;
  storage_geometry : Output.geometry;
  storage_mode : Output.mode;
  storage_done : bool
}.

(** A Seat object as [Seat::Seat] builds it: the constructor arguments it
    stores, and no handler yet. *)
Record seat := mk_seat {
  wl_seat_ : Z;
  seat_wl_shm_ : Z;
  seat_wl_compositor_ : Z;
  seat_enable_cursor_ : bool;
  seat_version_ : Z;
  handlers : Seat.t
}.

(** What the Display does: bind requests, and calls of the registered
    registrar callbacks with the arguments passed. *)
Inductive effect :=
| bound (registry name : Z) (interface : string) (version : Z)
| callback (id : nat) (data registry name : Z) (interface : string) (version : Z).

(** The fields of [class Display]; a [std::map] is a list of key-value
    pairs with distinct keys, a registrar callback is known by a number. *)
Record t := mk {
  wl_compositor_ : Z;
  compositor_version_ : Z;
  wl_subcompositor_ : Z;
  subcompositor_version_ : Z;
  wl_display_ : Z;
  wl_registry_ : Z;
  wl_shm_ : Z;
  context_ : Z;
  enable_cursor_ : bool;
  wl_outputs_ : list (Z * Output.t);
  wl_seats_ : list (Z * seat);
  has_xrgb_ : bool;
  buffer_scaling_enabled_ : option bool;
  callbacks_ : list (nat * Z)
}.

Record world := mk_world { dpy : t; trace : list effect }.

Definition emit (e : effect) (w : world) : world :=
  mk_world (dpy w) (trace w ++ [e]).

Definition update (f : t -> t) (w : world) : world :=
  mk_world (f (dpy w)) (trace w).

(** [map[key] = value]: the entry is replaced if the key is present.  (The
    destructor of a replaced object is not modelled.) *)
Definition map_set {A} (key : Z) (value : A) (m : list (Z * A)) : list (Z * A) :=
  (key, value) :: filter (fun kv => negb (key =? fst kv)) m.

Fixpoint lookup {A} (key : Z) (m : list (Z * A)) : option A :=
  match m with
  | [] => None
  | (k, v) :: m' => if key =? k then Some v else lookup key m'
  end.

Definition set_compositor (proxy version : Z) (d : t) : t :=
  mk proxy version (wl_subcompositor_ d) (subcompositor_version_ d)
     (wl_display_ d) (wl_registry_ d) (wl_shm_ d) (context_ d) (enable_cursor_ d)
     (wl_outputs_ d) (wl_seats_ d) (has_xrgb_ d) (Some (3 <=? version))
     (callbacks_ d).

Definition set_subcompositor (proxy version : Z) (d : t) : t :=
  mk (wl_compositor_ d) (compositor_version_ d) proxy version
     (wl_display_ d) (wl_registry_ d) (wl_shm_ d) (context_ d) (enable_cursor_ d)
     (wl_outputs_ d) (wl_seats_ d) (has_xrgb_ d) (buffer_scaling_enabled_ d)
     (callbacks_ d).

Definition set_shm (proxy : Z) (d : t) : t :=
  mk (wl_compositor_ d) (compositor_version_ d) (wl_subcompositor_ d)
     (subcompositor_version_ d) (wl_display_ d) (wl_registry_ d) proxy
     (context_ d) (enable_cursor_ d) (wl_outputs_ d) (wl_seats_ d) (has_xrgb_ d)
     (buffer_scaling_enabled_ d) (callbacks_ d).

Definition set_outputs (m : list (Z * Output.t)) (d : t) : t :=
  mk (wl_compositor_ d) (compositor_version_ d) (wl_subcompositor_ d)
     (subcompositor_version_ d) (wl_display_ d) (wl_registry_ d) (wl_shm_ d)
     (context_ d) (enable_cursor_ d) m (wl_seats_ d) (has_xrgb_ d)
     (buffer_scaling_enabled_ d) (callbacks_ d).

Definition set_seats (m : list (Z * seat)) (d : t) : t :=
  mk (wl_compositor_ d) (compositor_version_ d) (wl_subcompositor_ d)
     (subcompositor_version_ d) (wl_display_ d) (wl_registry_ d) (wl_shm_ d)
     (context_ d) (enable_cursor_ d) (wl_outputs_ d) m (has_xrgb_ d)
     (buffer_scaling_enabled_ d) (callbacks_ d).

Definition set_has_xrgb (b : bool) (d : t) : t :=
  mk (wl_compositor_ d) (compositor_version_ d) (wl_subcompositor_ d)
     (subcompositor_version_ d) (wl_display_ d) (wl_registry_ d) (wl_shm_ d)
     (context_ d) (enable_cursor_ d) (wl_outputs_ d) (wl_seats_ d) b
     (buffer_scaling_enabled_ d) (callbacks_ d).

Definition set_callbacks (c : list (nat * Z)) (d : t) : t :=
  mk (wl_compositor_ d) (compositor_version_ d) (wl_subcompositor_ d)
     (subcompositor_version_ d) (wl_display_ d) (wl_registry_ d) (wl_shm_ d)
     (context_ d) (enable_cursor_ d) (wl_outputs_ d) (wl_seats_ d) (has_xrgb_ d)
     (buffer_scaling_enabled_ d) c.

(** [Display::Display] once [wl_display_connect] has returned [display]
    and [wl_display_get_registry] has returned [registry]; [None] is the
    [exit(EXIT_FAILURE)] taken when the connection failed. *)
Definition construct (display registry context : Z) (enable_cursor : bool)
  : option world :=
  if display =? 0 then None
  else Some (mk_world (mk 0 0 0 0 display registry 0 context enable_cursor
                         [] [] false None []) []).

(** One bind, as each branch of [registry_handle_global] performs it. *)
Definition bind (E : env) (registry name : Z) (interface : string)
           (ceiling version : Z) (w : world) : Z * world :=
  let v := Z.min ceiling version in
  (wl_registry_bind E registry name interface v,
   emit (bound registry name interface v) w).

(** The loop over [callbacks_] that ends [registry_handle_global]. *)
Definition notify (registry name : Z) (interface : string) (version : Z)
           (w : world) : world :=
  fold_left (fun acc cb =>
               emit (callback (fst cb) (snd cb) registry name interface version) acc)
            (callbacks_ (dpy w)) w.

(** [Display::registry_handle_global] *)
Definition registry_handle_global (E : env) (registry name : Z)
           (interface : string) (version : Z) (w : world) : world :=
  let w :=
    if String.eqb interface "wl_compositor" then
      let '(proxy, w) := bind E registry name interface 1 version w in
      update (set_compositor proxy version) w
    else if String.eqb interface "wl_subcompositor" then
      let '(proxy, w) := bind E registry name interface 1 version w in
      update (set_subcompositor proxy version) w
    else if String.eqb interface "wl_shm" then
      let '(proxy, w) := bind E registry name interface 1 version w in
      update (set_shm proxy) w
    else if String.eqb interface "wl_output" then
      let '(output, w) := bind E registry name interface 2 version w in
      update (fun d =>
                set_outputs
                  (map_set output
                     (Output.construct output version (storage_geometry E)
                        (storage_mode E) (storage_done E))
                     (wl_outputs_ d)) d) w
    else if String.eqb interface "wl_seat" then
      let '(seat_proxy, w) := bind E registry name interface 5 version w in
      update (fun d =>
                set_seats
                  (map_set seat_proxy
                     (mk_seat seat_proxy (wl_shm_ d) (wl_compositor_ d)
                        (enable_cursor_ d) version Seat.init)
                     (wl_seats_ d)) d) w
    else w in
  notify registry name interface version w.

(** [Display::registry_handle_global_remove]: empty body. *)
Definition registry_handle_global_remove (id : Z) (w : world) : world := w.

(** [Display::shm_format] *)
Definition shm_format (format : Z) (w : world) : world :=
  if format =? WL_SHM_FORMAT_XRGB8888 then update (set_has_xrgb true) w else w.

(** [Display::add_registrar_callback] *)
Definition add_registrar_callback (id : nat) (data : Z) (w : world) : world :=
  update (fun d => set_callbacks (callbacks_ d ++ [(id, data)]) d) w.

(** The registry and shm events and the public method. *)
Inductive op :=
| ev_global (registry name : Z) (interface : string) (version : Z)
| ev_global_remove (id : Z)
| ev_shm_format (format : Z)
| call_add_registrar_callback (id : nat) (data : Z).

Definition step (E : env) (w : world) (o : op) : world :=
  match o with
  | ev_global r n i v => registry_handle_global E r n i v w
  | ev_global_remove id => registry_handle_global_remove id w
  | ev_shm_format f => shm_format f w
  | call_add_registrar_callback id data => add_registrar_callback id data w
  end.

Definition run (E : env) (ops : list op) (w : world) : world :=
  fold_left (step E) ops w.

(** The hard-coded version ceiling of each interface the Display binds. *)
Definition ceiling (interface : string) : option Z :=
  if String.eqb interface "wl_compositor" then Some 1
  else if String.eqb interface "wl_subcompositor" then Some 1
  else if String.eqb interface "wl_shm" then Some 1
  else if String.eqb interface "wl_output" then Some 2
  else if String.eqb interface "wl_seat" then Some 5
  else None.

(** The bind requests a sequence of events calls for. *)
Fixpoint expected_binds (ops : list op) : list effect :=
  match ops with
  | [] => []
  | ev_global r n i v :: l =>
      match ceiling i with
      | Some c => bound r n i (Z.min c v) :: expected_binds l
      | None => expected_binds l
      end
  | _ :: l => expected_binds l
  end.

(** The callback invocations a sequence calls for, given the callbacks
    registered so far: each global reaches the callbacks registered before
    it, in registration order. *)
Fixpoint expected_calls (ops : list op) (registered : list (nat * Z))
  : list effect :=
  match ops with
  | [] => []
  | ev_global r n i v :: l =>
      map (fun cb => callback (fst cb) (snd cb) r n i v) registered
      ++ expected_calls l registered
  | call_add_registrar_callback id data :: l =>
      expected_calls l (registered ++ [(id, data)])
  | _ :: l => expected_calls l registered
  end.

Definition is_bound (e : effect) : bool :=
  match e with bound _ _ _ _ => true | callback _ _ _ _ _ _ => false end.

Definition is_xrgb (o : op) : bool :=
  match o with
  | ev_shm_format f => f =? WL_SHM_FORMAT_XRGB8888
  | _ => false
  end.

Definition announces (interface : string) (o : op) : bool :=
  match o with
  | ev_global _ _ i _ => String.eqb i interface
  | _ => false
  end.

End Display.

(* ================================================================== *)
(** * WindowEgl  (src/window/window_egl.cc, window_egl.h)              *)
(* ================================================================== *)

Module WindowEgl.

(** Answers of EGL and of libwayland-egl. *)
Record env := mk_env {
  egl : Egl.env;
  wl_egl_window_create : Z -> Z -> Z -> Z;
  eglCreatePlatformWindowSurfaceEXT : Z -> Z -> Z -> Z;
  eglCreateWindowSurface : Z -> Z -> Z -> Z
}.

(** A WindowEgl object: its [Egl] base and [egl_window_]. *)
Record t := mk {
  base : Egl.t;
  egl_window_ : Z
}.

Definition set_egl_surface (surface : Z) (e : Egl.t) : Egl.t :=
  Egl.mk surface (Egl.config_ e) (Egl.texture_context_ e) (Egl.buffer_size_ e)
    (Egl.dpy_ e) (Egl.context_ e) (Egl.resource_context_ e) (Egl.major_ e)
    (Egl.minor_ e) (Egl.pfSwapBufferWithDamage_ e) (Egl.pfSetDamageRegion_ e)
    (Egl.has_egl_ext_buffer_age_ e).

Inductive outcome :=
| Threw (what : string)
| Constructed (w : t) (d : Egl.driver).

(** [WindowEgl::WindowEgl].  The compositor, shell type and draw callback
    arguments are not used.  [egl_window_] and [egl_surface_] are null when
    the body starts, so its two destroy-if-set statements do nothing. *)
Definition construct (E : env) (display surface width height : Z)
           (d0 : Egl.driver) : outcome :=
  match Egl.construct (egl E) display d0 with
  | Egl.Threw what => Threw what
  | Egl.Constructed e d =>
      let window := wl_egl_window_create E surface width height in
      let create_platform_window :=
        Egl.eglGetProcAddress (egl E) "eglCreatePlatformWindowSurfaceEXT" in
      let egl_surface :=
        if negb (create_platform_window =? 0)
        then eglCreatePlatformWindowSurfaceEXT E (Egl.dpy_ e) (Egl.config_ e) window
        else eglCreateWindowSurface E (Egl.dpy_ e) (Egl.config_ e) window in
      Constructed (mk (set_egl_surface egl_surface e) window) d
  end.

End WindowEgl.

(* ================================================================== *)
(** * WindowManager: construction and windows  (window_manager.cc)     *)
(* ================================================================== *)

Module Manager.

(** [Window::ShellType] and [WindowManager::WindowType] *)
Inductive shell_type := AGL | IVI | XDG | NONE.
Inductive window_type := EGL | VULKAN.

Definition is_xdg (s : shell_type) : bool :=
  match s with XDG => true | _ => false end.

(** Answers of libwayland. *)
Record env := mk_env {
  wayland : Display.env;
  shell : XdgWm.env;
  wl_compositor_create_surface : Z -> Z;
  first_callback : Z
}.

(** The parts of a WindowManager: its [Display] base, its [Window] base,
    [xdg_wm_], [shell_type_], [windows_], and the EGL state of the thread. *)
Record t := mk {
  display : Display.world;
  window : Window.world;
  xdg_wm_ : option XdgWm.world;
  shell_type_ : shell_type;
  windows_ : list WindowEgl.t;
  thread : Egl.driver
}.

(** An event that one [wl_display_dispatch] delivers, by the object whose
    listener receives it: the Display's registry or shm, the XdgWm's
    registry, shell base, surface or toplevel, or the frame callback of
    the base Window. *)
Inductive delivery :=
| to_display (o : Display.op)
| to_xdg_wm (e : XdgWm.event)
| to_frame (time : Z).

Definition deliver (E : env) (m : t) (d : delivery) : t :=
  match d with
  | to_display o =>
      mk (Display.step (wayland E) (display m) o) (window m) (xdg_wm_ m)
         (shell_type_ m) (windows_ m) (thread m)
  | to_xdg_wm e =>
      mk (display m) (window m)
         (match xdg_wm_ m with
          | Some x => Some (XdgWm.step (shell E) x e)
          | None => None
          end)
         (shell_type_ m) (windows_ m) (thread m)
  | to_frame time =>
      mk (display m) (Frames.step (window m) (Frames.frame_done time)) (xdg_wm_ m)
         (shell_type_ m) (windows_ m) (thread m)
  end.

(** [wl_display_dispatch]: the events of one batch, in order. *)
Definition wl_display_dispatch (E : env) (batch : list delivery) (m : t) : t :=
  fold_left (deliver E) batch m.

Definition waiting (m : t) : bool :=
  match xdg_wm_ m with
  | Some x => XdgWm.wait_for_configure_ (XdgWm.obj x)
  | None => false
  end.

(** The loop [while (xdg_wm_->get_wait_for_configure())
    wl_display_dispatch(wl_display_);].  [batches] is what the successive
    dispatches will deliver; when they run out while the flag is still
    set the loop never ends, which is the result [None].  Otherwise the
    result holds the batches left undelivered. *)
Fixpoint wait_for_configure (E : env) (batches : list (list delivery)) (m : t)
  : option (t * list (list delivery)) :=
  if waiting m then
    match batches with
    | [] => None
    | b :: rest => wait_for_configure E rest (wl_display_dispatch E b m)
    end
  else Some (m, batches).

Definition set_window (w : Window.world) (m : t) : t :=
  mk (display m) w (xdg_wm_ m) (shell_type_ m) (windows_ m) (thread m).

Inductive startup :=
| Exited
| Blocked
| Started (m : t) (undelivered : list (list delivery)).

(** [WindowManager::WindowManager].  [connection] and [registry] are what
    [wl_display_connect] and [wl_display_get_registry] returned,
    [roundtrip] the events delivered by the round trip of the Display
    constructor, [batches] those of the later dispatches. *)
Definition construct (E : env) (shell_kind : shell_type) (context : Z)
           (enable_cursor : bool) (connection registry : Z)
           (roundtrip : list Display.op) (batches : list (list delivery))
           (d0 : Egl.driver) : startup :=
  match Display.construct connection registry context enable_cursor with
  | None => Exited
  | Some dw =>
      let dw := Display.run (wayland E) roundtrip dw in
      let surface :=
        wl_compositor_create_surface E (Display.wl_compositor_ (Display.dpy dw)) in
      let base := Window.construct surface (first_callback E) true in
      let waited :=
        if is_xdg shell_kind then
          let x := XdgWm.construct (shell E)
                     (Display.wl_display_ (Display.dpy dw)) surface in
          wait_for_configure E batches
            (mk dw base (Some x) shell_kind [] d0)
        else Some (mk dw base None shell_kind [] d0, batches) in
      match waited with
      | None => Blocked
      | Some (m, rest) => Started (set_window (Window.start_frames (window m)) m) rest
      end
  end.

Inductive created :=
| Raised (what : string)
| Returned (result : option WindowEgl.t) (m : t).

(** [WindowManager::create_window].  [G] holds the answers of EGL during
    the call, [draw_callback] stands for the caller's callback.  An
    exception thrown while the WindowEgl is built leaves the function at
    once. *)
Definition create_window (G : WindowEgl.env) (width height : Z)
           (kind : window_type) (draw_callback : nat) (m : t) : created :=
  match kind with
  | EGL =>
      match WindowEgl.construct G
              (Display.wl_display_ (Display.dpy (display m)))
              (Window.wl_surface_ (Window.win (window m))) width height
              (thread m) with
      | WindowEgl.Threw what => Raised what
      | WindowEgl.Constructed w d =>
          Returned (Some w)
            (mk (display m) (Window.start_frames (window m)) (xdg_wm_ m)
               (shell_type_ m) (windows_ m ++ [w]) d)
      end
  | VULKAN =>
      Returned None (set_window (Window.start_frames (window m)) m)
  end.

(** One [create_window] call: the answers of EGL during it, and its
    arguments. *)
Record request := mk_request {
  answers : WindowEgl.env;
  width : Z;
  height : Z;
  kind : window_type;
  draw_callback : nat
}.

(** Successive [create_window] calls; [None] when one of them throws,
    otherwise the values returned and the final state. *)
Fixpoint create_windows (requests : list request) (m : t)
  : option (list (option WindowEgl.t) * t) :=
  match requests with
  | [] => Some ([], m)
  | r :: rest =>
      match create_window (answers r) (width r) (height r) (kind r)
              (draw_callback r) m with
      | Raised _ => None
      | Returned result m' =>
          match create_windows rest m' with
          | None => None
          | Some (results, m'') => Some (result :: results, m'')
          end
      end
  end.

Definition is_egl (r : request) : bool :=
  match kind r with EGL => true | VULKAN => false end.

Definition is_window (r : option WindowEgl.t) : bool :=
  match r with Some _ => true | None => false end.

(** The non-null results among the values returned. *)
Fixpoint non_null (l : list (option WindowEgl.t)) : list WindowEgl.t :=
  match l with
  | [] => []
  | Some w :: l' => w :: non_null l'
  | None :: l' => non_null l'
  end.

Definition with_callback (f : nat) (r : request) : request :=
  mk_request (answers r) (width r) (height r) (kind r) f.

Definition configures (d : delivery) : bool :=
  match d with
  | to_xdg_wm e => XdgWm.is_surface_configure e
  | _ => false
  end.

(** The events of a batch by receiver. *)
Fixpoint display_ops (l : list delivery) : list Display.op :=
  match l with
  | [] => []
  | to_display o :: l' => o :: display_ops l'
  | _ :: l' => display_ops l'
  end.

Fixpoint xdg_events (l : list delivery) : list XdgWm.event :=
  match l with
  | [] => []
  | to_xdg_wm e :: l' => e :: xdg_events l'
  | _ :: l' => xdg_events l'
  end.

Fixpoint frame_ops (l : list delivery) : list Frames.op :=
  match l with
  | [] => []
  | to_frame time :: l' => Frames.frame_done time :: frame_ops l'
  | _ :: l' => frame_ops l'
  end.

End Manager.

Module Fixtures.

(** An EGL implementation whose only configs, 11 and 12, have buffer
    sizes 16 and 8; every call succeeds. *)
Definition shallow_egl : Egl.env :=
  Egl.mk_env
    (fun _ => 7)
    (fun _ => Some (1, 5))
    true
    (fun _ => Some 2)
    (fun _ _ => Some [11; 12])
    (fun _ c => Some (if c =? 11 then 16 else 8))
    (fun k _ _ _ => Z.of_nat (S k))
    (fun _ _ _ _ => true)
    (fun _ _ => true)
    (fun _ => ""%string)
    (fun _ => 0).

(** A thread on which context 9 of some other library is current. *)
Definition busy_driver : Egl.driver := Egl.mk_driver 9 [].

(** A compositor connection whose every bind returns proxy 500, and a
    Display just connected to it: display 91, registry 90, cursor on. *)
Definition plain_wayland : Display.env :=
  Display.mk_env (fun _ _ _ _ => 500)
    (Output.mk_geometry 0 0 0 0 0 0 0 0) (Output.mk_mode 0 0 0 0) false.

Definition connected_display : Display.world :=
  Display.mk_world
    (Display.mk 0 0 0 0 91 90 0 0 true [] [] false None []) [].

(** A compositor whose surfaces are all 31 and whose first frame callback
    is 100; XdgWm proxies are 60, 61, 62 and 63. *)
Definition desk : Manager.env :=
  Manager.mk_env plain_wayland
    (XdgWm.mk_env (fun _ => 60) (fun _ _ _ => 61) (fun _ _ => 62) (fun _ => 63))
    (fun _ => 31) 100.

(** The events of a start-up: the shell global, then a toplevel-configure
    and a ping, then a frame and the surface-configure, then one more
    batch. *)
Definition startup_batches : list (list Manager.delivery) :=
  [[Manager.to_xdg_wm (XdgWm.ev_registry_global 60 3 "xdg_wm_base" 4)];
   [Manager.to_xdg_wm (XdgWm.ev_toplevel_configure 640 480 []);
    Manager.to_xdg_wm (XdgWm.ev_ping 61 8)];
   [Manager.to_frame 16;
    Manager.to_xdg_wm (XdgWm.ev_surface_configure 62 9)];
   [Manager.to_frame 33]].

(** EGL answers for a window: [shallow_egl], window 70, surface 71. *)
Definition window_answers : WindowEgl.env :=
  WindowEgl.mk_env shallow_egl (fun _ _ _ => 70) (fun _ _ _ => 71) (fun _ _ _ => 72).

(** A started manager without shell. *)
Definition plain_manager : Manager.t :=
  Manager.mk connected_display (Window.construct 31 100 true) None Manager.NONE []
    busy_driver.

Definition three_requests : list Manager.request :=
  [Manager.mk_request window_answers 640 480 Manager.EGL 1;
   Manager.mk_request window_answers 320 240 Manager.VULKAN 2;
   Manager.mk_request window_answers 800 600 Manager.EGL 3].

End Fixtures.

(* ================================================================== *)
(** * Properties                                                       *)
(* ================================================================== *)

(** ** Seat: handlers follow the capability mask *)

Section SeatFacts.
Import Seat.

Lemma land_pow2_testbit a n :
  0 <= n -> negb (Z.land a (2 ^ n) =? 0) = Z.testbit a n.
Proof.
  intros Hn. destruct (Z.testbit a n) eqn:T.
  - apply negb_true_iff, Z.eqb_neq. intros H0.
    assert (B : Z.testbit (Z.land a (2 ^ n)) n = true)
      by (rewrite Z.land_spec, T, Z.pow2_bits_true by assumption; reflexivity).
    rewrite H0, Z.bits_0 in B. discriminate.
  - apply negb_false_iff, Z.eqb_eq. apply Z.bits_inj'. intros m Hm.
    rewrite Z.land_spec, Z.bits_0, Z.pow2_bits_eqb by assumption.
    destruct (Z.eqb_spec n m) as [->|]; [rewrite T; reflexivity|].
    apply andb_false_r.
Qed.

(** The C test [caps & WL_SEAT_CAPABILITY_x] reads bit 0, 1 or 2 of the mask. *)
Lemma has_cap_testbit caps d :
  has_cap caps d =
  Z.testbit caps (match d with Pointer => 0 | Keyboard => 1 | Touch => 2 end).
Proof.
  unfold has_cap.
  destruct d; simpl capability.
  - apply (land_pow2_testbit caps 0). lia.
  - apply (land_pow2_testbit caps 1). lia.
  - apply (land_pow2_testbit caps 2). lia.
Qed.

Lemma device_eqb_refl d : device_eqb d d = true.
Proof. destruct d; reflexivity. Qed.

Lemma device_eqb_eq a b : device_eqb a b = true <-> a = b.
Proof. destruct a, b; simpl; split; congruence. Qed.

Lemma of_kind_remove_same d id l :
  of_kind d l = [(d, id)] -> of_kind d (remove_object (d, id) l) = [].
Proof.
  unfold of_kind, remove_object.
  induction l as [|[k n] l IH]; simpl; intros H; [reflexivity|].
  unfold object_eqb at 1; simpl.
  destruct (device_eqb d k) eqn:E; simpl.
  - apply device_eqb_eq in E; subst k.
    injection H as Hn Hl; subst n.
    rewrite Nat.eqb_refl; simpl.
    clear IH. induction l as [|[k n] l IH]; simpl in *; [reflexivity|].
    destruct (negb (object_eqb (d, id) (k, n))); simpl.
    + destruct (device_eqb d k); [discriminate|auto].
    + destruct (device_eqb d k); [discriminate|auto].
  - rewrite E. auto.
Qed.

Lemma of_kind_remove_other d d' id l :
  d' <> d -> of_kind d' (remove_object (d, id) l) = of_kind d' l.
Proof.
  intros Hne. unfold of_kind, remove_object.
  induction l as [|[k n] l IH]; simpl; [reflexivity|].
  unfold object_eqb at 1; simpl.
  destruct (device_eqb d k) eqn:E; simpl.
  - apply device_eqb_eq in E; subst k.
    destruct (Nat.eqb id n); simpl.
    + rewrite IH. destruct (device_eqb d' d) eqn:E'; [|reflexivity].
      apply device_eqb_eq in E'. contradiction.
    + rewrite IH. reflexivity.
  - rewrite IH. reflexivity.
Qed.

Lemma slot_set_slot_same d v s : slot d (set_slot d v s) = v.
Proof. destruct d; reflexivity. Qed.

Lemma slot_set_slot_other d d' v s :
  d' <> d -> slot d' (set_slot d v s) = slot d' s.
Proof. destruct d, d'; simpl; congruence. Qed.

Lemma live_set_slot d v s : live (set_slot d v s) = live s.
Proof. destruct d; reflexivity. Qed.

Lemma capabilities_set_slot d v s :
  capabilities_ (set_slot d v s) = capabilities_ s.
Proof. destruct d; reflexivity. Qed.

Lemma slot_set_heap d l n s : slot d (set_heap l n s) = slot d s.
Proof. destruct d; reflexivity. Qed.

(** What one [if / else if] block does to a well-formed Seat. *)
Lemma update_device_spec caps d s :
  seat_wf s ->
  let s' := fst (update_device caps d s) in
  let acts := snd (update_device caps d s) in
  seat_wf s'
  /\ is_set (slot d s') = has_cap caps d
  /\ (forall d', d' <> d -> slot d' s' = slot d' s)
  /\ capabilities_ s' = capabilities_ s
  /\ (forall d', existsb (constructs d') acts = true ->
                 d' = d /\ slot d s = None)
  /\ (List.length (filter (constructs d) acts) <= 1)%nat.
Proof.
  intros Hwf. unfold update_device.
  destruct (has_cap caps d) eqn:Hc, (slot d s) as [old|] eqn:Hs; simpl.
  - (* capability present, handler present: nothing to do *)
    rewrite Hs. simpl. repeat split; auto; discriminate.
  - (* capability present, no handler: construct *)
    unfold assign_new. rewrite Hs. simpl.
    rewrite slot_set_slot_same. simpl.
    repeat split.
    + intros d'. rewrite live_set_slot. simpl.
      destruct (device_eqb d' d) eqn:E.
      * apply device_eqb_eq in E; subst d'.
        rewrite slot_set_slot_same. simpl.
        f_equal. fold (of_kind d (live s)).
        rewrite (Hwf d), Hs. reflexivity.
      * assert (d' <> d) by (intros ->; rewrite device_eqb_refl in E; discriminate).
        rewrite slot_set_slot_other by assumption.
        rewrite slot_set_heap.
        apply Hwf.
    + intros d' Hne. rewrite slot_set_slot_other by assumption.
      apply slot_set_heap.
    + rewrite capabilities_set_slot. reflexivity.
    + rewrite orb_false_r in H. apply device_eqb_eq in H. assumption.
    + rewrite device_eqb_refl. simpl. lia.
  - (* capability absent, handler present: destroy *)
    unfold reset. rewrite Hs. simpl.
    rewrite slot_set_slot_same. simpl.
    repeat split.
    + intros d'. rewrite live_set_slot. simpl.
      destruct (device_eqb d' d) eqn:E.
      * apply device_eqb_eq in E; subst d'.
        rewrite slot_set_slot_same.
        apply of_kind_remove_same. rewrite (Hwf d), Hs. reflexivity.
      * assert (d' <> d) by (intros ->; rewrite device_eqb_refl in E; discriminate).
        rewrite slot_set_slot_other by assumption.
        rewrite slot_set_heap.
        rewrite of_kind_remove_other by assumption. apply Hwf.
    + intros d' Hne. rewrite slot_set_slot_other by assumption.
      apply slot_set_heap.
    + rewrite capabilities_set_slot. reflexivity.
    + discriminate.
    + discriminate.
    + simpl. lia.
  - (* capability absent, no handler: nothing to do *)
    rewrite Hs. simpl. repeat split; auto; discriminate.
Qed.

Lemma existsb_app_true {A} (f : A -> bool) l1 l2 :
  existsb f (l1 ++ l2) = true -> existsb f l1 = true \/ existsb f l2 = true.
Proof. rewrite existsb_app. apply orb_true_iff. Qed.

Lemma handle_capabilities_spec caps s :
  seat_wf s ->
  let s' := fst (handle_capabilities caps s) in
  let acts := snd (handle_capabilities caps s) in
  seat_wf s'
  /\ capabilities_ s' = caps
  /\ (forall d, is_set (slot d s') = has_cap caps d)
  /\ (forall d, existsb (constructs d) acts = true -> slot d s = None)
  /\ (forall d, List.length (filter (constructs d) acts) <= 1)%nat.
Proof.
  intros Hwf. unfold handle_capabilities.
  assert (Hwf0 : seat_wf (set_capabilities caps s)) by exact Hwf.
  pose proof (update_device_spec caps Pointer _ Hwf0) as HP.
  destruct (update_device caps Pointer (set_capabilities caps s)) as [s1 a1].
  simpl in HP. destruct HP as (W1 & P1 & O1 & C1 & K1 & N1).
  pose proof (update_device_spec caps Keyboard _ W1) as HK.
  destruct (update_device caps Keyboard s1) as [s2 a2].
  simpl in HK. destruct HK as (W2 & P2 & O2 & C2 & K2 & N2).
  pose proof (update_device_spec caps Touch _ W2) as HT.
  destruct (update_device caps Touch s2) as [s3 a3].
  simpl in HT. destruct HT as (W3 & P3 & O3 & C3 & K3 & N3).
  simpl. split; [exact W3|]. split; [congruence|]. split; [|split].
  - intros [].
    + rewrite (O3 Pointer), (O2 Pointer) by discriminate. exact P1.
    + rewrite (O3 Keyboard) by discriminate. exact P2.
    + exact P3.
  - intros d H.
    apply existsb_app_true in H. destruct H as [H|H].
    { destruct (K1 _ H) as [-> E]. exact E. }
    apply existsb_app_true in H. destruct H as [H|H].
    { destruct (K2 _ H) as [-> E].
      pose proof (O1 Keyboard ltac:(discriminate)) as X1.
      simpl in *. congruence. }
    destruct (K3 _ H) as [-> E].
    pose proof (O1 Touch ltac:(discriminate)) as X1.
    pose proof (O2 Touch ltac:(discriminate)) as X2.
    simpl in *. congruence.
  - intros d. rewrite !filter_app, !length_app.
    assert (Z1 : forall d' a s0, d' <> d ->
               (forall x, existsb (constructs x) a = true -> x = d' /\ slot d' s0 = None) ->
               List.length (filter (constructs d) a) = 0%nat).
    { intros d' a s0 Hne Hk.
      destruct (filter (constructs d) a) as [|x l] eqn:F; [reflexivity|].
      assert (In x (filter (constructs d) a)) by (rewrite F; left; reflexivity).
      apply filter_In in H. destruct H as [Hin Hx].
      assert (existsb (constructs d) a = true)
        by (apply existsb_exists; exists x; auto).
      destruct (Hk _ H). congruence. }
    destruct d.
    + rewrite (Z1 Keyboard a2 s1), (Z1 Touch a3 s2); try discriminate; auto; lia.
    + rewrite (Z1 Pointer a1 (set_capabilities caps s)), (Z1 Touch a3 s2);
        try discriminate; auto; lia.
    + rewrite (Z1 Pointer a1 (set_capabilities caps s)), (Z1 Keyboard a2 s1);
        try discriminate; auto; lia.
Qed.

Lemma seat_wf_init : seat_wf init.
Proof. intros []; reflexivity. Qed.

Lemma seat_wf_run masks : forall s, seat_wf s -> seat_wf (run masks s).
Proof.
  induction masks as [|c masks IH]; intros s H; [exact H|].
  simpl. apply IH. apply handle_capabilities_spec. exact H.
Qed.

Lemma live_count_wf d s :
  seat_wf s -> live_count d s = if is_set (slot d s) then 1%nat else 0%nat.
Proof.
  intros H. unfold live_count. fold (of_kind d (live s)). rewrite (H d).
  destruct (slot d s); reflexivity.
Qed.

End SeatFacts.

(** C1. For every sequence of capability notifications delivered to a
    freshly constructed Seat and every further notification [caps]: after
    [handle_capabilities caps] the stored mask is [caps]; for each of
    pointer, keyboard and touch the handler pointer is non-null exactly
    when the bit is set in [caps]; the number of live handler objects of
    that class is 1 when the bit is set and 0 otherwise; and a handler of a
    class is constructed (at most once per notification) only when the Seat
    held no handler and no live object of that class before. *)
Theorem seat_handlers_track_capabilities :
  forall (delivered : list Z) (caps : Z),
    let s := Seat.run delivered Seat.init in
    let s' := fst (Seat.handle_capabilities caps s) in
    let acts := snd (Seat.handle_capabilities caps s) in
    Seat.capabilities_ s' = caps
    /\ (forall d, Seat.is_set (Seat.slot d s') = true <-> Seat.has_cap caps d = true)
    /\ (forall d, Seat.live_count d s' =
                  if Seat.has_cap caps d then 1%nat else 0%nat)
    /\ (forall d, existsb (Seat.constructs d) acts = true ->
                  Seat.slot d s = None /\ Seat.live_count d s = 0%nat)
    /\ (forall d, (List.length (filter (Seat.constructs d) acts) <= 1)%nat).
Proof.
  intros delivered caps s s' acts.
  assert (Hwf : Seat.seat_wf s) by (apply seat_wf_run, seat_wf_init).
  destruct (handle_capabilities_spec caps s Hwf) as (W & C & P & K & N).
  fold s' in W, C, P. fold acts in K, N.
  split; [exact C|]. split; [|split; [|split]].
  - intros d. rewrite P. tauto.
  - intros d. rewrite (live_count_wf d s' W), P. reflexivity.
  - intros d H. pose proof (K d H) as E. split; [exact E|].
    rewrite (live_count_wf d s Hwf), E. reflexivity.
  - exact N.
Qed.

(** ** Egl: make-current operations *)

Section EglFacts.
Import Egl.

(** [make_current], [clear_current] and [make_texture_current] leave the
    driver untouched when the context they install is already current. *)
Lemma egl_guarded_ops_skip_when_current E e d o :
  o <> Resource ->
  current_context d = installs o e ->
  snd (run_op o E e d) = d.
Proof.
  intros Ho Hc. destruct o; try contradiction; simpl in *;
    unfold make_current, clear_current, make_texture_current,
           eglGetCurrentContext; simpl;
    rewrite Hc, Z.eqb_refl; reflexivity.
Qed.

Lemma switches_after_call E dpy a b c d :
  switches (snd (do_eglMakeCurrent E dpy a b c d)) = S (switches d).
Proof.
  unfold switches, do_eglMakeCurrent. simpl.
  rewrite filter_app, length_app. simpl. lia.
Qed.

(** The guard those three operations share: test the current context
    against the very context that is installed. *)
Lemma guarded_switch_twice E dpy a b target d :
  eglMakeCurrent_ok E dpy a b target = true ->
  let step := fun d0 =>
    if negb (current_context d0 =? target)
    then snd (do_eglMakeCurrent E dpy a b target d0) else d0 in
  (switches (step (step d)) <= S (switches d))%nat
  /\ current_context (step (step d)) = target.
Proof.
  intros Hok step. unfold step.
  destruct (Z.eqb_spec (current_context d) target) as [Heq|Hne]; simpl.
  - rewrite Heq, Z.eqb_refl. simpl. split; [lia|assumption].
  - rewrite Hok. simpl. rewrite Z.eqb_refl. simpl.
    unfold switches. simpl. rewrite filter_app, length_app. simpl.
    split; [lia|reflexivity].
Qed.

(** With a driver that accepts the switch, calling one of those three
    operations twice in a row invokes [eglMakeCurrent] at most once. *)
Lemma egl_guarded_ops_twice E e d o :
  o <> Resource ->
  (forall dpy a b c, eglMakeCurrent_ok E dpy a b c = true) ->
  let d2 := snd (run_op o E e (snd (run_op o E e d))) in
  (switches d2 <= S (switches d))%nat /\ current_context d2 = installs o e.
Proof.
  intros Ho Hok.
  destruct o; try contradiction; simpl;
    unfold make_current, clear_current, make_texture_current,
           eglGetCurrentContext; simpl snd.
  - apply (guarded_switch_twice E (dpy_ e) (egl_surface_ e) (egl_surface_ e)).
    apply Hok.
  - apply (guarded_switch_twice E (dpy_ e) EGL_NO_SURFACE EGL_NO_SURFACE).
    apply Hok.
  - apply (guarded_switch_twice E (dpy_ e) EGL_NO_SURFACE EGL_NO_SURFACE).
    apply Hok.
Qed.

(** [make_resource_current] switches although the resource context is
    already current, whenever that context differs from the primary one. *)
Lemma egl_make_resource_current_redundant E e d :
  current_context d = resource_context_ e ->
  resource_context_ e <> context_ e ->
  switches (snd (make_resource_current E e d)) = S (switches d).
Proof.
  intros Hc Hne. unfold make_resource_current, eglGetCurrentContext. simpl.
  rewrite Hc. destruct (Z.eqb_spec (resource_context_ e) (context_ e));
    [contradiction|]. simpl.
  unfold switches. simpl. rewrite filter_app, length_app. simpl. lia.
Qed.

(** ... and does nothing when the primary context is current. *)
Lemma egl_make_resource_current_skips_on_primary E e d :
  current_context d = context_ e ->
  snd (make_resource_current E e d) = d.
Proof.
  intros Hc. unfold make_resource_current, eglGetCurrentContext. simpl.
  rewrite Hc, Z.eqb_refl. reflexivity.
Qed.

End EglFacts.

(** C2 (failing input).  On an Egl object whose primary, resource and
    texture contexts are the distinct handles 1, 2 and 3, starting with no
    current context and a driver that accepts every switch: the first
    [make_resource_current] installs the resource context, and a second
    call, made while the resource context is already current, invokes
    [eglMakeCurrent] again, so two switches are performed instead of one.
    When the primary context is current the operation performs no switch
    and leaves the primary context current. *)
Theorem egl_make_resource_current_switches_again :
  let e := Samples.egl_object in
  let d1 := snd (Egl.make_resource_current Samples.good_egl e Samples.fresh_driver) in
  let d2 := snd (Egl.make_resource_current Samples.good_egl e d1) in
  let dp := Egl.mk_driver (Egl.context_ e) [] in
  Egl.current_context d1 = Egl.installs Egl.Resource e
  /\ Egl.switches d1 = 1%nat
  /\ Egl.switches d2 = 2%nat
  /\ snd (Egl.make_resource_current Samples.good_egl e dp) = dp
  /\ Egl.current_context dp <> Egl.installs Egl.Resource e.
Proof.
  simpl. repeat split; try reflexivity. discriminate.
Qed.

(** C10. In every state of an Egl object and of the driver, and whatever
    the EGL implementation answers, [make_current], [clear_current],
    [swap_buffers], [make_resource_current] and [make_texture_current]
    return [true]; this includes the runs in which the underlying
    [eglMakeCurrent] or [eglSwapBuffers] call was made and returned
    [EGL_FALSE]. *)
Theorem egl_operations_always_return_true :
  (forall E e d,
      fst (Egl.make_current E e d) = true
      /\ fst (Egl.clear_current E e d) = true
      /\ fst (Egl.swap_buffers E e d) = true
      /\ fst (Egl.make_resource_current E e d) = true
      /\ fst (Egl.make_texture_current E e d) = true)
  /\ (let E := Samples.failing_egl in
      let e := Samples.egl_object in
      let d := Samples.fresh_driver in
      let busy := Egl.mk_driver 1 [] in
      Egl.make_current E e d = (true, Egl.mk_driver 0 [Egl.eglMakeCurrent 7 5 5 1 false])
      /\ Egl.clear_current E e busy
         = (true, Egl.mk_driver 1 [Egl.eglMakeCurrent 7 0 0 0 false])
      /\ Egl.swap_buffers E e d = (true, Egl.mk_driver 0 [Egl.eglSwapBuffers 7 5 false])
      /\ Egl.make_resource_current E e d
         = (true, Egl.mk_driver 0 [Egl.eglMakeCurrent 7 0 0 2 false])
      /\ Egl.make_texture_current E e d
         = (true, Egl.mk_driver 0 [Egl.eglMakeCurrent 7 0 0 3 false])).
Proof.
  split.
  - intros E e d. repeat split.
  - simpl. repeat split.
Qed.

(** ** Egl: construction *)

Section EglConstruction.
Import Egl.

(** The config loop returns the first config, in list order, whose
    buffer size reaches the threshold, never looking at what follows. *)
Lemma select_config_first attrib bs pre c post c0 size :
  (forall x, In x pre -> exists sx, attrib x = Some sx /\ sx < bs) ->
  attrib c = Some size -> bs <= size ->
  select_config attrib bs (pre ++ c :: post) c0 = Some c.
Proof.
  intros Hpre Hc Hsz. induction pre as [|x pre IH]; simpl.
  - rewrite Hc. destruct (Z.leb_spec bs size); [reflexivity|lia].
  - destruct (Hpre x (or_introl eq_refl)) as (sx & Hx & Hlt).
    rewrite Hx. destruct (Z.leb_spec bs sx); [lia|].
    apply IH. intros y Hy. apply Hpre. right. exact Hy.
Qed.

(** When every attribute query succeeds the loop is [List.find]. *)
Lemma select_config_find attrib bs configs c0 :
  (forall x, In x configs -> attrib x <> None) ->
  select_config attrib bs configs c0 =
  Some (match find (fun x => match attrib x with
                             | Some sx => bs <=? sx
                             | None => false
                             end) configs with
        | Some c => c
        | None => c0
        end).
Proof.
  induction configs as [|x l IH]; intros H; simpl; [reflexivity|].
  destruct (attrib x) as [sx|] eqn:Hx.
  - destruct (bs <=? sx); [reflexivity|].
    apply IH. intros y Hy. apply H. right. exact Hy.
  - exfalso. apply (H x); [left; reflexivity|exact Hx].
Qed.

(** When none is acceptable, or none was returned, [config_] keeps its
    zero initial value and construction carries on. *)
Lemma select_config_none attrib bs configs c0 :
  (forall x, In x configs -> exists sx, attrib x = Some sx /\ sx < bs) ->
  select_config attrib bs configs c0 = Some c0.
Proof.
  induction configs as [|x l IH]; intros H; simpl; [reflexivity|].
  destruct (H x (or_introl eq_refl)) as (sx & Hx & Hlt).
  rewrite Hx. destruct (Z.leb_spec bs sx); [lia|].
  apply IH. intros y Hy. apply H. right. exact Hy.
Qed.

(** The loop throws exactly when it reaches a config whose attribute
    query fails, that is when such a config comes before any acceptable
    one. *)
Lemma select_config_throws attrib bs configs c0 :
  select_config attrib bs configs c0 = None <->
  exists before c after,
    configs = before ++ c :: after
    /\ (forall x, In x before -> exists size, attrib x = Some size /\ size < bs)
    /\ attrib c = None.
Proof.
  induction configs as [|x l IH]; simpl.
  - split; [discriminate|]. intros (b & c & a & H & _).
    destruct b; discriminate.
  - destruct (attrib x) as [sx|] eqn:Hx.
    + destruct (Z.leb_spec bs sx) as [Hle|Hlt].
      * split; [discriminate|]. intros (b & c & a & H & Hb & Hc).
        destruct b as [|y b]; simpl in H; injection H as <- _.
        -- congruence.
        -- destruct (Hb x (or_introl eq_refl)) as (s' & Hs & Hlt'). 
           rewrite Hx in Hs. injection Hs as <-. lia.
      * rewrite IH. split.
        -- intros (b & c & a & -> & Hb & Hc). exists (x :: b), c, a.
           split; [reflexivity|]. split; [|exact Hc].
           intros y [<-|Hy]; [exists sx; auto|apply Hb, Hy].
        -- intros (b & c & a & H & Hb & Hc).
           destruct b as [|y b]; simpl in H; injection H as <- ->.
           ++ congruence.
           ++ exists b, c, a. split; [reflexivity|]. split; [|exact Hc].
              intros z Hz. apply Hb. right. exact Hz.
    + split; [|reflexivity]. intros _. exists [], x, l.
      split; [reflexivity|]. split; [intros y []|exact Hx].
Qed.

End EglConstruction.

(** C7 (as amended). Construction of an Egl object throws exactly when one
    of the results it tests is a failure: [eglInitialize], [eglBindAPI],
    [eglGetConfigs], [eglChooseConfig], or an [eglGetConfigAttrib] query
    made by the config loop.  The results of [eglCreateContext] play no
    part. *)
Theorem egl_construct_raises_iff :
  forall E display d0,
    Egl.threw (Egl.construct E display d0) = true <->
    Egl.checked_step_fails E display.
Proof.
  intros E display d0. unfold Egl.construct, Egl.checked_step_fails.
  set (dpy := Egl.eglGetDisplay E display).
  destruct (Egl.eglInitialize E dpy) as [[major minor]|] eqn:Hi;
    [|simpl; split; auto].
  destruct (Egl.eglBindAPI E) eqn:Hb; simpl;
    [|split; auto].
  destruct (Egl.eglGetConfigs E dpy) as [count|] eqn:Hg;
    [|simpl; split; auto].
  destruct (Egl.eglChooseConfig E dpy count) as [configs|] eqn:Hc.
  2:{ simpl. split; auto. intros _. right; right; right; left.
      exists count. auto. }
  pose proof (select_config_throws (Egl.eglGetConfigAttrib E dpy)
                Egl.default_buffer_size configs 0) as T.
  unfold Egl.default_buffer_size in T at 2.
  destruct (Egl.select_config (Egl.eglGetConfigAttrib E dpy)
              Egl.default_buffer_size configs 0) as [config|] eqn:Hs.
  - simpl. split; [discriminate|].
    intros [H|[H|[H|[H|H]]]]; try discriminate.
    + destruct H as (n & Hn & Hx). congruence.
    + destruct H as (n & b & c & a & Hn & Hl & Hpre & Hx).
      assert (Hcfg : configs = b ++ c :: a) by congruence.
      assert (X : Some config = None)
        by (apply T; exists b, c, a; auto).
      discriminate X.
  - simpl. split; auto. intros _. right; right; right; right.
    destruct T as [T _]. destruct (T eq_refl) as (b & c & a & -> & Hpre & Hx).
    exists count, b, c, a. auto.
Qed.

(** C7 (counterexample). With an EGL implementation whose every other call
    succeeds but whose [eglCreateContext] returns [EGL_NO_CONTEXT], the
    constructor does not throw: it returns an object whose three context
    handles are null. *)
Lemma egl_context_creation_failure_not_raised :
  exists e d,
    Egl.construct Samples.no_context_egl 0 Samples.fresh_driver
    = Egl.Constructed e d
    /\ Egl.context_creation_fails e
    /\ Egl.threw (Egl.construct Samples.no_context_egl 0 Samples.fresh_driver)
       = false.
Proof.
  eexists. eexists. split; [vm_compute; reflexivity|].
  split; [left; reflexivity|reflexivity].
Qed.

(** C8. If initialisation, API binding and config enumeration succeed and
    [eglChooseConfig] returns the configs [pre ++ c :: post] in that order,
    where every config of [pre] has a buffer size below 24 and [c] has a
    buffer size of at least 24, then construction completes with
    [config_ = c] and the threshold [buffer_size_ = 24], whatever [post]
    contains (larger buffer sizes, or configs whose attribute query would
    fail). *)
Theorem egl_config_first_match :
  forall E display d0 major minor count pre c post size,
    Egl.eglInitialize E (Egl.eglGetDisplay E display) = Some (major, minor) ->
    Egl.eglBindAPI E = true ->
    Egl.eglGetConfigs E (Egl.eglGetDisplay E display) = Some count ->
    Egl.eglChooseConfig E (Egl.eglGetDisplay E display) count
      = Some (pre ++ c :: post) ->
    (forall x, In x pre ->
       exists sx, Egl.eglGetConfigAttrib E (Egl.eglGetDisplay E display) x = Some sx
                  /\ sx < 24) ->
    Egl.eglGetConfigAttrib E (Egl.eglGetDisplay E display) c = Some size ->
    24 <= size ->
    exists e d,
      Egl.construct E display d0 = Egl.Constructed e d
      /\ Egl.config_ e = c
      /\ Egl.buffer_size_ e = 24.
Proof.
  intros E display d0 major minor count pre c post size Hi Hb Hg Hc Hpre Hsz Hle.
  unfold Egl.construct. rewrite Hi, Hb, Hg, Hc. simpl negb. cbv iota.
  rewrite (select_config_first _ Egl.default_buffer_size pre c post 0 size Hpre Hsz Hle).
  eexists. eexists. split; [reflexivity|]. split; reflexivity.
Qed.

(** C8 (witness): of the configs 11, 12, 13 with buffer sizes 16, 24, 32
    the constructor keeps 12. *)
Lemma egl_config_first_match_witness :
  exists e d,
    Egl.construct Samples.good_egl 0 Samples.fresh_driver = Egl.Constructed e d
    /\ Egl.config_ e = 12
    /\ Egl.buffer_size_ e = 24.
Proof.
  apply (egl_config_first_match Samples.good_egl 0 Samples.fresh_driver
           1 5 3 [11] 12 [13] 24).
  - reflexivity.
  - reflexivity.
  - reflexivity.
  - reflexivity.
  - intros x [Hx|[]]. subst x. exists 16. split; [reflexivity|lia].
  - reflexivity.
  - lia.
Defined.

(** ** XdgWm: toplevel configure *)

Section XdgFacts.
Import XdgWm.

Lemma apply_state_flags x a :
  let y := apply_state x a in
  fullscreen_ y = fullscreen_ x || (XDG_TOPLEVEL_STATE_FULLSCREEN =? a)
  /\ maximized_ y = maximized_ x || (XDG_TOPLEVEL_STATE_MAXIMIZED =? a)
  /\ resize_ y = resize_ x || (XDG_TOPLEVEL_STATE_RESIZING =? a)
  /\ activated_ y = activated_ x || (XDG_TOPLEVEL_STATE_ACTIVATED =? a)
  /\ same_outside_flags x y.
Proof.
  unfold apply_state, same_outside_flags,
    XDG_TOPLEVEL_STATE_FULLSCREEN, XDG_TOPLEVEL_STATE_MAXIMIZED,
    XDG_TOPLEVEL_STATE_RESIZING, XDG_TOPLEVEL_STATE_ACTIVATED.
  rewrite (Z.eqb_sym 2 a), (Z.eqb_sym 1 a), (Z.eqb_sym 3 a), (Z.eqb_sym 4 a).
  destruct (Z.eqb_spec a 2) as [->|]; [simpl; rewrite !orb_false_r, !orb_true_r; tauto|].
  destruct (Z.eqb_spec a 1) as [->|]; [simpl; rewrite !orb_false_r, !orb_true_r; tauto|].
  destruct (Z.eqb_spec a 3) as [->|]; [simpl; rewrite !orb_false_r, !orb_true_r; tauto|].
  destruct (Z.eqb_spec a 4) as [->|]; simpl; rewrite !orb_false_r, ?orb_true_r; tauto.
Qed.

Lemma fold_apply_state_flags states : forall x,
  let y := fold_left apply_state states x in
  fullscreen_ y = fullscreen_ x || mem XDG_TOPLEVEL_STATE_FULLSCREEN states
  /\ maximized_ y = maximized_ x || mem XDG_TOPLEVEL_STATE_MAXIMIZED states
  /\ resize_ y = resize_ x || mem XDG_TOPLEVEL_STATE_RESIZING states
  /\ activated_ y = activated_ x || mem XDG_TOPLEVEL_STATE_ACTIVATED states
  /\ same_outside_flags x y.
Proof.
  induction states as [|a l IH]; intros x; simpl.
  - rewrite !orb_false_r. unfold same_outside_flags. tauto.
  - destruct (IH (apply_state x a)) as (F & M & R & A & S).
    destruct (apply_state_flags x a) as (F1 & M1 & R1 & A1 & S1).
    rewrite F, M, R, A, F1, M1, R1, A1, !orb_assoc.
    unfold same_outside_flags in *.
    repeat split; try reflexivity; intuition congruence.
Qed.

Lemma handle_toplevel_configure_wait width height states x :
  wait_for_configure_ (handle_toplevel_configure width height states x)
  = wait_for_configure_ x.
Proof.
  unfold handle_toplevel_configure.
  destruct ((width =? 0) || (height =? 0)); [reflexivity|].
  pose proof (fold_apply_state_flags states (set_flags false false false false x))
    as (_ & _ & _ & _ & S).
  unfold same_outside_flags in S. simpl in S.
  destruct S as (_ & _ & _ & _ & _ & W & _).
  set (y := fold_left apply_state states (set_flags false false false false x)) in *.
  destruct ((0 <? width) && (0 <? height)).
  - destruct (negb (fullscreen_ y) && negb (maximized_ y)); simpl; exact W.
  - destruct (negb (fullscreen_ y) && negb (maximized_ y)); simpl; exact W.
Qed.

End XdgFacts.

(** C3 (as amended). A toplevel-configure event with a zero width or a zero
    height leaves the object unchanged.  Otherwise each of the four flags
    becomes true exactly when its state value occurs in the delivered
    array; when both dimensions are positive the geometry becomes the
    delivered size (and so does the nominal window size, unless the new
    state is fullscreen or maximized); when a dimension is negative the
    geometry is reset to the nominal window size only if the new state is
    neither fullscreen nor maximized, and is retained otherwise.  The
    configure-wait flag, the running flag and the handles are untouched. *)
Theorem toplevel_configure_spec :
  forall (x : XdgWm.t) (width height : Z) (states : list Z),
    let x' := XdgWm.handle_toplevel_configure width height states x in
    if (width =? 0) || (height =? 0) then x' = x
    else
      XdgWm.fullscreen_ x' = XdgWm.mem XdgWm.XDG_TOPLEVEL_STATE_FULLSCREEN states
      /\ XdgWm.maximized_ x' = XdgWm.mem XdgWm.XDG_TOPLEVEL_STATE_MAXIMIZED states
      /\ XdgWm.resize_ x' = XdgWm.mem XdgWm.XDG_TOPLEVEL_STATE_RESIZING states
      /\ XdgWm.activated_ x' = XdgWm.mem XdgWm.XDG_TOPLEVEL_STATE_ACTIVATED states
      /\ XdgWm.geometry_ x' =
         (if (0 <? width) && (0 <? height) then XdgWm.mk_size width height
          else if XdgWm.fullscreen_ x' || XdgWm.maximized_ x'
               then XdgWm.geometry_ x
               else XdgWm.window_size_ x)
      /\ XdgWm.window_size_ x' =
         (if (0 <? width) && (0 <? height)
             && negb (XdgWm.fullscreen_ x' || XdgWm.maximized_ x')
          then XdgWm.mk_size width height
          else XdgWm.window_size_ x)
      /\ XdgWm.wait_for_configure_ x' = XdgWm.wait_for_configure_ x
      /\ XdgWm.running_ x' = XdgWm.running_ x.
Proof.
  intros x width height states x'. subst x'.
  unfold XdgWm.handle_toplevel_configure.
  destruct ((width =? 0) || (height =? 0)); [reflexivity|].
  pose proof (fold_apply_state_flags states
                (XdgWm.set_flags false false false false x))
    as (F & M & R & A & S).
  unfold XdgWm.same_outside_flags in S. simpl in F, M, R, A, S.
  destruct S as (_ & _ & _ & _ & _ & W & Rn & G & Ws).
  set (y := fold_left XdgWm.apply_state states
              (XdgWm.set_flags false false false false x)) in *.
  destruct ((0 <? width) && (0 <? height)); simpl.
  - destruct (XdgWm.fullscreen_ y) eqn:Ef, (XdgWm.maximized_ y) eqn:Em; simpl;
      rewrite ?Ef, ?Em; simpl; repeat split; congruence.
  - destruct (XdgWm.fullscreen_ y) eqn:Ef, (XdgWm.maximized_ y) eqn:Em; simpl;
      rewrite ?Ef, ?Em; simpl; repeat split; congruence.
Qed.

(** C3 (counterexample). On an object whose geometry is 800x600 and whose
    nominal window size is 640x480, a configure event of size -1 x 10 whose
    state array holds only FULLSCREEN leaves the geometry at 800x600: it is
    neither the delivered size nor the nominal size. *)
Lemma toplevel_configure_negative_fullscreen :
  let x' := XdgWm.handle_toplevel_configure (-1) 10
              [XdgWm.XDG_TOPLEVEL_STATE_FULLSCREEN] Samples.xdg_object in
  (-1 =? 0) || (10 =? 0) = false
  /\ (0 <? -1) && (0 <? 10) = false
  /\ XdgWm.geometry_ x' = XdgWm.mk_size 800 600
  /\ XdgWm.window_size_ x' = XdgWm.mk_size 640 480
  /\ XdgWm.geometry_ x' <> XdgWm.window_size_ x'.
Proof.
  simpl. repeat split. discriminate.
Qed.

(** ** XdgWm: the configure-wait flag *)

Section XdgWaitFacts.

Lemma step_wait X w e :
  XdgWm.wait_for_configure_ (XdgWm.obj (XdgWm.step X w e)) =
  if XdgWm.is_surface_configure e then false
  else XdgWm.wait_for_configure_ (XdgWm.obj w).
Proof.
  destruct e as [r n i v|id|b s|xs s|wd ht st| |a|t|px py wd ht pd]; simpl;
    try reflexivity.
  - unfold XdgWm.registry_handle_global.
    destruct (String.eqb i "xdg_wm_base"); reflexivity.
  - apply handle_toplevel_configure_wait.
  - unfold XdgWm.toplevel_resize.
    destruct (negb (XdgWm.resize_edge px py wd ht pd =? 0)); reflexivity.
Qed.

Lemma run_wait X events : forall w,
  XdgWm.wait_for_configure_ (XdgWm.obj (XdgWm.run X events w))
  = XdgWm.wait_for_configure_ (XdgWm.obj w)
    && negb (existsb XdgWm.is_surface_configure events).
Proof.
  induction events as [|e l IH]; intros w.
  - simpl. rewrite andb_true_r. reflexivity.
  - change (XdgWm.run X (e :: l) w) with (XdgWm.run X l (XdgWm.step X w e)).
    rewrite IH, step_wait. simpl existsb.
    destruct (XdgWm.is_surface_configure e); simpl; [|reflexivity].
    symmetry. apply andb_false_r.
Qed.

(** Handlers other than the surface-configure handler never assign the
    flag. *)
Lemma step_stores X w e :
  XdgWm.is_surface_configure e = false ->
  XdgWm.wait_stores (XdgWm.step X w e) = XdgWm.wait_stores w.
Proof.
  destruct e as [r n i v|id|b s|xs s|wd ht st| |a|t|px py wd ht pd]; simpl;
    try reflexivity; try discriminate; intros _.
  - unfold XdgWm.registry_handle_global.
    destruct (String.eqb i "xdg_wm_base"); reflexivity.
  - unfold XdgWm.toplevel_resize.
    destruct (negb (XdgWm.resize_edge px py wd ht pd =? 0)); reflexivity.
Qed.

(** Requests are only ever appended. *)
Lemma step_sent_grows X w e :
  exists l, XdgWm.sent (XdgWm.step X w e) = XdgWm.sent w ++ l.
Proof.
  destruct e as [r n i v|id|b s|xs s|wd ht st| |a|t|px py wd ht pd]; simpl;
    try (exists []; rewrite app_nil_r; reflexivity);
    try (eexists; reflexivity).
  - unfold XdgWm.registry_handle_global.
    destruct (String.eqb i "xdg_wm_base"); simpl.
    + rewrite <- !app_assoc. eexists; reflexivity.
    + exists []; rewrite app_nil_r; reflexivity.
  - unfold XdgWm.toplevel_resize.
    destruct (negb (XdgWm.resize_edge px py wd ht pd =? 0));
      exists []; rewrite app_nil_r; reflexivity.
Qed.

Lemma configure_effects X w xs serial :
  XdgWm.sent (XdgWm.step X w (XdgWm.ev_surface_configure xs serial))
  = XdgWm.sent w ++ [XdgWm.xdg_surface_ack_configure xs serial]
  /\ XdgWm.wait_stores (XdgWm.step X w (XdgWm.ev_surface_configure xs serial))
     = XdgWm.wait_stores w ++ [(false, S (List.length (XdgWm.sent w)))].
Proof.
  simpl. rewrite length_app. simpl. rewrite Nat.add_1_r. split; reflexivity.
Qed.

Lemma step_cleared_after_ack X w e :
  XdgWm.cleared_after_ack w -> XdgWm.cleared_after_ack (XdgWm.step X w e).
Proof.
  intros I b n Hin Hb.
  destruct (XdgWm.is_surface_configure e) eqn:K.
  - destruct e; try discriminate.
    destruct (configure_effects X w xdg_surface serial) as [S W].
    rewrite S, W in *. apply in_app_or in Hin. destruct Hin as [Hin|[Hin|[]]].
    + destruct (I b n Hin Hb) as (x & r & N & L).
      exists x, r. rewrite nth_error_app1 by lia.
      split; [exact N|]. rewrite length_app. lia.
    + injection Hin as _ <-. exists xdg_surface, serial. simpl Nat.pred.
      rewrite nth_error_app2 by lia. rewrite Nat.sub_diag.
      split; [reflexivity|]. rewrite length_app. simpl. lia.
  - rewrite (step_stores X w e K) in Hin.
    destruct (step_sent_grows X w e) as (l & S). rewrite S.
    destruct (I b n Hin Hb) as (x & r & N & L).
    exists x, r. rewrite nth_error_app1 by lia.
    split; [exact N|]. rewrite length_app. lia.
Qed.

Lemma run_cleared_after_ack X events : forall w,
  XdgWm.cleared_after_ack w -> XdgWm.cleared_after_ack (XdgWm.run X events w).
Proof.
  induction events as [|e l IH]; intros w I; [exact I|].
  change (XdgWm.run X (e :: l) w) with (XdgWm.run X l (XdgWm.step X w e)).
  apply IH, step_cleared_after_ack, I.
Qed.

End XdgWaitFacts.

(** C9. The constructor leaves [wait_for_configure_] true.  For every
    state and every event or method call, the flag afterwards is false if
    the event is a surface-configure and is unchanged otherwise; an event
    that is not a surface-configure makes no assignment to the flag at
    all.  The surface-configure handler sends [xdg_surface_ack_configure]
    with the delivered serial and then assigns false: the assignment is
    recorded with the acknowledgement already among the requests sent, as
    the last of them.  Hence, after any sequence of events following
    construction, the flag is false exactly when a surface-configure event
    occurred in the sequence, and every assignment of false was made
    right after an acknowledgement had been sent. *)
Theorem wait_for_configure_cleared_only_by_surface_configure :
  forall (E : XdgWm.env) (display base_surface : Z),
    XdgWm.wait_for_configure_ (XdgWm.obj (XdgWm.construct E display base_surface))
    = true
    /\ (forall w e,
          XdgWm.wait_for_configure_ (XdgWm.obj (XdgWm.step E w e)) =
          if XdgWm.is_surface_configure e then false
          else XdgWm.wait_for_configure_ (XdgWm.obj w))
    /\ (forall w e,
          XdgWm.is_surface_configure e = false ->
          XdgWm.wait_stores (XdgWm.step E w e) = XdgWm.wait_stores w)
    /\ (forall w xdg_surface serial,
          let after :=
            XdgWm.step E w (XdgWm.ev_surface_configure xdg_surface serial) in
          XdgWm.sent after
          = XdgWm.sent w ++ [XdgWm.xdg_surface_ack_configure xdg_surface serial]
          /\ XdgWm.wait_stores after
             = XdgWm.wait_stores w ++ [(false, List.length (XdgWm.sent after))]
          /\ nth_error (XdgWm.sent after) (Nat.pred (List.length (XdgWm.sent after)))
             = Some (XdgWm.xdg_surface_ack_configure xdg_surface serial))
    /\ (forall events,
          let w := XdgWm.run E events (XdgWm.construct E display base_surface) in
          XdgWm.wait_for_configure_ (XdgWm.obj w)
          = negb (existsb XdgWm.is_surface_configure events)
          /\ XdgWm.cleared_after_ack w).
Proof.
  intros E display base_surface.
  split; [reflexivity|]. split; [intros w e; apply step_wait|].
  split; [intros w e; apply step_stores|]. split.
  - intros w xs serial after. subst after.
    destruct (configure_effects E w xs serial) as [S W].
    rewrite S, W, length_app. simpl List.length. rewrite Nat.add_1_r.
    split; [reflexivity|]. split; [reflexivity|].
    simpl Nat.pred. rewrite nth_error_app2 by lia.
    rewrite Nat.sub_diag. reflexivity.
  - intros events w. subst w. split.
    + rewrite run_wait. reflexivity.
    + apply run_cleared_after_ack.
      intros b n Hin Hb. simpl in Hin. destruct Hin as [Hin|[]].
      injection Hin as <- _. discriminate.
Qed.

(** ** Window: the frame loop *)

Section WindowFacts.
Import Window.

(** [stop_frames] writes no field of the Window. *)
Lemma stop_frames_keeps_fields w : win (stop_frames w) = win w.
Proof.
  unfold stop_frames, do_wl_callback_destroy.
  destruct (negb (wl_callback_ (win w) =? 0)); [|reflexivity].
  destruct (is_live _ _); reflexivity.
Qed.

(** With a null [wl_callback_], [stop_frames] does nothing at all. *)
Lemma stop_frames_null w : wl_callback_ (win w) = 0 -> stop_frames w = w.
Proof. intros H. unfold stop_frames. rewrite H. reflexivity. Qed.

Lemma stop_frames_trace w :
  trace (stop_frames w) =
  trace w ++ (if negb (wl_callback_ (win w) =? 0)
              then [wl_callback_destroy (wl_callback_ (win w))] else []).
Proof.
  unfold stop_frames, do_wl_callback_destroy.
  destruct (negb (wl_callback_ (win w) =? 0)); [|symmetry; apply app_nil_r].
  destruct (is_live _ _); reflexivity.
Qed.

Lemma stop_frames_next w : next_callback (stop_frames w) = next_callback w.
Proof.
  unfold stop_frames, do_wl_callback_destroy.
  destruct (negb (wl_callback_ (win w) =? 0)); [|reflexivity].
  destruct (is_live _ _); reflexivity.
Qed.

(** [start_frames] cancels, draws once (when a draw callback is
    registered), subscribes and commits, in this order. *)
Lemma start_frames_trace w :
  trace (start_frames w) =
  trace w
  ++ (if negb (wl_callback_ (win w) =? 0)
      then [wl_callback_destroy (wl_callback_ (win w))] else [])
  ++ (if has_draw_callback (win w) then [draw_callback 0] else [])
  ++ [wl_surface_frame (wl_surface_ (win w)) (next_callback w);
      wl_callback_add_listener (next_callback w);
      wl_surface_commit (wl_surface_ (win w))].
Proof.
  unfold start_frames, on_frame. simpl.
  pose proof (stop_frames_trace w) as T.
  pose proof (stop_frames_keeps_fields w) as F.
  pose proof (stop_frames_next w) as N.
  destruct (stop_frames w) as [x l n k t]. simpl in *. subst x n.
  rewrite T.
  destruct (has_draw_callback (win w)); simpl;
    rewrite <- !app_assoc; reflexivity.
Qed.

(** The synthesized frame invokes the registered draw callback exactly
    once, and [wl_callback_] then names the new subscription. *)
Lemma start_frames_draws_once w :
  has_draw_callback (win w) = true ->
  draws (trace (start_frames w)) = S (draws (trace w))
  /\ wl_callback_ (win (start_frames w)) = next_callback w
  /\ is_live (next_callback w) (start_frames w) = true.
Proof.
  intros H. rewrite start_frames_trace, H. unfold draws.
  rewrite !filter_app, !length_app.
  split.
  - destruct (negb (wl_callback_ (win w) =? 0)); simpl; lia.
  - unfold start_frames, on_frame. simpl.
    destruct (has_draw_callback (win (stop_frames w))); simpl;
      rewrite stop_frames_next; unfold is_live; simpl;
      rewrite Z.eqb_refl; split; reflexivity.
Qed.

Lemma not_live_after_destroy c l :
  existsb (Z.eqb c) (filter (fun x => negb (c =? x)) l) = false.
Proof.
  induction l as [|x l IH]; simpl; [reflexivity|].
  destruct (Z.eqb_spec c x); simpl; [exact IH|].
  destruct (Z.eqb_spec c x); [contradiction|exact IH].
Qed.

(** After one [stop_frames] on a non-null [wl_callback_], the callback no
    longer exists, and a further [stop_frames] destroys it once more. *)
Lemma stop_frames_twice_stale w :
  wl_callback_ (win w) <> 0 ->
  let c := wl_callback_ (win w) in
  let w2 := stop_frames w in
  is_live c w2 = false
  /\ trace (stop_frames w2) = trace w2 ++ [wl_callback_destroy c]
  /\ stale_destroys (stop_frames w2) = S (stale_destroys w2).
Proof.
  intros Hc c w2.
  assert (Hl : is_live c w2 = false).
  { subst w2 c. unfold stop_frames, do_wl_callback_destroy.
    destruct (Z.eqb_spec (wl_callback_ (win w)) 0); [contradiction|]. simpl.
    unfold is_live, emit. simpl.
    destruct (existsb (Z.eqb (wl_callback_ (win w))) (live w)) eqn:L; simpl.
    - apply not_live_after_destroy.
    - exact L. }
  split; [exact Hl|].
  assert (Hf : wl_callback_ (win w2) = c)
    by (subst w2 c; rewrite stop_frames_keeps_fields; reflexivity).
  unfold stop_frames at 1 2, do_wl_callback_destroy. rewrite Hf.
  destruct (Z.eqb_spec c 0); [contradiction|]. simpl.
  assert (Hl' : is_live c (emit (wl_callback_destroy c) w2) = false) by exact Hl.
  rewrite Hl'. simpl. split; reflexivity.
Qed.

End WindowFacts.

(** C4 (failing input). A Window with a draw callback is constructed: its
    constructor's [start_frames] invokes the draw callback exactly once and
    subscribes frame callback 100.  [stop_frames] destroys that callback,
    after which no subscription is outstanding, yet [wl_callback_] still
    holds 100.  A second [stop_frames] therefore is not a no-op: it calls
    [wl_callback_destroy] on the already destroyed callback. *)
Theorem window_stop_frames_twice_destroys_twice :
  let w1 := Samples.framing_window in
  let w2 := Window.stop_frames w1 in
  let w3 := Window.stop_frames w2 in
  Window.draws (Window.trace w1) = 1%nat
  /\ Window.subscription_outstanding w1 = true
  /\ Window.subscription_outstanding w2 = false
  /\ Window.stale_destroys w2 = 0%nat
  /\ Window.wl_callback_ (Window.win w2) = 100
  /\ Window.trace w3 = Window.trace w2 ++ [Window.wl_callback_destroy 100]
  /\ Window.stale_destroys w3 = 1%nat.
Proof.
  vm_compute. repeat split.
Qed.

(** ** WindowManager: the result of [dispatch] *)

Section DispatchFacts.
Import WindowManager.

Lemma int_small x : - 2 ^ 31 <= x <= INT_MAX -> int x = x.
Proof.
  unfold int, INT_MAX. intros H.
  rewrite Z.mod_small by lia. lia.
Qed.

Lemma sum_nonneg_mono l : forall acc,
  Forall (fun n => 0 <= n) l -> acc <= fold_left Z.add l acc.
Proof.
  induction l as [|n l IH]; intros acc H; simpl; [lia|].
  inversion H; subst. specialize (IH (acc + n) H3). lia.
Qed.

(** Without failures and within [int], the drain loop adds up the counts. *)
Lemma drain_is_sum l : forall acc,
  0 <= acc ->
  Forall (fun n => 0 <= n) l ->
  fold_left Z.add l acc <= INT_MAX ->
  fold_left (fun count n => int (count + n)) l acc = fold_left Z.add l acc.
Proof.
  induction l as [|n l IH]; intros acc Ha H Hmax; simpl; [reflexivity|].
  inversion H; subst. simpl in Hmax.
  pose proof (sum_nonneg_mono l (acc + n) H3).
  rewrite int_small by (unfold INT_MAX in *; lia).
  apply IH; [lia|assumption|assumption].
Qed.

Lemma drain_total E :
  drained_counts E -> drain E = total (drained E) /\ 0 <= total (drained E).
Proof.
  intros [Hc Ht]. unfold drain, total in *.
  rewrite drain_is_sum; try assumption; try lia.
  split; [reflexivity|]. apply (sum_nonneg_mono _ 0 Hc).
Qed.

Lemma flush_failed_result E : flush_failed E = true -> flush_result E < 0.
Proof.
  unfold flush_failed. intros H. apply andb_true_iff in H.
  destruct H as [H _]. apply Z.ltb_lt. exact H.
Qed.

End DispatchFacts.

(** C5 (as amended).  When the flush fails with an [errno] other than
    [EAGAIN], or the flush does not fail so and [poll] returns a negative
    value, [dispatch] returns the negated [errno] of the failing call, a
    negative number ([errno] being a positive [int]).  When the flush does
    not fail so and every [wl_display_dispatch_pending] call of the drain
    loop returned a count, [dispatch] returns the sum of these counts, a
    non-negative number, if [poll] returns 0 or returns a positive value
    with [POLLIN] clear; with [POLLIN] set it returns that sum plus the
    count returned by the call that follows the read.  So, as long as
    every [wl_display_dispatch_pending] call returns a count, the value
    returned is negative exactly when the flush fails with an [errno]
    other than [EAGAIN] or [poll] fails. *)
Theorem dispatch_return_value :
  forall (E : WindowManager.env) (timeout : Z),
    let r := WindowManager.dispatch E timeout in
    let sum := WindowManager.total (WindowManager.drained E) in
    let last := WindowManager.dispatch_pending_after_read E in
    (WindowManager.flush_failed E = true ->
     0 < WindowManager.flush_errno E <= WindowManager.INT_MAX ->
     r = - WindowManager.flush_errno E /\ r < 0)
    /\ (WindowManager.flush_failed E = false ->
        WindowManager.poll_result E timeout < 0 ->
        0 < WindowManager.poll_errno E <= WindowManager.INT_MAX ->
        r = - WindowManager.poll_errno E /\ r < 0)
    /\ (WindowManager.flush_failed E = false ->
        WindowManager.drained_counts E ->
        WindowManager.poll_result E timeout = 0
        \/ (0 < WindowManager.poll_result E timeout
            /\ Z.land (WindowManager.poll_revents E) WindowManager.POLLIN = 0) ->
        r = sum /\ 0 <= r)
    /\ (WindowManager.flush_failed E = false ->
        WindowManager.drained_counts E ->
        0 < WindowManager.poll_result E timeout ->
        Z.land (WindowManager.poll_revents E) WindowManager.POLLIN <> 0 ->
        0 <= last -> sum + last <= WindowManager.INT_MAX ->
        r = sum + last /\ 0 <= r)
    /\ (WindowManager.drained_counts E ->
        0 <= last -> sum + last <= WindowManager.INT_MAX ->
        WindowManager.errno_set (WindowManager.flush_result E)
          (WindowManager.flush_errno E) ->
        WindowManager.errno_set (WindowManager.poll_result E timeout)
          (WindowManager.poll_errno E) ->
        (r < 0 <->
         WindowManager.flush_failed E = true
         \/ WindowManager.poll_result E timeout < 0)).
Proof.
  intros E timeout r sum last. subst r sum last.
  unfold WindowManager.dispatch, WindowManager.dispatch_outcome.
  assert (Hflush : WindowManager.flush_failed E = true ->
                   0 < WindowManager.flush_errno E <= WindowManager.INT_MAX ->
                   WindowManager.int (- WindowManager.flush_errno E)
                   = - WindowManager.flush_errno E).
  { intros _ He. apply int_small. unfold WindowManager.INT_MAX in *. lia. }
  assert (Hpoll : 0 < WindowManager.poll_errno E <= WindowManager.INT_MAX ->
                  WindowManager.int (- WindowManager.poll_errno E)
                  = - WindowManager.poll_errno E).
  { intros He. apply int_small. unfold WindowManager.INT_MAX in *. lia. }
  destruct (WindowManager.flush_failed E) eqn:Hf.
  - (* the flush failed for good *)
    pose proof (flush_failed_result E Hf) as Hneg.
    cbn [WindowManager.return_value].
    split; [intros _ He; rewrite Hflush by auto; lia|].
    split; [discriminate|]. split; [discriminate|]. split; [discriminate|].
    intros _ _ _ He _. specialize (He Hneg). rewrite Hflush by auto.
    split; [auto|lia].
  - split; [discriminate|].
    destruct (Z.ltb_spec 0 (WindowManager.poll_result E timeout)) as [Hp|Hp].
    + (* poll reports readiness *)
      destruct (Z.eqb_spec
                  (Z.land (WindowManager.poll_revents E) WindowManager.POLLIN) 0)
        as [Hr|Hr]; cbn [negb WindowManager.return_value].
      * split; [intros; lia|].
        split; [intros _ C _; destruct (drain_total E C) as [-> Hs]; auto|].
        split; [intros; contradiction|].
        intros C _ _ _ _. destruct (drain_total E C) as [-> Hs].
        split; [lia|intros [H|H]; [discriminate|lia]].
      * split; [intros; lia|].
        split; [intros _ _ [H|[_ H]]; [lia|contradiction]|].
        assert (R : WindowManager.drained_counts E ->
                    0 <= WindowManager.dispatch_pending_after_read E ->
                    WindowManager.total (WindowManager.drained E)
                    + WindowManager.dispatch_pending_after_read E
                    <= WindowManager.INT_MAX ->
                    WindowManager.int
                      (WindowManager.drain E
                       + WindowManager.dispatch_pending_after_read E)
                    = WindowManager.total (WindowManager.drained E)
                      + WindowManager.dispatch_pending_after_read E
                    /\ 0 <= WindowManager.total (WindowManager.drained E)).
        { intros C Hl Hm. destruct (drain_total E C) as [-> Hs].
          split; [|exact Hs]. apply int_small.
          unfold WindowManager.INT_MAX in *. lia. }
        split; [intros _ C _ _ Hl Hm; destruct (R C Hl Hm) as [-> Hs]; lia|].
        intros C Hl Hm _ _. destruct (R C Hl Hm) as [-> Hs].
        split; [lia|intros [H|H]; [discriminate|lia]].
    + destruct (Z.eqb_spec (WindowManager.poll_result E timeout) 0) as [Hz|Hz];
        cbn [WindowManager.return_value].
      * (* poll timed out *)
        split; [intros; lia|].
        split; [intros _ C _; destruct (drain_total E C) as [-> Hs]; auto|].
        split; [intros; lia|].
        intros C _ _ _ _. destruct (drain_total E C) as [-> Hs].
        split; [lia|intros [H|H]; [discriminate|lia]].
      * (* poll failed *)
        assert (Hneg : WindowManager.poll_result E timeout < 0) by lia.
        split; [intros _ _ He; rewrite Hpoll by auto; lia|].
        split; [intros _ _ [H|[H _]]; lia|].
        split; [intros; lia|].
        intros _ _ _ _ He. specialize (He Hneg). rewrite Hpoll by auto.
        split; [auto|lia].
Qed.

(** C5 (witness): two and three queued events are drained, the flush
    succeeds and [poll] times out with a timeout of 0; [dispatch] returns 5. *)
Lemma dispatch_return_value_witness :
  WindowManager.dispatch Samples.idle_dispatch 0 = 5
  /\ 0 <= WindowManager.dispatch Samples.idle_dispatch 0.
Proof.
  destruct (dispatch_return_value Samples.idle_dispatch 0) as (_ & _ & H & _).
  apply H.
  - reflexivity.
  - split; [repeat constructor; lia|unfold WindowManager.INT_MAX; cbn; lia].
  - left. reflexivity.
Defined.

(** C5 (counterexample).  With nothing drained, a successful flush and a
    [poll] that reports readable data, a [wl_display_dispatch_pending]
    that fails after the read makes [dispatch] return -1: a negative
    value although neither the flush nor [poll] failed.  And when the
    call in the drain loop returns -1, [dispatch] returns -1 although the
    flush succeeds and [poll] returns 0. *)
Lemma dispatch_negative_without_flush_or_poll_failure :
  (WindowManager.flush_failed Samples.read_failure = false
   /\ 0 < WindowManager.poll_result Samples.read_failure 0
   /\ WindowManager.dispatch Samples.read_failure 0 = -1
   /\ ~ (WindowManager.dispatch Samples.read_failure 0 < 0 <->
         WindowManager.flush_failed Samples.read_failure = true
         \/ WindowManager.poll_result Samples.read_failure 0 < 0))
  /\ (WindowManager.flush_failed Samples.drain_failure = false
      /\ WindowManager.poll_result Samples.drain_failure 0 = 0
      /\ WindowManager.dispatch Samples.drain_failure 0 = -1
      /\ ~ 0 <= WindowManager.dispatch Samples.drain_failure 0).
Proof.
  split.
  - split; [reflexivity|]. split; [reflexivity|]. split; [reflexivity|].
    intros [H _].
    assert (N : WindowManager.dispatch Samples.read_failure 0 < 0) by reflexivity.
    destruct (H N) as [F|P]; [discriminate F|discriminate P].
  - split; [reflexivity|]. split; [reflexivity|]. split; [reflexivity|].
    intros H. apply H. reflexivity.
Qed.

(** ** Cursor: [enable] *)

Section CursorFacts.
Import Cursor.

(** The [strcmp] chain recognises exactly the four kinds. *)
Lemma cursor_name_known kind :
  cursor_name kind <> None <-> known_kind kind.
Proof.
  unfold cursor_name, known_kind.
  destruct (String.eqb_spec kind "basic"); [split; [auto|discriminate]|].
  destruct (String.eqb_spec kind "click"); [split; [auto|discriminate]|].
  destruct (String.eqb_spec kind "text"); [split; [auto|discriminate]|].
  destruct (String.eqb_spec kind "forbidden"); [split; [auto 6|discriminate]|].
  split; [congruence|]. intros [H|[H|[H|H]]]; contradiction.
Qed.

End CursorFacts.

(** C6 (as amended). [enable] returns false exactly when cursor rendering
    is enabled, the pointer handle is non-null, and either the kind is not
    one of "basic", "click", "text", "forbidden", or the theme has no image
    of the mapped name, or the image buffer or the cursor surface is null;
    a failing call sends nothing.  With rendering disabled it sets the
    cursor surface with hot spot (0, 0), damages an empty rectangle and
    commits, attaching no buffer, and returns true.  With rendering
    enabled and a null pointer handle it sends nothing and returns true.
    With rendering enabled, a non-null pointer handle, a recognised kind,
    an image found and non-null buffer and surface, it sets the cursor
    with the image's hot spot, attaches the buffer, damages the image's
    rectangle, commits, and returns true. *)
Theorem cursor_enable_spec :
  forall (lookup : Cursor.theme_lookup) (c : Cursor.t) (device : Z) (kind : string),
    let r := Cursor.enable lookup c device kind in
    (fst r = false <->
       Cursor.enable_ c = true /\ Cursor.wl_pointer_ c <> 0
       /\ (~ Cursor.known_kind kind
           \/ (exists name, Cursor.cursor_name kind = Some name
                 /\ lookup (Cursor.theme_ c) name = None)
           \/ (exists name img, Cursor.cursor_name kind = Some name
                 /\ lookup (Cursor.theme_ c) name = Some img
                 /\ (Cursor.buffer img = 0 \/ Cursor.wl_surface_ c = 0))))
    /\ (fst r = false -> snd r = [])
    /\ (Cursor.enable_ c = false ->
        r = (true,
             [Cursor.wl_pointer_set_cursor (Cursor.wl_pointer_ c) (Cursor.serial c)
                (Cursor.wl_surface_ c) 0 0;
              Cursor.wl_surface_damage (Cursor.wl_surface_ c) 0 0 0 0;
              Cursor.wl_surface_commit (Cursor.wl_surface_ c)]))
    /\ (Cursor.enable_ c = true -> Cursor.wl_pointer_ c = 0 -> r = (true, []))
    /\ (forall name img,
          Cursor.enable_ c = true -> Cursor.wl_pointer_ c <> 0 ->
          Cursor.cursor_name kind = Some name ->
          lookup (Cursor.theme_ c) name = Some img ->
          Cursor.buffer img <> 0 -> Cursor.wl_surface_ c <> 0 ->
          r = (true,
               [Cursor.wl_pointer_set_cursor (Cursor.wl_pointer_ c) (Cursor.serial c)
                  (Cursor.wl_surface_ c)
                  (Cursor.to_int32 (Cursor.hotspot_x img))
                  (Cursor.to_int32 (Cursor.hotspot_y img));
                Cursor.wl_surface_attach (Cursor.wl_surface_ c) (Cursor.buffer img) 0 0;
                Cursor.wl_surface_damage (Cursor.wl_surface_ c) 0 0
                  (Cursor.to_int32 (Cursor.width img))
                  (Cursor.to_int32 (Cursor.height img));
                Cursor.wl_surface_commit (Cursor.wl_surface_ c)])).
Proof.
  intros lookup c device kind r. subst r. unfold Cursor.enable.
  pose proof (cursor_name_known kind) as K.
  destruct (Cursor.enable_ c) eqn:En; simpl.
  2:{ repeat split; try discriminate; try reflexivity.
      intros (H & _). discriminate. }
  destruct (Z.eqb_spec (Cursor.wl_pointer_ c) 0) as [Hp|Hp]; simpl.
  { repeat split; try discriminate; try reflexivity; try contradiction.
    intros (_ & H & _). contradiction. }
  destruct (Cursor.cursor_name kind) as [name|] eqn:Hn.
  2:{ simpl. repeat split; try discriminate; try contradiction; auto.
      left. intros Hk. apply K in Hk. contradiction. }
  assert (Hk : Cursor.known_kind kind) by (apply K; discriminate).
  destruct (lookup (Cursor.theme_ c) name) as [img|] eqn:Hl.
  2:{ simpl. repeat split; try discriminate; try contradiction; auto.
      - right; left. exists name. auto.
      - intros n i _ _ Hn' Hl'. injection Hn' as <-. congruence. }
  destruct (Z.eqb_spec (Cursor.buffer img) 0) as [Hb|Hb]; simpl.
  { repeat split; try discriminate; try contradiction; auto.
    - right; right. exists name, img. auto.
    - intros n i _ _ Hn' Hl' Hb'. injection Hn' as <-.
      rewrite Hl in Hl'. injection Hl' as <-. contradiction. }
  destruct (Z.eqb_spec (Cursor.wl_surface_ c) 0) as [Hs|Hs]; simpl.
  { repeat split; try discriminate; try contradiction; auto.
    right; right. exists name, img. auto. }
  repeat split; try discriminate; try contradiction.
  - intros (_ & _ & [H|[H|H]]).
    + contradiction.
    + destruct H as (n & Hn' & Hl'). injection Hn' as <-. congruence.
    + destruct H as (n & i & Hn' & Hl' & Hd). injection Hn' as <-.
      rewrite Hl in Hl'. injection Hl' as <-. destruct Hd; contradiction.
  - intros n i _ _ Hn' Hl' _ _. injection Hn' as <-.
    rewrite Hl in Hl'. injection Hl' as <-. reflexivity.
Qed.

(** C6 (counterexample). An enabled Cursor whose pointer handle is null
    returns true for the unrecognised kind "arrow", and sends nothing.
    An enabled Cursor with a pointer whose cursor surface is null returns
    false for the kind "basic" although the theme holds the image and its
    buffer is valid. *)
Lemma cursor_enable_null_pointer_unknown_kind :
  (Cursor.enable_ Samples.cursor_without_pointer = true
   /\ ~ Cursor.known_kind "arrow"
   /\ Cursor.enable Samples.full_theme Samples.cursor_without_pointer 0 "arrow"
      = (true, []))
  /\ (Cursor.enable_ Samples.cursor_without_surface = true
      /\ Cursor.known_kind "basic"
      /\ Samples.full_theme (Cursor.theme_ Samples.cursor_without_surface)
           Cursor.kCursorKindBasic
         = Some (Cursor.mk_image 4 4 24 24 77)
      /\ Cursor.enable Samples.full_theme Samples.cursor_without_surface 0 "basic"
         = (false, [])).
Proof.
  split.
  - split; [reflexivity|]. split; [|reflexivity].
    intros [H|[H|[H|H]]]; discriminate.
  - split; [reflexivity|]. split; [left; reflexivity|].
    split; reflexivity.
Qed.

(** [enable(0, "basic")] on an enabled Cursor with pointer 40 and surface
    41 commits the 24x24 theme image with its hot spot (4, 4); on a
    disabled one it commits an empty damage rectangle without a buffer. *)
Lemma cursor_enable_basic_examples :
  Cursor.enable Samples.full_theme (Cursor.mk 9 40 41 42 true) 0 "basic"
  = (true, [Cursor.wl_pointer_set_cursor 40 9 41 4 4;
            Cursor.wl_surface_attach 41 77 0 0;
            Cursor.wl_surface_damage 41 0 0 24 24;
            Cursor.wl_surface_commit 41])
  /\ Cursor.enable Samples.full_theme (Cursor.mk 9 40 41 42 false) 0 "basic"
     = (true, [Cursor.wl_pointer_set_cursor 40 9 41 0 0;
               Cursor.wl_surface_damage 41 0 0 0 0;
               Cursor.wl_surface_commit 41]).
Proof. split; reflexivity. Qed.

(* ================================================================== *)
(** * Further properties                                               *)
(* ================================================================== *)

(** ** Seat *)

(** Delivering the same capability mask a second time constructs and
    destroys nothing and leaves the Seat as it was. *)
Theorem seat_same_mask_twice :
  forall (caps : Z) (s : Seat.t),
    let s1 := fst (Seat.handle_capabilities caps s) in
    Seat.handle_capabilities caps s1 = (s1, []).
Proof.
  intros caps s. unfold Seat.handle_capabilities, Seat.update_device.
  destruct s as [c [p|] [k|] [t|] l n]; simpl;
    destruct (Seat.has_cap caps Seat.Pointer) eqn:HP;
    destruct (Seat.has_cap caps Seat.Keyboard) eqn:HK;
    destruct (Seat.has_cap caps Seat.Touch) eqn:HT;
    simpl; rewrite ?HP, ?HK, ?HT; simpl; rewrite ?HP, ?HK, ?HT; reflexivity.
Qed.

(** Per class, a notification does the least possible: a handler that
    stays is the very same object and nothing of its class is constructed
    or destroyed; a handler that appears is one newly allocated object; a
    handler that goes away is destroyed once. *)
Theorem seat_notification_minimal :
  forall (caps : Z) (s : Seat.t) (d : Seat.device),
    let s' := fst (Seat.handle_capabilities caps s) in
    let mine := filter (SeatActions.touches d) (snd (Seat.handle_capabilities caps s)) in
    match Seat.slot d s, Seat.slot d s' with
    | Some a, Some b => a = b /\ mine = []
    | None, Some b => mine = [Seat.Construct (d, b)] /\ (Seat.next_alloc s <= b)%nat
    | Some a, None => mine = [Seat.Destroy (d, a)]
    | None, None => mine = []
    end.
Proof.
  intros caps s d. unfold Seat.handle_capabilities, Seat.update_device.
  destruct s as [c [p|] [k|] [t|] l n]; simpl;
    destruct (Seat.has_cap caps Seat.Pointer) eqn:HP;
    destruct (Seat.has_cap caps Seat.Keyboard) eqn:HK;
    destruct (Seat.has_cap caps Seat.Touch) eqn:HT;
    simpl; destruct d; simpl; repeat split; lia.
Qed.

(** ** Egl: extension lookup *)

Section ExtensionFacts.

Lemma prefix_append (s t : string) : String.prefix s (s ++ t) = true.
Proof.
  induction s as [|a s IH]; simpl.
  - destruct t; reflexivity.
  - destruct (Ascii.ascii_dec a a); [exact IH|contradiction].
Qed.

Lemma index_append_0 (s t : string) : String.index 0 s (s ++ t) = Some 0%nat.
Proof.
  destruct (s ++ t)%string eqn:E.
  - destruct s; [reflexivity|discriminate].
  - pose proof (prefix_append s t) as P. rewrite E in P.
    cbn [String.index]. rewrite P. reflexivity.
Qed.

Lemma get_after_append (s t : string) :
  String.get (String.length s) (s ++ t) = String.get 0 t.
Proof. induction s as [|a s IH]; simpl; [reflexivity|exact IH]. Qed.

End ExtensionFacts.

(** When [has_egl_extension] answers true, the name does occur in the
    extensions string, and the occurrence is followed by a space or by the
    end of the string. *)
Theorem has_egl_extension_sound :
  forall (extensions name : string),
    Egl.has_egl_extension extensions name = true ->
    exists r : nat,
      String.substring r (String.length name) extensions = name
      /\ (String.get (r + String.length name) extensions = Some " "%char
          \/ String.get (r + String.length name) extensions = None).
Proof.
  intros extensions name H. unfold Egl.has_egl_extension in H.
  destruct (String.index 0 name extensions) as [r|] eqn:I; [|discriminate].
  exists r. split; [exact (String.index_correct1 _ _ _ _ I)|].
  destruct (String.get (r + String.length name) extensions) as [c|];
    [|right; reflexivity].
  left. apply Ascii.eqb_eq in H. subst c. reflexivity.
Qed.

Lemma has_egl_extension_sound_witness :
  exists r : nat,
    String.substring r 18 "EGL_KHR_partial_update EGL_EXT_buffer_age"
    = "EGL_EXT_buffer_age"%string
    /\ (String.get (r + 18) "EGL_KHR_partial_update EGL_EXT_buffer_age"
        = Some " "%char
        \/ String.get (r + 18) "EGL_KHR_partial_update EGL_EXT_buffer_age" = None).
Proof.
  apply (has_egl_extension_sound
           "EGL_KHR_partial_update EGL_EXT_buffer_age" "EGL_EXT_buffer_age").
  reflexivity.
Defined.

(** Only the first occurrence of the name is examined.  On a string that
    starts with the name the answer is decided by the one character that
    follows it, whatever comes later: true for a space, false otherwise,
    even if the name occurs again as a complete entry further on.  A
    string equal to the name is accepted. *)
Theorem has_egl_extension_first_occurrence :
  forall (name rest : string) (c : ascii),
    Egl.has_egl_extension (name ++ String c rest) name = Ascii.eqb c " "%char
    /\ Egl.has_egl_extension name name = true.
Proof.
  intros name rest c. unfold Egl.has_egl_extension. split.
  - rewrite index_append_0. simpl Nat.add.
    rewrite get_after_append. reflexivity.
  - assert (A : (name ++ "")%string = name)
      by (clear; induction name; simpl; congruence).
    pose proof (index_append_0 name "") as I.
    pose proof (get_after_append name "") as G.
    rewrite A in I, G. rewrite I. simpl Nat.add. rewrite G. reflexivity.
Qed.

(** ** Egl: what construction leaves behind *)

(** When the implementation returns no config, or none whose buffer size
    reaches 24, construction does not throw: [config_] keeps its null
    initial value and the three contexts are created for the null config,
    the resource and texture contexts sharing with the first one. *)
Theorem egl_no_acceptable_config :
  forall E display d0 major minor count configs,
    Egl.eglInitialize E (Egl.eglGetDisplay E display) = Some (major, minor) ->
    Egl.eglBindAPI E = true ->
    Egl.eglGetConfigs E (Egl.eglGetDisplay E display) = Some count ->
    Egl.eglChooseConfig E (Egl.eglGetDisplay E display) count = Some configs ->
    (forall x, In x configs ->
       exists sx, Egl.eglGetConfigAttrib E (Egl.eglGetDisplay E display) x = Some sx
                  /\ sx < 24) ->
    exists e d,
      Egl.construct E display d0 = Egl.Constructed e d
      /\ Egl.config_ e = 0
      /\ Egl.context_ e
         = Egl.eglCreateContext E 0%nat (Egl.eglGetDisplay E display) 0
             Egl.EGL_NO_CONTEXT
      /\ Egl.resource_context_ e
         = Egl.eglCreateContext E 1%nat (Egl.eglGetDisplay E display) 0
             (Egl.context_ e)
      /\ Egl.texture_context_ e
         = Egl.eglCreateContext E 2%nat (Egl.eglGetDisplay E display) 0
             (Egl.context_ e).
Proof.
  intros E display d0 major minor count configs Hi Hb Hg Hc Hall.
  unfold Egl.construct. rewrite Hi, Hb, Hg, Hc. simpl negb. cbv iota.
  rewrite (select_config_none _ Egl.default_buffer_size configs 0 Hall).
  eexists. eexists. split; [reflexivity|]. repeat split.
Qed.

Lemma egl_no_acceptable_config_witness :
  exists e d,
    Egl.construct Fixtures.shallow_egl 0 Samples.fresh_driver = Egl.Constructed e d
    /\ Egl.config_ e = 0
    /\ Egl.context_ e
       = Egl.eglCreateContext Fixtures.shallow_egl 0%nat
           (Egl.eglGetDisplay Fixtures.shallow_egl 0) 0 Egl.EGL_NO_CONTEXT
    /\ Egl.resource_context_ e
       = Egl.eglCreateContext Fixtures.shallow_egl 1%nat
           (Egl.eglGetDisplay Fixtures.shallow_egl 0) 0 (Egl.context_ e)
    /\ Egl.texture_context_ e
       = Egl.eglCreateContext Fixtures.shallow_egl 2%nat
           (Egl.eglGetDisplay Fixtures.shallow_egl 0) 0 (Egl.context_ e).
Proof.
  apply (egl_no_acceptable_config Fixtures.shallow_egl 0 Samples.fresh_driver
           1 5 2 [11; 12]).
  - reflexivity.
  - reflexivity.
  - reflexivity.
  - reflexivity.
  - intros x [Hx|[Hx|[]]]; subst x.
    + exists 16. split; [reflexivity|lia].
    + exists 8. split; [reflexivity|lia].
Defined.

(** With a driver that accepts every switch, a completed construction
    leaves no context current on the calling thread, whatever was current
    before; it has called [eglMakeCurrent] at most twice and has swapped
    no buffer. *)
Theorem egl_construct_leaves_no_context :
  forall E display d0 e d,
    (forall dpy a b c, Egl.eglMakeCurrent_ok E dpy a b c = true) ->
    Egl.construct E display d0 = Egl.Constructed e d ->
    Egl.current_context d = Egl.EGL_NO_CONTEXT
    /\ (Egl.switches d <= Egl.switches d0 + 2)%nat
    /\ List.length (Egl.calls d) = (List.length (Egl.calls d0)
                                    + (Egl.switches d - Egl.switches d0))%nat.
Proof.
  intros E display d0 e d Hok H. unfold Egl.construct in H.
  destruct (Egl.eglInitialize E _) as [[major minor]|]; [|discriminate].
  destruct (Egl.eglBindAPI E); simpl in H; [|discriminate].
  destruct (Egl.eglGetConfigs E _) as [count|]; [|discriminate].
  destruct (Egl.eglChooseConfig E _ _) as [configs|]; [|discriminate].
  destruct (Egl.select_config _ _ _ _) as [config|]; [|discriminate].
  injection H as _ Hd. subst d.
  unfold Egl.clear_current, Egl.make_current, Egl.eglGetCurrentContext,
    Egl.do_eglMakeCurrent, Egl.switches.
  simpl. rewrite !Hok.
  set (ctx := Egl.eglCreateContext E 0%nat (Egl.eglGetDisplay E display)
                config Egl.EGL_NO_CONTEXT).
  destruct (Z.eqb_spec (Egl.current_context d0) ctx) as [H1|H1]; simpl.
  - destruct (Z.eqb_spec (Egl.current_context d0) Egl.EGL_NO_CONTEXT) as [H2|H2];
      simpl.
    + repeat split; try assumption; lia.
    + rewrite filter_app, !length_app. simpl. repeat split; lia.
  - destruct (Z.eqb_spec ctx Egl.EGL_NO_CONTEXT) as [H2|H2]; simpl.
    + rewrite filter_app, !length_app. simpl. repeat split; try assumption; lia.
    + rewrite !filter_app, !length_app. simpl. repeat split; lia.
Qed.

Lemma egl_construct_leaves_no_context_witness :
  exists e d,
    Egl.construct Samples.good_egl 0 Fixtures.busy_driver = Egl.Constructed e d
    /\ Egl.current_context d = Egl.EGL_NO_CONTEXT
    /\ (Egl.switches d <= Egl.switches Fixtures.busy_driver + 2)%nat.
Proof.
  eexists. eexists. split; [reflexivity|].
  destruct (egl_construct_leaves_no_context Samples.good_egl 0
              Fixtures.busy_driver _ _ (fun _ _ _ _ => eq_refl) eq_refl)
    as (H1 & H2 & _).
  split; [exact H1|exact H2].
Defined.

(** ** XdgWm: event sequences *)

Section XdgRunFacts.
Import XdgWm.

Lemma apply_state_explicit x a :
  apply_state x a =
  set_flags (fullscreen_ x || (XDG_TOPLEVEL_STATE_FULLSCREEN =? a))
            (maximized_ x || (XDG_TOPLEVEL_STATE_MAXIMIZED =? a))
            (resize_ x || (XDG_TOPLEVEL_STATE_RESIZING =? a))
            (activated_ x || (XDG_TOPLEVEL_STATE_ACTIVATED =? a)) x.
Proof.
  unfold apply_state, XDG_TOPLEVEL_STATE_FULLSCREEN, XDG_TOPLEVEL_STATE_MAXIMIZED,
    XDG_TOPLEVEL_STATE_RESIZING, XDG_TOPLEVEL_STATE_ACTIVATED.
  rewrite (Z.eqb_sym 2 a), (Z.eqb_sym 1 a), (Z.eqb_sym 3 a), (Z.eqb_sym 4 a).
  destruct x; unfold set_flags; simpl.
  destruct (Z.eqb_spec a 2) as [->|]; [simpl; rewrite !orb_false_r, !orb_true_r; reflexivity|].
  destruct (Z.eqb_spec a 1) as [->|]; [simpl; rewrite !orb_false_r, !orb_true_r; reflexivity|].
  destruct (Z.eqb_spec a 3) as [->|]; [simpl; rewrite !orb_false_r, !orb_true_r; reflexivity|].
  destruct (Z.eqb_spec a 4) as [->|]; simpl; rewrite !orb_false_r, ?orb_true_r; reflexivity.
Qed.

Lemma fold_apply_state_explicit states : forall x,
  fold_left apply_state states x =
  set_flags (fullscreen_ x || mem XDG_TOPLEVEL_STATE_FULLSCREEN states)
            (maximized_ x || mem XDG_TOPLEVEL_STATE_MAXIMIZED states)
            (resize_ x || mem XDG_TOPLEVEL_STATE_RESIZING states)
            (activated_ x || mem XDG_TOPLEVEL_STATE_ACTIVATED states) x.
Proof.
  induction states as [|a l IH]; intros x.
  - destruct x; unfold set_flags; simpl. rewrite !orb_false_r. reflexivity.
  - cbn [fold_left]. rewrite IH, apply_state_explicit.
    destruct x; unfold set_flags, mem; simpl. rewrite !orb_assoc. reflexivity.
Qed.

(** The handler with its state loop summarised. *)
Lemma handle_toplevel_configure_explicit width height states x :
  handle_toplevel_configure width height states x =
  if (width =? 0) || (height =? 0) then x else
  let y := set_flags (mem XDG_TOPLEVEL_STATE_FULLSCREEN states)
                     (mem XDG_TOPLEVEL_STATE_MAXIMIZED states)
                     (mem XDG_TOPLEVEL_STATE_RESIZING states)
                     (mem XDG_TOPLEVEL_STATE_ACTIVATED states) x in
  if (0 <? width) && (0 <? height) then
    set_geometry (mk_size width height)
      (if negb (fullscreen_ y) && negb (maximized_ y)
       then set_window_size (mk_size width height) y else y)
  else if negb (fullscreen_ y) && negb (maximized_ y) then
    set_geometry (window_size_ y) y
  else y.
Proof.
  unfold handle_toplevel_configure.
  destruct ((width =? 0) || (height =? 0)); [reflexivity|].
  rewrite fold_apply_state_explicit. destruct x; reflexivity.
Qed.

Lemma pongs_app l1 l2 : XdgTrace.pongs (l1 ++ l2) = XdgTrace.pongs l1 ++ XdgTrace.pongs l2.
Proof.
  induction l1 as [|r l1 IH]; simpl; [reflexivity|].
  destruct r; simpl; rewrite IH; reflexivity.
Qed.

Lemma acks_app l1 l2 : XdgTrace.acks (l1 ++ l2) = XdgTrace.acks l1 ++ XdgTrace.acks l2.
Proof.
  induction l1 as [|r l1 IH]; simpl; [reflexivity|].
  destruct r; simpl; rewrite IH; reflexivity.
Qed.

Lemma step_answers E w e :
  XdgTrace.pongs (sent (step E w e)) = XdgTrace.pongs (sent w) ++ XdgTrace.pings [e]
  /\ XdgTrace.acks (sent (step E w e))
     = XdgTrace.acks (sent w) ++ XdgTrace.configures [e].
Proof.
  destruct e as [r n i v|id|b s|xs s|wd ht st| |a|t|px py wd ht pd]; simpl;
    rewrite ?pongs_app, ?acks_app, ?app_nil_r; simpl;
    try (split; reflexivity).
  - unfold registry_handle_global.
    destruct (String.eqb i "xdg_wm_base"); simpl;
      rewrite ?pongs_app, ?acks_app, ?app_nil_r; simpl;
      rewrite ?app_nil_r; split; reflexivity.
  - unfold toplevel_resize.
    destruct (negb (resize_edge px py wd ht pd =? 0));
      split; reflexivity.
Qed.

Lemma step_running E w e :
  running_ (obj (step E w e)) = false \/
  running_ (obj (step E w e)) = running_ (obj w).
Proof.
  destruct e as [r n i v|id|b s|xs s|wd ht st| |a|t|px py wd ht pd]; simpl; auto.
  - unfold registry_handle_global.
    destruct (String.eqb i "xdg_wm_base"); simpl; auto.
  - right. rewrite handle_toplevel_configure_explicit.
    destruct ((wd =? 0) || (ht =? 0)); [reflexivity|].
    destruct (obj w); simpl.
    destruct ((0 <? wd) && (0 <? ht));
      destruct (negb _ && negb _); reflexivity.
  - unfold toplevel_resize.
    destruct (negb (resize_edge px py wd ht pd =? 0)); auto.
Qed.

Lemma step_sizes E w e :
  XdgTrace.unset_or_positive (geometry_ (obj w)) ->
  XdgTrace.unset_or_positive (window_size_ (obj w)) ->
  XdgTrace.unset_or_positive (geometry_ (obj (step E w e)))
  /\ XdgTrace.unset_or_positive (window_size_ (obj (step E w e))).
Proof.
  intros G W. destruct e as [r n i v|id|b s|xs s|wd ht st| |a|t|px py wd ht pd]; simpl; auto.
  - unfold registry_handle_global.
    destruct (String.eqb i "xdg_wm_base"); simpl; auto.
  - rewrite handle_toplevel_configure_explicit.
    destruct ((wd =? 0) || (ht =? 0)); [auto|].
    destruct (obj w); simpl in *.
    destruct ((0 <? wd) && (0 <? ht)) eqn:Hp.
    + apply andb_true_iff in Hp. destruct Hp as [Hw Hh].
      apply Z.ltb_lt in Hw, Hh.
      destruct (negb _ && negb _); simpl; split; auto;
        right; simpl; split; assumption.
    + destruct (negb _ && negb _); simpl; split; auto.
  - unfold toplevel_resize.
    destruct (negb (resize_edge px py wd ht pd =? 0)); auto.
Qed.

End XdgRunFacts.

(** Every ping is answered, once, with a pong on the same object and with
    the same serial, and every surface-configure is acknowledged, once,
    with its own serial: over any sequence of events and method calls the
    pongs sent are the pings received, in order, and the acknowledgements
    sent are the surface-configure events received, in order.  No other
    event produces either request. *)
Theorem xdg_answers_follow_events :
  forall (E : XdgWm.env) (events : list XdgWm.event) (w : XdgWm.world),
    XdgTrace.pongs (XdgWm.sent (XdgWm.run E events w))
    = XdgTrace.pongs (XdgWm.sent w) ++ XdgTrace.pings events
    /\ XdgTrace.acks (XdgWm.sent (XdgWm.run E events w))
       = XdgTrace.acks (XdgWm.sent w) ++ XdgTrace.configures events.
Proof.
  intros E events. induction events as [|e l IH]; intros w.
  - simpl. rewrite !app_nil_r. split; reflexivity.
  - change (XdgWm.run E (e :: l) w) with (XdgWm.run E l (XdgWm.step E w e)).
    destruct (IH (XdgWm.step E w e)) as [P A].
    destruct (step_answers E w e) as [P1 A1].
    rewrite P, A, P1, A1, <- !app_assoc. split.
    + f_equal. destruct e; reflexivity.
    + f_equal. destruct e; reflexivity.
Qed.

(** [running_] starts false and no handler sets it: it is false in every
    state an XdgWm can reach, before and after a toplevel-close event. *)
Theorem xdg_running_never_true :
  forall (E : XdgWm.env) (display base_surface : Z) (events : list XdgWm.event),
    XdgWm.running_
      (XdgWm.obj (XdgWm.run E events (XdgWm.construct E display base_surface)))
    = false.
Proof.
  intros E display base_surface events.
  assert (H : forall w, XdgWm.running_ (XdgWm.obj w) = false ->
                        XdgWm.running_ (XdgWm.obj (XdgWm.run E events w)) = false).
  { induction events as [|e l IH]; intros w Hw; [exact Hw|].
    change (XdgWm.run E (e :: l) w) with (XdgWm.run E l (XdgWm.step E w e)).
    apply IH. destruct (step_running E w e) as [H|H]; congruence. }
  apply H. reflexivity.
Qed.

(** In every state an XdgWm can reach, the geometry and the nominal window
    size are each either still 0x0 or have two positive dimensions;
    configure events with a negative dimension never get stored. *)
Theorem xdg_sizes_never_negative :
  forall (E : XdgWm.env) (display base_surface : Z) (events : list XdgWm.event),
    let x := XdgWm.obj (XdgWm.run E events (XdgWm.construct E display base_surface)) in
    XdgTrace.unset_or_positive (XdgWm.geometry_ x)
    /\ XdgTrace.unset_or_positive (XdgWm.window_size_ x).
Proof.
  intros E display base_surface events.
  assert (H : forall w,
             XdgTrace.unset_or_positive (XdgWm.geometry_ (XdgWm.obj w)) ->
             XdgTrace.unset_or_positive (XdgWm.window_size_ (XdgWm.obj w)) ->
             XdgTrace.unset_or_positive
               (XdgWm.geometry_ (XdgWm.obj (XdgWm.run E events w)))
             /\ XdgTrace.unset_or_positive
                  (XdgWm.window_size_ (XdgWm.obj (XdgWm.run E events w)))).
  { induction events as [|e l IH]; intros w G W; [split; assumption|].
    change (XdgWm.run E (e :: l) w) with (XdgWm.run E l (XdgWm.step E w e)).
    destruct (step_sizes E w e G W) as [G1 W1]. apply IH; assumption. }
  apply H; left; split; reflexivity.
Qed.

(** Delivering the same toplevel-configure event a second time changes
    nothing. *)
Theorem toplevel_configure_idempotent :
  forall (width height : Z) (states : list Z) (x : XdgWm.t),
    XdgWm.handle_toplevel_configure width height states
      (XdgWm.handle_toplevel_configure width height states x)
    = XdgWm.handle_toplevel_configure width height states x.
Proof.
  intros width height states x.
  rewrite !handle_toplevel_configure_explicit.
  destruct ((width =? 0) || (height =? 0)) eqn:Z0; [reflexivity|].
  destruct x; simpl.
  destruct ((0 <? width) && (0 <? height)) eqn:P;
    destruct (XdgWm.mem XdgWm.XDG_TOPLEVEL_STATE_FULLSCREEN states);
    destruct (XdgWm.mem XdgWm.XDG_TOPLEVEL_STATE_MAXIMIZED states);
    simpl; rewrite ?Z0, ?P; simpl; reflexivity.
Qed.

(** ** Window: the frame loop over time *)

Section FrameLoopFacts.
Import Window.

Lemma framing_construct surface first draw :
  0 < first -> Frames.framing (construct surface first draw).
Proof.
  intros H. unfold Frames.framing, construct, start_frames, created, stop_frames, on_frame.
  simpl. destruct draw; simpl; repeat split; lia.
Qed.

Lemma destroy_only_live win0 c n k t :
  do_wl_callback_destroy c (mk_world win0 [c] n k t)
  = mk_world win0 [] n k (t ++ [wl_callback_destroy c]).
Proof.
  unfold do_wl_callback_destroy, is_live, emit. cbn. rewrite Z.eqb_refl. reflexivity.
Qed.

Lemma on_frame_idle s c0 d n k t time :
  on_frame 0 time (mk_world (mk s c0 d) [] n k t)
  = mk_world (mk s n d) [n] (n + 1) k
      (t ++ (if d then [draw_callback time] else [])
         ++ [wl_surface_frame s n; wl_callback_add_listener n; wl_surface_commit s]).
Proof.
  unfold on_frame. cbn. destruct d; unfold emit, set_callback; cbn;
    rewrite <- ?app_assoc; reflexivity.
Qed.

Lemma on_frame_fired s c d n k t time :
  c <> 0 ->
  on_frame c time (mk_world (mk s c d) [c] n k t)
  = mk_world (mk s n d) [n] (n + 1) k
      (t ++ [wl_callback_destroy c]
         ++ (if d then [draw_callback time] else [])
         ++ [wl_surface_frame s n; wl_callback_add_listener n; wl_surface_commit s]).
Proof.
  intros Hc. unfold on_frame.
  change (set_callback 0 (mk_world (mk s c d) [c] n k t))
    with (mk_world (mk s 0 d) [c] n k t).
  apply Z.eqb_neq in Hc. rewrite Hc. cbn [negb].
  rewrite destroy_only_live. cbn. destruct d; unfold emit, set_callback; cbn;
    rewrite <- ?app_assoc; reflexivity.
Qed.

Lemma start_frames_framing s c d n k t :
  c <> 0 ->
  start_frames (mk_world (mk s c d) [c] n k t)
  = mk_world (mk s n d) [n] (n + 1) k
      (t ++ [wl_callback_destroy c]
         ++ (if d then [draw_callback 0] else [])
         ++ [wl_surface_frame s n; wl_callback_add_listener n; wl_surface_commit s]).
Proof.
  intros Hc. unfold start_frames, stop_frames. cbn [win wl_callback_].
  apply Z.eqb_neq in Hc. rewrite Hc. cbn [negb].
  rewrite destroy_only_live, on_frame_idle. rewrite <- !app_assoc. reflexivity.
Qed.
Lemma framing_step w o :
  Frames.framing w ->
  Frames.framing (Frames.step w o)
  /\ has_draw_callback (win (Frames.step w o)) = has_draw_callback (win w)
  /\ wl_surface_ (win (Frames.step w o)) = wl_surface_ (win w)
  /\ trace (Frames.step w o) =
     trace w
     ++ [wl_callback_destroy (wl_callback_ (win w))]
     ++ (if has_draw_callback (win w)
         then [draw_callback (match o with
                              | Frames.call_start_frames => 0
                              | Frames.frame_done time => time
                              end)]
         else [])
     ++ [wl_surface_frame (wl_surface_ (win w)) (next_callback w);
         wl_callback_add_listener (next_callback w);
         wl_surface_commit (wl_surface_ (win w))].
Proof.
  intros (L & C & S).
  destruct w as [[s c d] l n k t]. cbn in L, C, S. subst l k.
  assert (Hc : c <> 0) by lia.
  destruct o as [|time]; cbn [Frames.step win wl_callback_];
    [rewrite (start_frames_framing s c d n 0%nat t Hc)
    |rewrite (on_frame_fired s c d n 0%nat t time Hc)];
    unfold Frames.framing; cbn;
    (split; [split; [reflexivity|split; [lia|reflexivity]]|repeat split]).
Qed.

Lemma draws_app l1 l2 : draws (l1 ++ l2) = (draws l1 + draws l2)%nat.
Proof. unfold draws. rewrite filter_app, length_app. reflexivity. Qed.

Lemma framing_run ops : forall w,
  Frames.framing w ->
  Frames.framing (Frames.run ops w)
  /\ has_draw_callback (win (Frames.run ops w)) = has_draw_callback (win w)
  /\ draws (trace (Frames.run ops w)) =
     (draws (trace w)
      + if has_draw_callback (win w) then List.length ops else 0)%nat.
Proof.
  induction ops as [|o l IH]; intros w F.
  - simpl. split; [exact F|]. split; [reflexivity|].
    destruct (has_draw_callback (win w)); lia.
  - change (Frames.run (o :: l) w) with (Frames.run l (Frames.step w o)).
    destruct (framing_step w o F) as (F1 & D1 & _ & T1).
    destruct (IH _ F1) as (F2 & D2 & N2).
    split; [exact F2|]. split; [congruence|].
    rewrite N2, D1, T1, !draws_app.
    destruct (has_draw_callback (win w)); unfold draws; simpl; lia.
Qed.

End FrameLoopFacts.

(** From construction on, through any interleaving of [start_frames]
    calls and frame callbacks fired by the compositor, a Window has exactly
    one frame callback outstanding, the one its [wl_callback_] names, and
    never destroys a callback twice; a registered draw callback has been
    invoked once by the constructor plus once per call or callback. *)
Theorem frame_loop_keeps_one_subscription :
  forall (surface first : Z) (draw : bool) (ops : list Frames.op),
    0 < first ->
    let w := Frames.run ops (Window.construct surface first draw) in
    Window.live w = [Window.wl_callback_ (Window.win w)]
    /\ Window.wl_callback_ (Window.win w) <> 0
    /\ Window.stale_destroys w = 0%nat
    /\ Window.draws (Window.trace w)
       = (if draw then S (List.length ops) else 0%nat).
Proof.
  intros surface first draw ops H w.
  destruct (framing_run ops _ (framing_construct surface first draw H))
    as ((L & C & S) & _ & N).
  fold w in L, C, S, N.
  split; [exact L|]. split; [lia|]. split; [exact S|].
  rewrite N. destruct draw; reflexivity.
Qed.

Lemma frame_loop_keeps_one_subscription_witness :
  let w := Frames.run [Frames.frame_done 16; Frames.call_start_frames;
                       Frames.frame_done 33]
             (Window.construct 31 100 true) in
  Window.live w = [Window.wl_callback_ (Window.win w)]
  /\ Window.wl_callback_ (Window.win w) <> 0
  /\ Window.stale_destroys w = 0%nat
  /\ Window.draws (Window.trace w) = 4%nat.
Proof.
  apply (frame_loop_keeps_one_subscription 31 100 true
           [Frames.frame_done 16; Frames.call_start_frames; Frames.frame_done 33]).
  lia.
Defined.

(** ** Output *)

Section OutputFacts.
Import Output.

Lemma run_app l1 l2 o : run (l1 ++ l2) o = run l2 (run l1 o).
Proof. unfold run. apply fold_left_app. Qed.

Lemma run_without_geometry post : forall o,
  existsb is_geometry post = false ->
  output_ (run post o) =
  mk_info (geometry_of (output_ o))
          (last_mode post (mode_of (output_ o)))
          (done (output_ o) || existsb is_done post)
          (last_scale post (scale (output_ o)))
          (last_name post (name (output_ o)))
          (last_description post (description (output_ o))).
Proof.
  induction post as [|e l IH]; intros o H.
  - simpl. rewrite orb_false_r. destruct o as [[g m d s n ds] v h]. reflexivity.
  - change (run (e :: l) o) with (run l (step o e)).
    destruct e; simpl in H; try discriminate;
      rewrite (IH _ H); destruct o as [[g0 m0 d0 s0 n0 ds0] v h]; simpl;
      rewrite ?orb_true_r; reflexivity.
Qed.

End OutputFacts.

(** A geometry event starts the description of an output afresh: what the
    Output holds after it, and after the events that follow, does not
    depend on anything received or stored before it, in particular not on
    the uninitialised contents the constructor left. *)
Theorem output_geometry_resets :
  forall (before after : list Output.event) (g : Output.geometry) (o o' : Output.t),
    Output.output_ (Output.run (before ++ Output.ev_geometry g :: after) o)
    = Output.output_ (Output.run (Output.ev_geometry g :: after) o').
Proof.
  intros before after g o o'. rewrite run_app.
  change (Output.run (Output.ev_geometry g :: after) ?x)
    with (Output.run after (Output.handle_geometry g x)).
  assert (H : forall a b : Output.t,
             Output.output_ a = Output.output_ b ->
             Output.output_ (Output.run after a)
             = Output.output_ (Output.run after b)).
  { induction after as [|e l IH]; intros a b Hab; [exact Hab|].
    change (Output.run (e :: l) ?x) with (Output.run l (Output.step x e)).
    apply IH. destruct e; simpl;
      unfold Output.handle_geometry, Output.handle_mode, Output.handle_done,
        Output.handle_scale, Output.handle_name, Output.handle_description;
      simpl; rewrite ?Hab; reflexivity. }
  apply H. reflexivity.
Qed.

(** After a geometry event followed by events none of which is a geometry
    event, the Output holds that geometry; the mode, scale, name and
    description are the ones delivered last after it, or zero, absent and
    empty when none was; and [done] is set exactly when a done event
    followed.  A later geometry event would discard all of them. *)
Theorem output_after_geometry :
  forall (before after : list Output.event) (g : Output.geometry) (o : Output.t),
    existsb Output.is_geometry after = false ->
    Output.output_ (Output.run (before ++ Output.ev_geometry g :: after) o)
    = Output.mk_info g
        (Output.last_mode after (Output.mk_mode 0 0 0 0))
        (existsb Output.is_done after)
        (Output.last_scale after None)
        (Output.last_name after "")
        (Output.last_description after "").
Proof.
  intros before after g o H. rewrite run_app.
  change (Output.run (Output.ev_geometry g :: after) ?x)
    with (Output.run after (Output.handle_geometry g x)).
  rewrite (run_without_geometry after _ H). reflexivity.
Qed.

Lemma output_after_geometry_witness :
  Output.output_
    (Output.run ([Output.ev_mode (Output.mk_mode 1 800 600 60000); Output.ev_done]
                 ++ Output.ev_geometry (Output.mk_geometry 0 0 300 200 0 51 52 0)
                 :: [Output.ev_scale 2; Output.ev_done])
       (Output.construct 61 4 (Output.mk_geometry 9 9 9 9 9 9 9 9)
          (Output.mk_mode 9 9 9 9) true))
  = Output.mk_info (Output.mk_geometry 0 0 300 200 0 51 52 0)
      (Output.mk_mode 0 0 0 0) true (Some 2) "" "".
Proof.
  apply (output_after_geometry
           [Output.ev_mode (Output.mk_mode 1 800 600 60000); Output.ev_done]
           [Output.ev_scale 2; Output.ev_done]).
  reflexivity.
Defined.

(** ** Keyboard *)

Section KeyboardFacts.
Import Keyboard.

Lemma keymaps_released_app l1 l2 :
  keymaps_released (l1 ++ l2) = keymaps_released l1 ++ keymaps_released l2.
Proof.
  induction l1 as [|e l1 IH]; simpl; [reflexivity|].
  destruct e; simpl; rewrite IH; reflexivity.
Qed.

Lemma states_released_app l1 l2 :
  states_released (l1 ++ l2) = states_released l1 ++ states_released l2.
Proof.
  induction l1 as [|e l1 IH]; simpl; [reflexivity|].
  destruct e; simpl; rewrite IH; reflexivity.
Qed.

(** What one event does to the keymap and state handles. *)
Lemma step_handles w e :
  keymaps_released (trace (step w e)) ++ [keymap_ (kbd (step w e))]
  = keymaps_released (trace w) ++ keymap_ (kbd w) :: keymaps_delivered [e]
  /\ states_released (trace (step w e)) ++ [xkb_state_ (kbd (step w e))]
     = states_released (trace w) ++ xkb_state_ (kbd w) :: states_delivered [e].
Proof.
  destruct w as [[kb af cx km st ks ti rr] src nx tr].
  destruct e as [f fd sz p m s|s sf|s sf|s t k s'|s d l lk g|r d|id]; cbn;
    rewrite ?keymaps_released_app, ?states_released_app; cbn;
    rewrite ?app_nil_r, <- ?app_assoc; try (split; reflexivity).
  unfold timer_fires, handle_repeat. cbn.
  destruct (existsb (Z.eqb id) src); [|split; reflexivity].
  destruct (rr =? 0); cbn;
    rewrite ?keymaps_released_app, ?states_released_app; cbn;
    rewrite ?app_nil_r; split; reflexivity.
Qed.

(** What one event does to the focus. *)
Lemma step_focus w e :
  active_surface_ (kbd (step w e)) =
  match e with
  | ev_enter _ surface => surface
  | ev_leave _ _ => 0
  | _ => active_surface_ (kbd w)
  end.
Proof.
  destruct w as [[kb af cx km st ks ti rr] src nx tr].
  destruct e as [f fd sz p m s|s sf|s sf|s t k s'|s d l lk g|r d|id]; cbn;
    try reflexivity.
  unfold timer_fires, handle_repeat. cbn.
  destruct (existsb (Z.eqb id) src); [|reflexivity].
  destruct (rr =? 0); reflexivity.
Qed.

Lemma run_keeps_focus post : forall w,
  existsb is_focus post = false ->
  active_surface_ (kbd (run post w)) = active_surface_ (kbd w).
Proof.
  induction post as [|e l IH]; intros w H; [reflexivity|].
  change (run (e :: l) w) with (run l (step w e)).
  simpl in H. apply orb_false_iff in H. destruct H as [He Hl].
  rewrite (IH _ Hl), step_focus. destruct e; try reflexivity; discriminate.
Qed.

(** Timers and the repeat rate, event by event. *)
Lemma step_timers w e :
  timers_need_rate w -> repeat_stays_on e = true ->
  timers_need_rate (step w e)
  /\ (List.length (sources w) <= List.length (sources (step w e)))%nat
  /\ match e with
     | ev_timer id =>
         In id (sources w) ->
         List.length (sources (step w e)) = S (List.length (sources w))
     | ev_repeat_info _ _ =>
         List.length (sources (step w e)) = S (S (List.length (sources w)))
     | _ => sources (step w e) = sources w
     end.
Proof.
  intros I R. unfold timers_need_rate in *.
  destruct w as [[kb af cx km st ks ti rr] src nx tr]. cbn in I.
  destruct e as [f fd sz p m s|s sf|s sf|s t k s'|s d l lk g|r d|id]; cbn;
    try (split; [exact I|split; [lia|reflexivity]]).
  - cbn in R. apply negb_true_iff, Z.eqb_neq in R.
    split; [intros _; exact R|]. split; [lia|reflexivity].
  - unfold timer_fires, handle_repeat. cbn.
    destruct (existsb (Z.eqb id) src) eqn:A.
    + assert (Hs : src <> []) by (intros ->; discriminate).
      specialize (I Hs). apply Z.eqb_neq in I. rewrite I. cbn.
      split; [intros _; apply Z.eqb_neq; exact I|]. split; [lia|auto].
    + cbn. split; [exact I|]. split; [lia|].
      intros Hin. exfalso.
      assert (existsb (Z.eqb id) src = true)
        by (apply existsb_exists; exists id; split; [exact Hin|apply Z.eqb_refl]).
      congruence.
Qed.

End KeyboardFacts.

(** Keyboard focus follows the last enter or leave event: after an enter
    event the active surface is the one entered, after a leave event it is
    null whichever surface the event named, and no other event (keymap,
    key, modifiers, repeat info, timer) changes it. *)
Theorem keyboard_focus_follows_last_event :
  forall (before after : list Keyboard.event) (serial surface : Z)
         (w : Keyboard.world),
    existsb Keyboard.is_focus after = false ->
    Keyboard.active_surface_
      (Keyboard.kbd
         (Keyboard.run (before ++ Keyboard.ev_enter serial surface :: after) w))
    = surface
    /\ Keyboard.active_surface_
         (Keyboard.kbd
            (Keyboard.run (before ++ Keyboard.ev_leave serial surface :: after) w))
       = 0.
Proof.
  intros before after serial surface w H. unfold Keyboard.run.
  rewrite !fold_left_app. cbn [fold_left].
  split.
  - rewrite (run_keeps_focus after _ H). apply step_focus.
  - rewrite (run_keeps_focus after _ H). apply step_focus.
Qed.

Lemma keyboard_focus_follows_last_event_witness :
  Keyboard.active_surface_
    (Keyboard.kbd
       (Keyboard.run ([Keyboard.ev_leave 1 70]
                      ++ Keyboard.ev_enter 2 71 :: [Keyboard.ev_key 3 10 30 1])
          (Keyboard.construct 80 81 1)))
  = 71
  /\ Keyboard.active_surface_
       (Keyboard.kbd
          (Keyboard.run ([Keyboard.ev_leave 1 70]
                         ++ Keyboard.ev_leave 2 71 :: [Keyboard.ev_key 3 10 30 1])
             (Keyboard.construct 80 81 1)))
     = 0.
Proof.
  apply (keyboard_focus_follows_last_event [Keyboard.ev_leave 1 70]
           [Keyboard.ev_key 3 10 30 1] 2 71 (Keyboard.construct 80 81 1)).
  reflexivity.
Defined.

(** Every keymap event releases the keymap and the state held before it
    installs the new ones: over any sequence of events, the handles passed
    to [xkb_keymap_unref], followed by the keymap now held, are the keymap
    held at the start followed by the keymaps delivered, in order; the
    same holds for [xkb_state_unref] and the states. *)
Theorem keyboard_keymaps_released_in_turn :
  forall (events : list Keyboard.event) (w : Keyboard.world),
    Keyboard.keymaps_released (Keyboard.trace (Keyboard.run events w))
      ++ [Keyboard.keymap_ (Keyboard.kbd (Keyboard.run events w))]
    = Keyboard.keymaps_released (Keyboard.trace w)
      ++ Keyboard.keymap_ (Keyboard.kbd w) :: Keyboard.keymaps_delivered events
    /\ Keyboard.states_released (Keyboard.trace (Keyboard.run events w))
         ++ [Keyboard.xkb_state_ (Keyboard.kbd (Keyboard.run events w))]
       = Keyboard.states_released (Keyboard.trace w)
         ++ Keyboard.xkb_state_ (Keyboard.kbd w) :: Keyboard.states_delivered events.
Proof.
  induction events as [|e l IH]; intros w.
  - split; reflexivity.
  - change (Keyboard.run (e :: l) w) with (Keyboard.run l (Keyboard.step w e)).
    destruct (IH (Keyboard.step w e)) as [K S].
    destruct (step_handles w e) as [K1 S1].
    split.
    + rewrite K.
      change (?a ++ ?k :: ?d) with (a ++ [k] ++ d). rewrite app_assoc, K1.
      rewrite <- app_assoc. f_equal. destruct e; reflexivity.
    + rewrite S.
      change (?a ++ ?k :: ?d) with (a ++ [k] ++ d). rewrite app_assoc, S1.
      rewrite <- app_assoc. f_equal. destruct e; reflexivity.
Qed.

(** While the advertised repeat rate is never zero, key-repeat timers only
    accumulate: every repeat-info event attaches two timers, every firing
    of an attached timer attaches one more and keeps the one that fired,
    and no event detaches any. *)
Theorem keyboard_repeat_timers_accumulate :
  forall (keyboard context first : Z) (events : list Keyboard.event)
         (e : Keyboard.event),
    forallb Keyboard.repeat_stays_on (events ++ [e]) = true ->
    let w := Keyboard.run events (Keyboard.construct keyboard context first) in
    (List.length (Keyboard.sources w)
     <= List.length (Keyboard.sources (Keyboard.step w e)))%nat
    /\ match e with
       | Keyboard.ev_timer id =>
           In id (Keyboard.sources w) ->
           List.length (Keyboard.sources (Keyboard.step w e))
           = S (List.length (Keyboard.sources w))
       | Keyboard.ev_repeat_info _ _ =>
           List.length (Keyboard.sources (Keyboard.step w e))
           = S (S (List.length (Keyboard.sources w)))
       | _ => Keyboard.sources (Keyboard.step w e) = Keyboard.sources w
       end.
Proof.
  intros keyboard context first events e H w.
  rewrite forallb_app in H. apply andb_true_iff in H. destruct H as [He H1].
  simpl in H1. rewrite andb_true_r in H1.
  assert (I : Keyboard.timers_need_rate w).
  { subst w.
    assert (G : forall w0, Keyboard.timers_need_rate w0 ->
                           Keyboard.timers_need_rate (Keyboard.run events w0)).
    { induction events as [|a l IH]; intros w0 I0; [exact I0|].
      change (Keyboard.run (a :: l) w0) with (Keyboard.run l (Keyboard.step w0 a)).
      simpl in He. apply andb_true_iff in He. destruct He as [Ha Hl].
      apply (IH Hl). apply (step_timers w0 a I0 Ha). }
    apply G. intros Hn. exfalso. apply Hn. reflexivity. }
  destruct (step_timers w e I H1) as (_ & M & D). split; assumption.
Qed.

Lemma keyboard_repeat_timers_accumulate_witness :
  let w := Keyboard.run [Keyboard.ev_repeat_info 25 600]
             (Keyboard.construct 80 81 1) in
  (List.length (Keyboard.sources w)
   <= List.length (Keyboard.sources (Keyboard.step w (Keyboard.ev_timer 2))))%nat
  /\ (In 2 (Keyboard.sources w) ->
      List.length (Keyboard.sources (Keyboard.step w (Keyboard.ev_timer 2)))
      = S (List.length (Keyboard.sources w))).
Proof.
  apply (keyboard_repeat_timers_accumulate 80 81 1
           [Keyboard.ev_repeat_info 25 600] (Keyboard.ev_timer 2)).
  reflexivity.
Defined.

(** ** Pointer *)

Section PointerFacts.
Import Pointer.



Lemma int_fits x : fits x -> int x = x.
Proof.
  unfold fits, int. intros H. rewrite Z.mod_small by lia. lia.
Qed.

End PointerFacts.


(** The two edge classifiers, [XdgWm::toplevel_resize] and
    [component_edge], compute the same four tests (the pointer is above
    the top margin, below the bottom one, left of the left one, right of
    the right one, the margins being subtracted in [int]).  They give the
    same answer unless the pointer is within both the left and the right
    margin: there the first answers with the right edge and the second
    with the left edge of the same row.  Both answer NONE exactly for a
    pointer inside all four margins.  Unless the subtraction overflows,
    the two differ only in a window narrower than two margins. *)
Theorem resize_edge_classifiers :
  forall (x y width height margin : Z),
    let left := x <? margin in
    let right := XdgWm.int (width - margin) <? x in
    let row :=
      if y <? margin then XdgWm.XDG_TOPLEVEL_RESIZE_EDGE_TOP
      else if XdgWm.int (height - margin) <? y
           then XdgWm.XDG_TOPLEVEL_RESIZE_EDGE_BOTTOM
           else XdgWm.XDG_TOPLEVEL_RESIZE_EDGE_NONE in
    (left && right = false ->
     XdgWm.resize_edge x y width height margin
     = Pointer.component_edge width height x y margin)
    /\ (left && right = true ->
        XdgWm.resize_edge x y width height margin
        = row + XdgWm.XDG_TOPLEVEL_RESIZE_EDGE_RIGHT
        /\ Pointer.component_edge width height x y margin
           = row + XdgWm.XDG_TOPLEVEL_RESIZE_EDGE_LEFT)
    /\ (Pointer.component_edge width height x y margin
        = XdgWm.XDG_TOPLEVEL_RESIZE_EDGE_NONE
        <-> margin <= x <= XdgWm.int (width - margin)
            /\ margin <= y <= XdgWm.int (height - margin))
    /\ (XdgWm.resize_edge x y width height margin
        = XdgWm.XDG_TOPLEVEL_RESIZE_EDGE_NONE
        <-> margin <= x <= XdgWm.int (width - margin)
            /\ margin <= y <= XdgWm.int (height - margin))
    /\ (Pointer.fits (width - margin) -> left && right = true ->
        width < 2 * margin).
Proof.
  intros x y width height margin left right row. subst left right row.
  assert (F : Pointer.fits (width - margin) ->
              XdgWm.int (width - margin) = width - margin)
    by (intros Hf; apply (int_fits _ Hf)).
  unfold Pointer.component_edge, XdgWm.resize_edge.
  change Pointer.int with XdgWm.int.
  set (w := XdgWm.int (width - margin)) in *.
  set (h := XdgWm.int (height - margin)).
  unfold XdgWm.XDG_TOPLEVEL_RESIZE_EDGE_NONE, XdgWm.XDG_TOPLEVEL_RESIZE_EDGE_TOP,
    XdgWm.XDG_TOPLEVEL_RESIZE_EDGE_BOTTOM, XdgWm.XDG_TOPLEVEL_RESIZE_EDGE_LEFT,
    XdgWm.XDG_TOPLEVEL_RESIZE_EDGE_TOP_LEFT, XdgWm.XDG_TOPLEVEL_RESIZE_EDGE_BOTTOM_LEFT,
    XdgWm.XDG_TOPLEVEL_RESIZE_EDGE_RIGHT, XdgWm.XDG_TOPLEVEL_RESIZE_EDGE_TOP_RIGHT,
    XdgWm.XDG_TOPLEVEL_RESIZE_EDGE_BOTTOM_RIGHT.
  destruct (Z.ltb_spec y margin), (Z.ltb_spec h y),
    (Z.ltb_spec x margin), (Z.ltb_spec w x); cbn -[Z.mul];
    (split; [intros; try reflexivity; discriminate|]);
    (split; [intros; try discriminate; split; reflexivity|]);
    (split; [split; try discriminate; intros; lia|]);
    (split; [split; try discriminate; intros; lia|]);
    intros Hf Hlr; try discriminate; pose proof (F Hf); lia.
Qed.

Lemma resize_edge_classifiers_witness :
  XdgWm.resize_edge 3 100 10 200 8 = XdgWm.XDG_TOPLEVEL_RESIZE_EDGE_RIGHT
  /\ Pointer.component_edge 10 200 3 100 8 = XdgWm.XDG_TOPLEVEL_RESIZE_EDGE_LEFT.
Proof.
  destruct (resize_edge_classifiers 3 100 10 200 8) as (_ & H & _).
  exact (H eq_refl).
Defined.

(** ** Display *)

Section DisplayFacts.
Import Display.

Lemma notify_explicit r n i v w :
  notify r n i v w =
  mk_world (dpy w)
    (trace w ++ map (fun cb => callback (fst cb) (snd cb) r n i v)
                    (callbacks_ (dpy w))).
Proof.
  unfold notify. generalize (callbacks_ (dpy w)) as l. intros l.
  revert w. induction l as [|cb l IH]; intros w.
  - simpl. rewrite app_nil_r. destruct w; reflexivity.
  - cbn [fold_left map]. rewrite IH. unfold emit. cbn.
    rewrite <- app_assoc. reflexivity.
Qed.

(** The effects and the field updates of one global event. *)
Lemma global_explicit E r n i v w :
  let w' := registry_handle_global E r n i v w in
  trace w' =
    trace w
    ++ (match ceiling i with
        | Some c => [bound r n i (Z.min c v)]
        | None => []
        end)
    ++ map (fun cb => callback (fst cb) (snd cb) r n i v) (callbacks_ (dpy w))
  /\ callbacks_ (dpy w') = callbacks_ (dpy w)
  /\ has_xrgb_ (dpy w') = has_xrgb_ (dpy w)
  /\ enable_cursor_ (dpy w') = enable_cursor_ (dpy w)
  /\ ((i =? "wl_shm")%string = false -> wl_shm_ (dpy w') = wl_shm_ (dpy w))
  /\ ((i =? "wl_compositor")%string = false ->
      wl_compositor_ (dpy w') = wl_compositor_ (dpy w))
  /\ ((i =? "wl_seat")%string = true ->
      lookup (wl_registry_bind E r n i (Z.min 5 v)) (wl_seats_ (dpy w'))
      = Some (mk_seat (wl_registry_bind E r n i (Z.min 5 v)) (wl_shm_ (dpy w))
                (wl_compositor_ (dpy w)) (enable_cursor_ (dpy w)) v Seat.init))
  /\ ((i =? "wl_output")%string = true ->
      lookup (wl_registry_bind E r n i (Z.min 2 v)) (wl_outputs_ (dpy w'))
      = Some (Output.construct (wl_registry_bind E r n i (Z.min 2 v)) v
                (storage_geometry E) (storage_mode E) (storage_done E))).
Proof.
  unfold registry_handle_global, ceiling.
  destruct w as [d t].
  destruct (String.eqb_spec i "wl_compositor") as [->|N1].
  { rewrite notify_explicit. cbn. rewrite <- app_assoc.
    repeat split; try reflexivity; discriminate. }
  destruct (String.eqb_spec i "wl_subcompositor") as [->|N2].
  { rewrite notify_explicit. cbn. rewrite <- app_assoc.
    repeat split; try reflexivity; discriminate. }
  destruct (String.eqb_spec i "wl_shm") as [->|N3].
  { rewrite notify_explicit. cbn. rewrite <- app_assoc.
    repeat split; try reflexivity; discriminate. }
  destruct (String.eqb_spec i "wl_output") as [->|N4].
  { rewrite notify_explicit. cbn. rewrite <- app_assoc.
    repeat split; try reflexivity; try discriminate.
    intros _. rewrite Z.eqb_refl. reflexivity. }
  destruct (String.eqb_spec i "wl_seat") as [->|N5].
  { rewrite notify_explicit. cbn. rewrite <- app_assoc.
    repeat split; try reflexivity; try discriminate.
    intros _. rewrite Z.eqb_refl. reflexivity. }
  rewrite notify_explicit. cbn.
  repeat split; try reflexivity; discriminate.
Qed.

Lemma step_explicit E w o :
  filter is_bound (trace (step E w o))
  = filter is_bound (trace w) ++ expected_binds [o]
  /\ filter (fun e => negb (is_bound e)) (trace (step E w o))
     = filter (fun e => negb (is_bound e)) (trace w)
       ++ expected_calls [o] (callbacks_ (dpy w))
  /\ callbacks_ (dpy (step E w o))
     = callbacks_ (dpy w)
       ++ match o with
          | call_add_registrar_callback id data => [(id, data)]
          | _ => []
          end
  /\ has_xrgb_ (dpy (step E w o)) = has_xrgb_ (dpy w) || is_xrgb o
  /\ enable_cursor_ (dpy (step E w o)) = enable_cursor_ (dpy w)
  /\ (announces "wl_shm" o = false ->
      wl_shm_ (dpy (step E w o)) = wl_shm_ (dpy w))
  /\ (announces "wl_compositor" o = false ->
      wl_compositor_ (dpy (step E w o)) = wl_compositor_ (dpy w)).
Proof.
  destruct o as [r n i v|id|f|id data]; cbn [step].
  - destruct (global_explicit E r n i v w) as (T & C & X & En & S & Cm & _).
    rewrite T, C, X, En, !filter_app. cbn [expected_binds expected_calls announces is_xrgb].
    rewrite app_nil_r, orb_false_r.
    assert (F1 : forall l, filter is_bound
                             (map (fun cb => callback (fst cb) (snd cb) r n i v) l) = [])
      by (induction l; simpl; auto).
    assert (F2 : forall l : list (nat * Z),
               filter (fun e => negb (is_bound e))
                 (map (fun cb => callback (fst cb) (snd cb) r n i v) l)
               = map (fun cb => callback (fst cb) (snd cb) r n i v) l)
      by (induction l; simpl; congruence).
    rewrite F1, F2, app_nil_r.
    destruct (ceiling i); cbn; rewrite ?app_nil_r; repeat split; auto.
  - cbn. rewrite !app_nil_r, orb_false_r. repeat split.
  - unfold shm_format. cbn [expected_binds expected_calls is_xrgb announces].
    rewrite !app_nil_r.
    destruct (f =? WL_SHM_FORMAT_XRGB8888); cbn;
      rewrite ?orb_true_r, ?orb_false_r; repeat split.
  - cbn. rewrite !app_nil_r, orb_false_r. repeat split.
Qed.

End DisplayFacts.

(** The Display binds exactly the five interfaces it knows, once per
    announcement and in the order announced, each at the smaller of its
    hard-coded ceiling (1 for wl_compositor, wl_subcompositor and wl_shm,
    2 for wl_output, 5 for wl_seat) and the version offered; globals of any
    other interface are never bound. *)
Theorem display_binds_bounded_versions :
  forall (E : Display.env) (ops : list Display.op) (w : Display.world),
    filter Display.is_bound (Display.trace (Display.run E ops w))
    = filter Display.is_bound (Display.trace w) ++ Display.expected_binds ops.
Proof.
  intros E ops. induction ops as [|o l IH]; intros w.
  - simpl. rewrite app_nil_r. reflexivity.
  - change (Display.run E (o :: l) w) with (Display.run E l (Display.step E w o)).
    rewrite IH. destruct (step_explicit E w o) as (B & _). rewrite B.
    rewrite <- app_assoc. f_equal.
    destruct o as [r n i v|id|f|id data]; cbn; try reflexivity.
    destruct (Display.ceiling i); reflexivity.
Qed.

(** Registrar callbacks are invoked for every announced global, of a known
    interface or not, with the arguments of the announcement, in the order
    in which they were registered, and a callback registered later is not
    told about the globals announced earlier. *)
Theorem display_callbacks_in_registration_order :
  forall (E : Display.env) (ops : list Display.op) (w : Display.world),
    filter (fun e => negb (Display.is_bound e))
      (Display.trace (Display.run E ops w))
    = filter (fun e => negb (Display.is_bound e)) (Display.trace w)
      ++ Display.expected_calls ops (Display.callbacks_ (Display.dpy w)).
Proof.
  intros E ops. induction ops as [|o l IH]; intros w.
  - simpl. rewrite app_nil_r. reflexivity.
  - change (Display.run E (o :: l) w) with (Display.run E l (Display.step E w o)).
    rewrite IH. destruct (step_explicit E w o) as (_ & C & R & _). rewrite C, R.
    rewrite <- app_assoc. f_equal.
    destruct o as [r n i v|id|f|id data]; cbn; rewrite ?app_nil_r; reflexivity.
Qed.

(** [has_xrgb_] is set by the first shm format event that names XRGB8888
    and never cleared: after any sequence of events it is true exactly when
    it was true before or such an event occurred. *)
Theorem display_xrgb_latches :
  forall (E : Display.env) (ops : list Display.op) (w : Display.world),
    Display.has_xrgb_ (Display.dpy (Display.run E ops w))
    = Display.has_xrgb_ (Display.dpy w) || existsb Display.is_xrgb ops.
Proof.
  intros E ops. induction ops as [|o l IH]; intros w.
  - simpl. rewrite orb_false_r. reflexivity.
  - change (Display.run E (o :: l) w) with (Display.run E l (Display.step E w o)).
    rewrite IH. destruct (step_explicit E w o) as (_ & _ & _ & X & _). rewrite X.
    simpl. rewrite orb_assoc. reflexivity.
Qed.

Section DisplayRuns.
Import Display.


End DisplayRuns.



(** ** WindowManager: start-up and window creation *)

Section ManagerFacts.
Import Manager.

Variable E : Manager.env.

Lemma run_acks X events : forall w,
  XdgTrace.acks (XdgWm.sent (XdgWm.run X events w))
  = XdgTrace.acks (XdgWm.sent w) ++ XdgTrace.configures events.
Proof.
  induction events as [|e l IH]; intros w.
  - simpl. rewrite app_nil_r. reflexivity.
  - change (XdgWm.run X (e :: l) w) with (XdgWm.run X l (XdgWm.step X w e)).
    rewrite IH. destruct (step_answers X w e) as [_ A]. rewrite A, <- app_assoc.
    f_equal. destruct e; reflexivity.
Qed.

(** A dispatch acts on each receiver with the events addressed to it. *)
Lemma dispatch_by_receiver batch : forall m,
  wl_display_dispatch E batch m
  = mk (Display.run (wayland E) (display_ops batch) (display m))
       (Frames.run (frame_ops batch) (window m))
       (option_map (XdgWm.run (shell E) (xdg_events batch)) (xdg_wm_ m))
       (shell_type_ m) (windows_ m) (thread m).
Proof.
  unfold wl_display_dispatch.
  induction batch as [|d l IH]; intros m.
  - destruct m as [dw w x s ws th]; destruct x; reflexivity.
  - simpl fold_left. rewrite IH.
    destruct d as [o|e|time]; simpl; try reflexivity.
    destruct (xdg_wm_ m); reflexivity.
Qed.

Lemma dispatch_concat batches : forall m,
  fold_left (fun m b => wl_display_dispatch E b m) batches m
  = wl_display_dispatch E (List.concat batches) m.
Proof.
  unfold wl_display_dispatch.
  induction batches as [|b l IH]; intros m; simpl; [reflexivity|].
  rewrite IH, fold_left_app. reflexivity.
Qed.

Lemma events_configure batch :
  existsb XdgWm.is_surface_configure (xdg_events batch)
  = existsb configures batch.
Proof.
  induction batch as [|d l IH]; simpl; [reflexivity|].
  destruct d as [o|e|time]; simpl; rewrite IH; reflexivity.
Qed.

Lemma quiet_events batch :
  existsb configures batch = false ->
  XdgTrace.configures (xdg_events batch) = [].
Proof.
  induction batch as [|d l IH]; simpl; [reflexivity|].
  destruct d as [o|e|time]; simpl; auto.
  destruct e; simpl; auto; discriminate.
Qed.

Lemma xdg_events_app l1 l2 :
  xdg_events (l1 ++ l2) = xdg_events l1 ++ xdg_events l2.
Proof.
  induction l1 as [|d l1 IH]; simpl; [reflexivity|].
  destruct d; simpl; rewrite IH; reflexivity.
Qed.

Lemma configures_app l1 l2 :
  XdgTrace.configures (l1 ++ l2)
  = XdgTrace.configures l1 ++ XdgTrace.configures l2.
Proof.
  induction l1 as [|e l1 IH]; simpl; [reflexivity|].
  destruct e; simpl; rewrite IH; reflexivity.
Qed.

Lemma quiet_batches pre :
  (forall x, In x pre -> existsb configures x = false) ->
  XdgTrace.configures (xdg_events (List.concat pre)) = []
  /\ existsb configures (List.concat pre) = false.
Proof.
  induction pre as [|b l IH]; intros H; simpl; [split; reflexivity|].
  destruct IH as [C X]; [intros x Hx; apply H; right; exact Hx|].
  rewrite xdg_events_app, configures_app, existsb_app, C, X.
  rewrite (quiet_events b), (H b); [split; reflexivity|left; reflexivity|].
  apply H. left. reflexivity.
Qed.

Lemma waiting_dispatch batch m :
  waiting (wl_display_dispatch E batch m)
  = waiting m && negb (existsb configures batch).
Proof.
  rewrite dispatch_by_receiver. unfold waiting. simpl.
  destruct (xdg_wm_ m) as [x|]; simpl; [|reflexivity].
  rewrite run_wait, events_configure. reflexivity.
Qed.

(** The loop consumes the batches up to and including the first one that
    holds a surface-configure. *)
Lemma wait_through pre : forall m b rest,
  waiting m = true ->
  (forall x, In x pre -> existsb configures x = false) ->
  existsb configures b = true ->
  wait_for_configure E (pre ++ b :: rest) m
  = Some (wl_display_dispatch E (List.concat pre ++ b) m, rest).
Proof.
  induction pre as [|p l IH]; intros m b rest W Q C.
  - simpl. rewrite W.
    assert (W' : waiting (wl_display_dispatch E b m) = false)
      by (rewrite waiting_dispatch, C; apply andb_false_r).
    destruct rest; simpl; rewrite W'; reflexivity.
  - simpl. rewrite W. rewrite IH; auto.
    + unfold wl_display_dispatch. rewrite <- app_assoc, !fold_left_app.
      reflexivity.
    + rewrite waiting_dispatch, W, (Q p); [reflexivity|left; reflexivity].
    + intros x Hx. apply Q. right. exact Hx.
Qed.

Lemma wait_forever batches : forall m,
  waiting m = true ->
  (forall x, In x batches -> existsb configures x = false) ->
  wait_for_configure E batches m = None.
Proof.
  induction batches as [|p l IH]; intros m W Q; simpl; rewrite W; [reflexivity|].
  apply IH.
  - rewrite waiting_dispatch, W, (Q p); [reflexivity|left; reflexivity].
  - intros x Hx. apply Q. right. exact Hx.
Qed.

(** Whatever the loop returns, it has dispatched a prefix of the batches
    and left the others. *)
Lemma wait_consumes batches : forall m m' rest,
  wait_for_configure E batches m = Some (m', rest) ->
  exists consumed,
    batches = consumed ++ rest
    /\ m' = wl_display_dispatch E (List.concat consumed) m
    /\ (waiting m = false -> consumed = []).
Proof.
  induction batches as [|p l IH]; intros m m' rest H; simpl in H.
  - destruct (waiting m); [discriminate|]. injection H as <- <-.
    exists []. repeat split.
  - destruct (waiting m) eqn:W.
    + apply IH in H. destruct H as (c & -> & -> & _).
      exists (p :: c). split; [reflexivity|]. split; [|discriminate].
      simpl. unfold wl_display_dispatch. rewrite fold_left_app. reflexivity.
    + injection H as <- <-. exists []. repeat split.
Qed.

Lemma frame_ops_length batch :
  List.length (frame_ops batch) = List.length (filter
    (fun d => match d with to_frame _ => true | _ => false end) batch).
Proof.
  induction batch as [|d l IH]; simpl; [reflexivity|].
  destruct d; simpl; rewrite IH; reflexivity.
Qed.

Lemma create_window_effect G wd ht k cb m r m' :
  create_window G wd ht k cb m = Returned r m' ->
  window m' = Frames.step (window m) Frames.call_start_frames
  /\ display m' = display m /\ xdg_wm_ m' = xdg_wm_ m
  /\ shell_type_ m' = shell_type_ m
  /\ windows_ m' = windows_ m ++ non_null [r]
  /\ is_window r = match k with EGL => true | VULKAN => false end.
Proof.
  unfold create_window. destruct k.
  - destruct (WindowEgl.construct _ _ _ _ _ _) as [what|w d]; [discriminate|].
    intros H. injection H as <- <-. simpl. repeat split.
  - intros H. injection H as <- <-. simpl. rewrite app_nil_r. repeat split.
Qed.

End ManagerFacts.

(** With the XDG shell the WindowManager constructor returns exactly when
    a dispatch has delivered a surface-configure to its XdgWm: it consumes
    the batches up to and including the first one holding such an event
    and no later one, every surface-configure of that batch has been
    acknowledged and nothing else has, and the wait flag is clear.  If no
    batch ever holds one, the constructor never returns. *)
Theorem startup_waits_for_surface_configure :
  forall (E : Manager.env) (context : Z) (enable_cursor : bool)
         (connection registry : Z) (roundtrip : list Display.op)
         (d0 : Egl.driver) (pre : list (list Manager.delivery))
         (b : list Manager.delivery) (rest : list (list Manager.delivery)),
    connection <> 0 ->
    (forall x, In x pre -> existsb Manager.configures x = false) ->
    existsb Manager.configures b = true ->
    Manager.construct E Manager.XDG context enable_cursor connection registry
      roundtrip pre d0 = Manager.Blocked
    /\ exists m x,
         Manager.construct E Manager.XDG context enable_cursor connection
           registry roundtrip (pre ++ b :: rest) d0 = Manager.Started m rest
         /\ Manager.xdg_wm_ m = Some x
         /\ XdgWm.wait_for_configure_ (XdgWm.obj x) = false
         /\ XdgTrace.acks (XdgWm.sent x)
            = XdgTrace.configures (Manager.xdg_events b)
         /\ XdgTrace.acks (XdgWm.sent x) <> [].
Proof.
  intros E context enable_cursor connection registry roundtrip d0 pre b rest
         Hc Q C.
  unfold Manager.construct, Display.construct.
  apply Z.eqb_neq in Hc. rewrite Hc. cbn [Manager.is_xdg].
  split.
  - rewrite wait_forever; [reflexivity|reflexivity|exact Q].
  - rewrite wait_through; [|reflexivity|exact Q|exact C].
    rewrite dispatch_by_receiver. cbn [Manager.xdg_wm_ option_map Manager.window].
    eexists. eexists. split; [reflexivity|].
    cbn [Manager.set_window Manager.xdg_wm_]. split; [reflexivity|].
    destruct (quiet_batches pre Q) as [QC QX].
    assert (A : XdgTrace.acks (XdgWm.sent
                  (XdgWm.run (Manager.shell E) (Manager.xdg_events (List.concat pre ++ b))
                     (XdgWm.construct (Manager.shell E)
                        (Display.wl_display_ (Display.dpy
                           (Display.run (Manager.wayland E) roundtrip
                              (Display.mk_world
                                 (Display.mk 0 0 0 0 connection registry 0 context
                                    enable_cursor [] [] false None []) []))))
                        (Manager.wl_compositor_create_surface E
                           (Display.wl_compositor_ (Display.dpy
                              (Display.run (Manager.wayland E) roundtrip
                                 (Display.mk_world
                                    (Display.mk 0 0 0 0 connection registry 0 context
                                       enable_cursor [] [] false None []) []))))))))
                = XdgTrace.configures (Manager.xdg_events b)).
    { rewrite run_acks, xdg_events_app, configures_app, QC. reflexivity. }
    split; [|split; [exact A|]].
    + rewrite run_wait, events_configure, existsb_app, C, orb_true_r.
      apply andb_false_r.
    + rewrite A. clear A. induction b as [|d l IH]; [discriminate|].
      simpl in C. destruct d as [o|e|time]; simpl in *; auto.
      destruct e; simpl in *; auto; discriminate.
Qed.

Lemma startup_waits_for_surface_configure_witness :
  Manager.construct Fixtures.desk Manager.XDG 0 true 91 90 []
    (firstn 2 Fixtures.startup_batches) Fixtures.busy_driver = Manager.Blocked
  /\ exists m x,
       Manager.construct Fixtures.desk Manager.XDG 0 true 91 90 []
         Fixtures.startup_batches Fixtures.busy_driver
       = Manager.Started m [[Manager.to_frame 33]]
       /\ Manager.xdg_wm_ m = Some x
       /\ XdgWm.wait_for_configure_ (XdgWm.obj x) = false
       /\ XdgTrace.acks (XdgWm.sent x) = [(62, 9)]
       /\ XdgTrace.acks (XdgWm.sent x) <> [].
Proof.
  apply (startup_waits_for_surface_configure Fixtures.desk 0 true 91 90 []
           Fixtures.busy_driver (firstn 2 Fixtures.startup_batches)
           [Manager.to_frame 16;
            Manager.to_xdg_wm (XdgWm.ev_surface_configure 62 9)]
           [[Manager.to_frame 33]]).
  - lia.
  - intros x [<-|[<-|[]]]; reflexivity.
  - reflexivity.
Defined.

Section ManagerFrames.
Import Manager.

Lemma run_then_start ops w :
  Window.start_frames (Frames.run ops w)
  = Frames.run (ops ++ [Frames.call_start_frames]) w.
Proof. unfold Frames.run. rewrite fold_left_app. reflexivity. Qed.

Lemma create_windows_callbacks f requests : forall m,
  create_windows (map (with_callback f) requests) m = create_windows requests m.
Proof.
  induction requests as [|r l IH]; intros m; [reflexivity|].
  destruct r as [G wd ht k cb]. simpl.
  change (create_window G wd ht k f m) with (create_window G wd ht k cb m).
  destruct (create_window G wd ht k cb m) as [what|result m0]; [reflexivity|].
  rewrite IH. reflexivity.
Qed.

End ManagerFrames.

(** When the WindowManager constructor returns, the base Window has one
    frame callback outstanding and its draw callback has run twice (once
    in the Window constructor, once in the [start_frames] that ends the
    WindowManager constructor) plus once per frame event delivered while
    waiting; no window has been created and the EGL state of the thread is
    untouched.  Without the XDG shell no event is dispatched at all. *)
Theorem startup_draws_base_window :
  forall (E : Manager.env) (shell : Manager.shell_type) (context : Z)
         (enable_cursor : bool) (connection registry : Z)
         (roundtrip : list Display.op) (batches : list (list Manager.delivery))
         (d0 : Egl.driver) (m : Manager.t) (rest : list (list Manager.delivery)),
    0 < Manager.first_callback E ->
    Manager.construct E shell context enable_cursor connection registry
      roundtrip batches d0 = Manager.Started m rest ->
    exists consumed,
      batches = consumed ++ rest
      /\ (Manager.is_xdg shell = false -> consumed = [])
      /\ Frames.framing (Manager.window m)
      /\ Window.draws (Window.trace (Manager.window m))
         = (2 + List.length (Manager.frame_ops (List.concat consumed)))%nat
      /\ Manager.windows_ m = []
      /\ Manager.thread m = d0.
Proof.
  intros E shell context enable_cursor connection registry roundtrip batches
         d0 m rest Hf H.
  unfold Manager.construct in H.
  destruct (Display.construct connection registry context enable_cursor)
    as [dw|]; [|discriminate].
  set (dw' := Display.run (Manager.wayland E) roundtrip dw) in H.
  set (surface := Manager.wl_compositor_create_surface E
                    (Display.wl_compositor_ (Display.dpy dw'))) in H.
  pose proof (framing_construct surface (Manager.first_callback E) true Hf) as F0.
  destruct (Manager.is_xdg shell) eqn:X.
  - destruct (Manager.wait_for_configure E batches _) as [[m1 rest1]|] eqn:W;
      [|discriminate].
    injection H as <- <-.
    apply wait_consumes in W. destruct W as (consumed & -> & -> & _).
    exists consumed. split; [reflexivity|]. split; [discriminate|].
    rewrite dispatch_by_receiver.
    cbn [Manager.set_window Manager.window Manager.windows_ Manager.thread
         Manager.display Manager.xdg_wm_ Manager.shell_type_].
    rewrite run_then_start.
    destruct (framing_run
                (Manager.frame_ops (List.concat consumed) ++ [Frames.call_start_frames])
                _ F0) as (F & _ & N).
    split; [exact F|]. split; [|split; reflexivity].
    rewrite N. cbn. rewrite length_app. cbn. lia.
  - injection H as <- <-. exists []. split; [reflexivity|].
    split; [reflexivity|].
    cbn [Manager.set_window Manager.window Manager.windows_ Manager.thread].
    destruct (framing_run [Frames.call_start_frames] _ F0) as (F & _ & N).
    split; [exact F|]. split; [|split; reflexivity].
    change (Window.start_frames
              (Window.construct surface (Manager.first_callback E) true))
      with (Frames.run [Frames.call_start_frames]
              (Window.construct surface (Manager.first_callback E) true)).
    rewrite N. reflexivity.
Qed.

Lemma startup_draws_base_window_witness :
  exists m consumed,
    Fixtures.startup_batches = consumed ++ [[Manager.to_frame 33]]
    /\ (Manager.is_xdg Manager.XDG = false -> consumed = [])
    /\ Frames.framing (Manager.window m)
    /\ Window.draws (Window.trace (Manager.window m))
       = (2 + List.length (Manager.frame_ops (List.concat consumed)))%nat
    /\ Manager.windows_ m = []
    /\ Manager.thread m = Fixtures.busy_driver.
Proof.
  eexists.
  apply (startup_draws_base_window Fixtures.desk Manager.XDG 0 true 91 90 []
           Fixtures.startup_batches Fixtures.busy_driver _ [[Manager.to_frame 33]]).
  - reflexivity.
  - vm_compute. reflexivity.
Defined.

(** Over any series of [create_window] calls none of which throws: the
    value returned is a window for an EGL request and null for a VULKAN
    one; [windows_] grows by the windows returned, in order; every call,
    of either type, restarts the frame loop of the base Window, which runs
    the base draw callback once more and keeps one callback outstanding;
    the Display and the XdgWm are left alone; and the draw callback passed
    in makes no difference to any of it. *)
Theorem create_window_appends_and_restarts_frames :
  forall (requests : list Manager.request) (m : Manager.t)
         (results : list (option WindowEgl.t)) (m' : Manager.t),
    Frames.framing (Manager.window m) ->
    Manager.create_windows requests m = Some (results, m') ->
    map Manager.is_window results = map Manager.is_egl requests
    /\ Manager.windows_ m' = Manager.windows_ m ++ Manager.non_null results
    /\ Frames.framing (Manager.window m')
    /\ Window.draws (Window.trace (Manager.window m'))
       = (Window.draws (Window.trace (Manager.window m))
          + if Window.has_draw_callback (Window.win (Manager.window m))
            then List.length requests else 0)%nat
    /\ Manager.display m' = Manager.display m
    /\ Manager.xdg_wm_ m' = Manager.xdg_wm_ m
    /\ forall f,
         Manager.create_windows (map (Manager.with_callback f) requests) m
         = Some (results, m').
Proof.
  intros requests m results m' F H.
  assert (G : forall f,
             Manager.create_windows (map (Manager.with_callback f) requests) m
             = Some (results, m'))
    by (intros f; rewrite create_windows_callbacks; exact H).
  revert m results m' F H G.
  induction requests as [|r l IH]; intros m results m' F H G.
  - injection H as <- <-. cbn [Manager.non_null map]. rewrite app_nil_r.
    split; [reflexivity|]. split; [reflexivity|]. split; [exact F|].
    split; [destruct (Window.has_draw_callback _); cbn [List.length]; lia|].
    split; [reflexivity|]. split; [reflexivity|exact G].
  - cbn [Manager.create_windows] in H.
    destruct (Manager.create_window _ _ _ _ _ m) as [what|r0 m0] eqn:CW;
      [discriminate|].
    destruct (Manager.create_windows l m0) as [[rs m1]|] eqn:CWs; [|discriminate].
    injection H as <- <-.
    apply create_window_effect in CW. destruct CW as (Wn & D & X & S & Ws & K).
    destruct (framing_step (Manager.window m) Frames.call_start_frames F)
      as (F1 & D1 & _ & T1).
    rewrite <- Wn in F1, D1, T1.
    destruct (IH m0 rs m1 F1 CWs) as (R2 & W2 & F2 & N2 & D2 & X2 & _).
    { intros f. rewrite create_windows_callbacks. exact CWs. }
    split; [cbn [map]; rewrite R2, K; unfold Manager.is_egl; reflexivity|].
    split.
    { rewrite W2, Ws, <- app_assoc. f_equal. destruct r0; reflexivity. }
    split; [exact F2|]. split; [|split; [congruence|split; [congruence|exact G]]].
    rewrite N2, D1, T1, !draws_app.
    destruct (Window.has_draw_callback (Window.win (Manager.window m)));
      unfold Window.draws; simpl; lia.
Qed.

Lemma create_window_appends_and_restarts_frames_witness :
  exists results m',
    map Manager.is_window results = map Manager.is_egl Fixtures.three_requests
    /\ Manager.windows_ m'
       = Manager.windows_ Fixtures.plain_manager ++ Manager.non_null results
    /\ Frames.framing (Manager.window m')
    /\ Window.draws (Window.trace (Manager.window m'))
       = (Window.draws (Window.trace (Manager.window Fixtures.plain_manager))
          + if Window.has_draw_callback
                 (Window.win (Manager.window Fixtures.plain_manager))
            then List.length Fixtures.three_requests else 0)%nat
    /\ Manager.display m' = Manager.display Fixtures.plain_manager
    /\ Manager.xdg_wm_ m' = Manager.xdg_wm_ Fixtures.plain_manager
    /\ forall f,
         Manager.create_windows
           (map (Manager.with_callback f) Fixtures.three_requests)
           Fixtures.plain_manager
         = Some (results, m').
Proof.
  eexists. eexists.
  apply (create_window_appends_and_restarts_frames Fixtures.three_requests
           Fixtures.plain_manager).
  - unfold Frames.framing. cbn. repeat split; lia.
  - vm_compute. reflexivity.
Defined.
